(** * HandballApp: the PDF extraction pipeline of [pdf_extractor.py] and
      [pdf_to_images.py], embedded in Rocq.

    Python [str] values are sequences of Unicode code points, regular
    expressions are run by a backtracking matcher with the priorities of
    Python's [re], and the extractor class is a record threaded through a
    small state-and-exception monad whose state is the trace of handle and
    file events. *)

From Stdlib Require Import List ZArith NArith Bool Lia Ascii String.
From Stdlib Require Import Sorted Permutation.
From Stdlib Require DecimalZ.
Import ListNotations.

Local Open Scope Z_scope.

(** ** Python strings *)

Module PyStr.

(** A [str] is its list of code points. *)
Definition pystr := list N.

(** Source literals are written as UTF-8 Rocq strings and decoded. *)
Fixpoint utf8_decode (bs : list N) : pystr :=
  match bs with
  | [] => []
  | b0 :: t0 =>
      if (b0 <? 128)%N then b0 :: utf8_decode t0
      else match t0 with
           | [] => []
           | b1 :: t1 =>
               if (b0 <? 224)%N
               then ((b0 - 192) * 64 + (b1 - 128))%N :: utf8_decode t1
               else match t1 with
                    | [] => []
                    | b2 :: t2 =>
                        if (b0 <? 240)%N
                        then ((b0 - 224) * 4096 + (b1 - 128) * 64 + (b2 - 128))%N
                               :: utf8_decode t2
                        else match t2 with
                             | [] => []
                             | b3 :: t3 =>
                                 ((b0 - 240) * 262144 + (b1 - 128) * 4096
                                  + (b2 - 128) * 64 + (b3 - 128))%N
                                   :: utf8_decode t3
                             end
                    end
           end
  end.

Definition u (s : string) : pystr :=
  utf8_decode (map N_of_ascii (list_ascii_of_string s)).

Definition eqb (a b : pystr) : bool :=
  if list_eq_dec N.eq_dec a b then true else false.

Definition len (s : pystr) : Z := Z.of_nat (List.length s).

(** [str.isspace] on one code point; also the class [\s] of [re] on [str]
    patterns. *)
Definition is_space (c : N) : bool :=
  ((9 <=? c) && (c <=? 13) || (28 <=? c) && (c <=? 32)
   || (c =? 133) || (c =? 160) || (c =? 5760)
   || (8192 <=? c) && (c <=? 8202)
   || (c =? 8232) || (c =? 8233) || (c =? 8239) || (c =? 8287)
   || (c =? 12288))%N.

(** The class [\d].  The table holds the ASCII digits; the decimal digits of
    other scripts are outside the model. *)
Definition is_digit (c : N) : bool := ((48 <=? c) && (c <=? 57))%N.

(** [str.lower] for the code points below 256 (ASCII and Latin-1, which
    covers German text); other code points are left as they are. *)
Definition lower_char (c : N) : N :=
  if ((65 <=? c) && (c <=? 90))%N then (c + 32)%N
  else if ((192 <=? c) && (c <=? 222) && negb (c =? 215))%N then (c + 32)%N
  else c.

(** The letter under which [re.IGNORECASE] compares a code point with a
    literal of a pattern.  A literal is lowered and matches every code point
    whose lower case is that letter or its entry in the table of
    [re._casefix] ([i] and dotless [i], [s] and long [s], the micro sign and
    mu).  For the literals below 256, which are all the literals of the
    patterns here, these are the code points of Latin-1 with the same lower
    case and nine more: U+0130 and U+0131 for [i], U+017F for [s], U+212A
    (Kelvin) for [k], U+212B (Angstrom) for [a] with ring, U+1E9E for sharp
    [s], U+0178 for [y] with diaeresis, U+039C and U+03BC for the micro
    sign. *)
Definition ignorecase_char (c : N) : N :=
  if ((c =? 304) || (c =? 305))%N then 105%N
  else if (c =? 383)%N then 115%N
  else if (c =? 8490)%N then 107%N
  else if (c =? 8491)%N then 229%N
  else if (c =? 7838)%N then 223%N
  else if (c =? 376)%N then 255%N
  else if ((c =? 924) || (c =? 956))%N then 181%N
  else lower_char c.

Definition lower (s : pystr) : pystr := map lower_char s.

Fixpoint lstrip (s : pystr) : pystr :=
  match s with
  | c :: t => if is_space c then lstrip t else s
  | [] => []
  end.

Definition rstrip (s : pystr) : pystr := rev (lstrip (rev s)).

(** [s.strip()] *)
Definition strip (s : pystr) : pystr := rstrip (lstrip s).

(** [s.startswith(p)] *)
Fixpoint startswith (s p : pystr) : bool :=
  match p, s with
  | [], _ => true
  | _ :: _, [] => false
  | a :: p', b :: s' => (a =? b)%N && startswith s' p'
  end.

(** [p in s] for strings *)
Fixpoint py_in (p s : pystr) : bool :=
  startswith s p ||
  match s with
  | [] => false
  | _ :: t => py_in p t
  end.

(** [sep.join(items)] *)
Fixpoint join (sep : pystr) (items : list pystr) : pystr :=
  match items with
  | [] => []
  | [x] => x
  | x :: rest => x ++ sep ++ join sep rest
  end.

(** [s.split(sep)] for a one-character separator given as a predicate; used
    for [re.split] on a character class as well. *)
Fixpoint split_on (p : N -> bool) (s : pystr) : list pystr :=
  match s with
  | [] => [[]]
  | c :: t =>
      if p c then [] :: split_on p t
      else match split_on p t with
           | w :: ws => (c :: w) :: ws
           | [] => [[c]]
           end
  end.

(** The number that a string of decimal digits writes. *)
Definition decimal_value (s : pystr) : Z :=
  fold_left (fun acc c => 10 * acc + Z.of_N (c - 48)) s 0.

(** [str(n)], also the conversion [{n}] of an f-string: the decimal digits,
    after a minus sign for a negative number. *)
Fixpoint uint_codes (d : Decimal.uint) : pystr :=
  match d with
  | Decimal.Nil => []
  | Decimal.D0 d => 48%N :: uint_codes d
  | Decimal.D1 d => 49%N :: uint_codes d
  | Decimal.D2 d => 50%N :: uint_codes d
  | Decimal.D3 d => 51%N :: uint_codes d
  | Decimal.D4 d => 52%N :: uint_codes d
  | Decimal.D5 d => 53%N :: uint_codes d
  | Decimal.D6 d => 54%N :: uint_codes d
  | Decimal.D7 d => 55%N :: uint_codes d
  | Decimal.D8 d => 56%N :: uint_codes d
  | Decimal.D9 d => 57%N :: uint_codes d
  end.

Definition str_of_int (n : Z) : pystr :=
  match Z.to_int n with
  | Decimal.Pos d => uint_codes d
  | Decimal.Neg d => 45%N :: uint_codes d
  end.

(** [f"{n:03d}"]: the sign, then the digits padded with zeros to a total
    width of three. *)
Definition pad_zeros (width : nat) (digits : pystr) : pystr :=
  repeat 48%N (width - List.length digits) ++ digits.

Definition format_03d (n : Z) : pystr :=
  if n <? 0 then 45%N :: pad_zeros 2 (str_of_int (- n))
  else pad_zeros 3 (str_of_int n).

End PyStr.
Import PyStr.

(** ** Regular expressions *)

Module Re.

Inductive regex : Type :=
| Eps                                   (* the empty pattern *)
| Lit (c : N)                           (* a literal character *)
| Set_ (p : N -> bool)                  (* a class: [\d], [\s], [...]  *)
| Dot                                   (* [.] *)
| Seq (r1 r2 : regex)
| Alt (r1 r2 : regex)                   (* [r1|r2], left first *)
| Star (greedy : bool) (r : regex)      (* [r*] and [r*?] *)
| Group (n : nat) (r : regex).          (* the n-th capturing group *)

Definition Plus (greedy : bool) (r : regex) : regex := Seq r (Star greedy r).

(** A literal word, character by character. *)
Fixpoint Word (w : pystr) : regex :=
  match w with
  | [] => Eps
  | [c] => Lit c
  | c :: t => Seq (Lit c) (Word t)
  end.

Record flags := { IGNORECASE : bool; DOTALL : bool }.

Definition caps := list (nat * pystr).

Fixpoint cap_get (n : nat) (c : caps) : option pystr :=
  match c with
  | [] => None
  | (k, v) :: t => if Nat.eqb k n then Some v else cap_get n t
  end.

Definition lit_ok (fl : flags) (c x : N) : bool :=
  if IGNORECASE fl then (ignorecase_char c =? ignorecase_char x)%N
  else (c =? x)%N.

Definition dot_ok (fl : flags) (x : N) : bool :=
  DOTALL fl || negb (x =? 10)%N.

Section Matcher.
Variable fl : flags.
Variable R : Type.

Definition cont : Type := nat -> pystr -> caps -> option R.

(** The rounds of a star whose body is matched by [body]: at most [n]
    rounds, each of which has to move on in the text.  A greedy star tries
    one more round before it goes on with [k]; a lazy star goes on with [k]
    first. *)
Fixpoint star_loop (body : nat -> pystr -> caps -> cont -> option R)
         (greedy : bool) (k : cont) (n : nat) (i : nat) (s : pystr)
         (c : caps) {struct n} : option R :=
  match n with
  | O => k i s c
  | S n' =>
      let more :=
        body i s c
             (fun i' s' c' =>
                if Nat.ltb i i' then star_loop body greedy k n' i' s' c'
                else None) in
      if greedy
      then match more with
           | Some x => Some x
           | None => k i s c
           end
      else match k i s c with
           | Some x => Some x
           | None => more
           end
  end.

(** The matcher in continuation-passing style: [i] is the position, [s] the
    text from there on, [c] what the groups hold, [k] the rest of the
    pattern.  Alternatives are tried in the order of [re], the left branch
    first. *)
Fixpoint run (r : regex) (i : nat) (s : pystr) (c : caps) (k : cont)
         {struct r} : option R :=
  match r with
  | Eps => k i s c
  | Lit a =>
      match s with
      | x :: s' => if lit_ok fl a x then k (S i) s' c else None
      | [] => None
      end
  | Set_ p =>
      match s with
      | x :: s' => if p x then k (S i) s' c else None
      | [] => None
      end
  | Dot =>
      match s with
      | x :: s' => if dot_ok fl x then k (S i) s' c else None
      | [] => None
      end
  | Seq r1 r2 => run r1 i s c (fun i' s' c' => run r2 i' s' c' k)
  | Alt r1 r2 =>
      match run r1 i s c k with
      | Some x => Some x
      | None => run r2 i s c k
      end
  | Star greedy r' =>
      star_loop (run r') greedy k (S (List.length s)) i s c
  | Group n r' =>
      run r' i s c
          (fun i' s' c' => k i' s' ((n, firstn (i' - i) s) :: c'))
  end.
End Matcher.

(** A match object: its span and what its groups captured. *)
Record Match := { m_start : nat; m_end : nat; m_caps : caps }.

(** [match.group(n)] for n >= 1: [None] when the group took no part. *)
Definition group (m : Match) (n : nat) : option pystr := cap_get n (m_caps m).

(** The pattern matched at position [i] of the text, where the text from
    [i] on is [s]; the matcher counts from the start of the attempt. *)
Definition match_here (fl : flags) (r : regex) (i : nat) (s : pystr)
  : option Match :=
  run fl Match r 0 s []
      (fun e _ c => Some {| m_start := i; m_end := i + e; m_caps := c |}).

(** Leftmost match at or after [i]. *)
Fixpoint search_from (fl : flags) (r : regex) (i : nat) (s : pystr)
  : option Match :=
  match match_here fl r i s with
  | Some m => Some m
  | None =>
      match s with
      | [] => None
      | _ :: t => search_from fl r (S i) t
      end
  end.

(** [re.search(pattern, text, flags)] *)
Definition search (fl : flags) (r : regex) (text : pystr) : option Match :=
  search_from fl r 0 text.

(** [re.finditer]: the successive non-overlapping matches, left to right.
    After a match the scan resumes at its end (one further when the match is
    empty). *)
Fixpoint finditer_from (fuel : nat) (fl : flags) (r : regex) (i : nat)
         (s : pystr) : list Match :=
  match fuel with
  | O => []
  | S fuel' =>
      match match_here fl r i s with
      | Some m =>
          let e := m_end m in
          if Nat.ltb i e
          then m :: finditer_from fuel' fl r e (skipn (e - i) s)
          else m :: match s with
                    | [] => []
                    | _ :: t => finditer_from fuel' fl r (S i) t
                    end
      | None =>
          match s with
          | [] => []
          | _ :: t => finditer_from fuel' fl r (S i) t
          end
      end
  end.

Definition finditer (fl : flags) (r : regex) (text : pystr) : list Match :=
  finditer_from (S (List.length text)) fl r 0 text.

End Re.
Import Re.

(** ** Exceptions *)

Inductive exn : Type :=
| AttributeError      (* a method called on [None] *)
| TypeError           (* [None] where a number or a string is needed *)
| IndexError          (* a page number outside the document *)
| ValueError          (* a number with more digits than [int] converts *)
| RuntimeError.       (* raised by the PDF library *)

Inductive result (A : Type) : Type :=
| Ok (a : A)
| Raise (e : exn).
Arguments Ok {A} a.
Arguments Raise {A} e.

Definition rbind {A B : Type} (x : result A) (f : A -> result B) : result B :=
  match x with
  | Ok a => f a
  | Raise e => Raise e
  end.

Declare Scope result_scope.
Delimit Scope result_scope with result.
Notation "x <- e ;; k" := (rbind e (fun x => k))
  (at level 61, e at next level, right associativity) : result_scope.

(** [sys.get_int_max_str_digits()] as CPython sets it when nothing is
    configured. *)
Definition int_max_str_digits : Z := 4300.

(** [int(s)] on a string of decimal digits, the only strings the program
    converts (they are captured by [\d+]): the number they write, and a
    [ValueError] when there are more digits than the limit allows, leading
    zeros included. *)
Definition py_int (s : pystr) : result Z :=
  if len s <=? int_max_str_digits then Ok (decimal_value s)
  else Raise ValueError.

(** ** The patterns of the source *)

Module Patterns.

Definition ws : regex := Star true (Set_ is_space).          (* [\s*] *)
Definition digits : regex := Plus true (Set_ is_digit).      (* [\d+] *)
Definition chr (s : string) : N := hd 0%N (u s).
Definition not_newline (c : N) : bool := negb (c =? 10)%N.
Definition newline : regex := Lit 10.

Definition I : flags := {| IGNORECASE := true; DOTALL := false |}.
Definition IS : flags := {| IGNORECASE := true; DOTALL := true |}.
Definition plain : flags := {| IGNORECASE := false; DOTALL := false |}.

(** [r'(\d+)'], the session number in a file name *)
Definition session_number : regex := Group 1 digits.

(** [r'(?:Übung|Drill|Teil)\s*(\d+)[:\s]+(.*?)(?:\((\d+)\s*Min)'] *)
Definition drill_keyword : regex :=
  Alt (Word (u "Übung")) (Alt (Word (u "Drill")) (Word (u "Teil"))).

Definition colon_or_space (c : N) : bool := (c =? chr ":")%N || is_space c.

Definition drill_pattern : regex :=
  Seq drill_keyword
 (Seq ws
 (Seq (Group 1 digits)
 (Seq (Plus true (Set_ colon_or_space))
 (Seq (Group 2 (Star false Dot))
 (Seq (Lit (chr "("))
 (Seq (Group 3 digits)
 (Seq ws
      (Word (u "Min"))))))))).

(** The four duration patterns, in the order of the source list. *)
Definition duration_patterns : list regex :=
  [ Seq (Group 1 digits) (Seq ws (Word (u "Minuten")));        (* (\d+)\s*Minuten *)
    Seq (Group 1 digits) (Seq ws (Word (u "Min.")));           (* (\d+)\s*Min\.   *)
    Seq (Group 1 digits) (Seq ws (Word (u "min")));            (* (\d+)\s*min     *)
    Seq (Word (u "Dauer:")) (Seq ws (Group 1 digits)) ].       (* Dauer:\s*(\d+)  *)

(** [(?:Material|Benötigtes Material|Equipment):\s*\n(.*?)(?:\n\n|\nAblauf|\nGrundaufbau)] *)
Definition equipment_heading : regex :=
  Alt (Word (u "Material"))
      (Alt (Word (u "Benötigtes Material")) (Word (u "Equipment"))).

Definition equipment_block_pattern : regex :=
  Seq equipment_heading
 (Seq (Lit (chr ":"))
 (Seq ws
 (Seq newline
 (Seq (Group 1 (Star false Dot))
      (Alt (Seq newline newline)
      (Alt (Seq newline (Word (u "Ablauf")))
           (Seq newline (Word (u "Grundaufbau"))))))))).

(** [(?:Material|Benötigtes Material):\s*([^\n]+(?:\n[^\n]+)*?)(?:\n\n|\nAblauf)] *)
Definition equipment_inline_pattern : regex :=
  Seq (Alt (Word (u "Material")) (Word (u "Benötigtes Material")))
 (Seq (Lit (chr ":"))
 (Seq ws
 (Seq (Group 1 (Seq (Plus true (Set_ not_newline))
                    (Star false (Seq newline (Plus true (Set_ not_newline))))))
      (Alt (Seq newline newline)
           (Seq newline (Word (u "Ablauf"))))))).

(** The two equipment patterns, in the order of the source list. *)
Definition equipment_patterns : list regex :=
  [ equipment_block_pattern; equipment_inline_pattern ].

(** [r'[\n•\-\u0001]'], the separators of the equipment block *)
Definition equipment_separator (c : N) : bool :=
  ((c =? 10) || (c =? chr "•") || (c =? chr "-") || (c =? 1))%N.

(** [r'^\d+[\.\)]\s*'], a numbered-list prefix (matched at the start only) *)
Definition list_prefix : regex :=
  Seq digits (Seq (Set_ (fun c => (c =? chr ".") || (c =? chr ")"))%N) ws).

End Patterns.
Import Patterns.

(** [match.group(n)] where the program goes on to use the value as a string:
    on [None] the next operation raises [e]. *)
Definition group_or (e : exn) (m : Match) (n : nat) : result pystr :=
  match group m n with
  | Some s => Ok s
  | None => Raise e
  end.

(** [re.sub(r'^...', '', item)]: a match at the start is cut off. *)
Definition sub_prefix (fl : flags) (r : regex) (item : pystr) : pystr :=
  match match_here fl r 0 item with
  | Some m => skipn (m_end m) item
  | None => item
  end.

(** ** Data model *)

Inductive Phase : Type :=
| Warm_up | Koordination | Ballhandling | Torhueter
| Wurfserie | Angriff | Abwehr | Spiel.

(** The label stored in the record. *)
Definition phase_name (p : Phase) : pystr :=
  match p with
  | Warm_up => u "Warm-up"
  | Koordination => u "Koordination"
  | Ballhandling => u "Ballhandling"
  | Torhueter => u "Torhüter"
  | Wurfserie => u "Wurfserie"
  | Angriff => u "Angriff"
  | Abwehr => u "Abwehr"
  | Spiel => u "Spiel"
  end.

Record ImageRef := {
  img_path : pystr;
  img_page : Z;
  img_order : Z;
  img_type : option pystr
}.

Record DrillText := {
  preface : pystr; setup : pystr; execution : pystr; coaching_points : pystr;
  variations : pystr; goal : pystr; raw_rest : pystr
}.

Record DrillBullets := {
  b_setup : list pystr; b_execution : list pystr;
  b_coaching_points : list pystr; b_variations : list pystr;
  b_goal : list pystr
}.

Record DrillTags := {
  formation : pystr;
  concept_tags : list pystr;
  drill_level : pystr;
  requires_goalkeeper : bool
}.

Record Drill := {
  drill_id : pystr;
  title : pystr;
  duration_min : Z;
  cumulative_min : Z;
  phase : Phase;
  source_page_start : Z;
  text : DrillText;
  text_bullets : DrillBullets;
  tags : DrillTags;
  images : list ImageRef
}.

Definition empty_text : DrillText :=
  {| preface := []; setup := []; execution := []; coaching_points := [];
     variations := []; goal := []; raw_rest := [] |}.

Definition empty_bullets : DrillBullets :=
  {| b_setup := []; b_execution := []; b_coaching_points := [];
     b_variations := []; b_goal := [] |}.

Definition default_tags (gk : bool) : DrillTags :=
  {| formation := u "unbekannt"; concept_tags := [];
     drill_level := u "unbekannt"; requires_goalkeeper := gk |}.

Definition set_images (d : Drill) (imgs : list ImageRef) : Drill :=
  {| drill_id := drill_id d; title := title d;
     duration_min := duration_min d; cumulative_min := cumulative_min d;
     phase := phase d; source_page_start := source_page_start d;
     text := text d; text_bullets := text_bullets d; tags := tags d;
     images := imgs |}.

Record SessionTags := {
  s_formation : pystr;
  focus_area : pystr;
  s_concept_tags : list pystr;
  equipment_tags : list pystr
}.

Record Session := {
  source_file : pystr;
  id : option Z;
  s_title : pystr;
  duration_total_min : Z;
  equipment : list pystr;
  drills : list Drill;
  extraction_method : pystr;
  s_tags : SessionTags
}.

(** [f"{self.session_id}"]: the number, or [None] spelled out. *)
Definition fmt_id (sid : option Z) : pystr :=
  match sid with
  | Some n => str_of_int n
  | None => u "None"
  end.

(** [f"{self.session_id:03d}"], a [TypeError] on [None]. *)
Definition fmt_id_03d (sid : option Z) : result pystr :=
  match sid with
  | Some n => Ok (format_03d n)
  | None => Raise TypeError
  end.

(** The session number of a file name: [int(match.group(1))] for the first
    run of digits, [None] without one. *)
Definition session_id_of (filename : pystr) : result (option Z) :=
  match search plain session_number filename with
  | Some m =>
      (d <- group_or TypeError m 1 ;; n <- py_int d ;; Ok (Some n))%result
  | None => Ok None
  end.

(** ** The pure methods of [HandballPDFExtractor] *)

(** [any(word in text for word in words)] *)
Definition any_in (words : list pystr) (text : pystr) : bool :=
  existsb (fun word => py_in word text) words.

Module Keywords.
Definition warm_up := [u "einlaufen"; u "aufwärmen"; u "warm"; u "dehnen"].
Definition koordination := [u "koordination"; u "lauf"].
Definition ballhandling := [u "ballgewöhnung"; u "ballhandling"; u "passen"].
Definition torhueter := [u "torhüter"; u "torwart"; u "einwerfen"].
Definition wurfserie := [u "wurfserie"; u "werfen"].
Definition angriff := [u "angriff"; u "offensive"].
Definition abwehr := [u "abwehr"; u "defensive"].
Definition spiel := [u "spiel"; u "abschluss"].
End Keywords.

Definition _classify_phase (title : pystr) : Phase :=
  let title_lower := lower title in
  if any_in Keywords.warm_up title_lower then Warm_up
  else if any_in Keywords.koordination title_lower then Koordination
  else if any_in Keywords.ballhandling title_lower then Ballhandling
  else if any_in Keywords.torhueter title_lower then Torhueter
  else if any_in Keywords.wurfserie title_lower then Wurfserie
  else if any_in Keywords.angriff title_lower then Angriff
  else if any_in Keywords.abwehr title_lower then Abwehr
  else if any_in Keywords.spiel title_lower then Spiel
  else Angriff.

Definition phase_eqb (a b : Phase) : bool :=
  PyStr.eqb (phase_name a) (phase_name b).

Definition default_phases : list (pystr * Phase * Z) :=
  [ (u "Einlaufen/Dehnen", Warm_up, 15);
    (u "kleines Spiel", Spiel, 10);
    (u "Ballgewöhnung", Ballhandling, 10);
    (u "Torhüter einwerfen", Torhueter, 10);
    (u "Hauptteil", Angriff, 35);
    (u "Abschlussspiel", Spiel, 10) ].

(** The loop of [_create_default_drills]: [idx] is the counter of
    [enumerate(..., start=1)], [cumulative] the running total. *)
Fixpoint default_drills_from (sid : option Z) (idx : Z) (cumulative : Z)
         (l : list (pystr * Phase * Z)) : list Drill :=
  match l with
  | [] => []
  | (title, phase, duration) :: rest =>
      let cumulative := cumulative + duration in
      {| drill_id := fmt_id sid ++ u "-" ++ str_of_int idx;
         title := title;
         duration_min := duration;
         cumulative_min := cumulative;
         phase := phase;
         source_page_start := 2;
         text := empty_text;
         text_bullets := empty_bullets;
         tags := default_tags (phase_eqb phase Torhueter);
         images := [] |}
        :: default_drills_from sid (idx + 1) cumulative rest
  end.

Definition _create_default_drills (sid : option Z) : list Drill :=
  default_drills_from sid 1 0 default_phases.

(** [extract_duration]: the first pattern of the list that is found
    anywhere in the text decides. *)
Fixpoint first_duration (patterns : list regex) (text : pystr) : result Z :=
  match patterns with
  | [] => Ok 90
  | pattern :: rest =>
      match search I pattern text with
      | Some m => (d <- group_or TypeError m 1 ;; py_int d)%result
      | None => first_duration rest text
      end
  end.

Definition extract_duration (text : pystr) : result Z :=
  first_duration duration_patterns text.

(** The items of a material block: split, trimmed, numbering removed, short
    and URL-like tokens dropped. *)
Definition clean_item (item : pystr) : pystr :=
  sub_prefix IS list_prefix (strip item).

Definition keep_item (item : pystr) : bool :=
  negb (PyStr.eqb item []) && (2 <? len item) && negb (startswith item (u "http")).

Definition material_items (material_text : pystr) : list pystr :=
  filter keep_item (map clean_item (split_on equipment_separator material_text)).

Fixpoint first_material (patterns : list regex) (text : pystr)
  : result (list pystr) :=
  match patterns with
  | [] => Ok []
  | pattern :: rest =>
      match search IS pattern text with
      | Some m =>
          (material_text <- group_or TypeError m 1 ;;
           Ok (material_items material_text))%result
      | None => first_material rest text
      end
  end.

Definition extract_equipment (text : pystr) : result (list pystr) :=
  (equipment <- first_material equipment_patterns text ;;
   Ok (match equipment with
       | [] => [u "Bälle"; u "Hütchen"]
       | _ => equipment
       end))%result.

(** The tag dictionary, in insertion order. *)
Definition tag_mapping : list (pystr * list pystr) :=
  [ (u "Hütchen", [u "hütchen"; u "kegel"]);
    (u "Ballkiste", [u "ballkiste"; u "bälle"]);
    (u "Reifen", [u "reifen"; u "ring"]);
    (u "Koordinationsleiter", [u "koordinationsleiter"; u "leiter"]);
    (u "Turnkisten", [u "turnkiste"; u "kasten"]);
    (u "Turnmatte", [u "matte"; u "turnmatte"]) ].

Definition _extract_equipment_tags (equipment : list pystr) : list pystr :=
  let equipment_text := lower (join (u " ") equipment) in
  map fst (filter (fun entry => any_in (snd entry) equipment_text) tag_mapping).

(** [extract_title], by its three strategies in order. *)
Definition nonempty (s : pystr) : bool := negb (PyStr.eqb s []).

Fixpoint after_first (p : N -> bool) (s : pystr) : pystr :=
  match s with
  | [] => []
  | c :: t => if p c then t else after_first p t
  end.

Definition title_lines (first_page_text : pystr) : list pystr :=
  filter nonempty
         (map strip (split_on (fun c => (c =? 10)%N) first_page_text)).

Fixpoint title_by_marker (lines : list pystr) : option pystr :=
  match lines with
  | [] => None
  | line :: rest =>
      if py_in (u "Schwerpunkt") line || py_in (u "schwerpunkt") line then
        let same_line :=
          if py_in (u ":") line then
            let title := strip (after_first (fun c => (c =? chr ":")%N) line) in
            if nonempty title && (5 <? len title) then Some title else None
          else None in
        match same_line, rest with
        | Some title, _ => Some title
        | None, next :: _ =>
            let next_line := strip next in
            if (5 <? len next_line) && negb (py_in (u "Copyright") next_line)
            then Some next_line
            else title_by_marker rest
        | None, [] => title_by_marker rest
        end
      else title_by_marker rest
  end.

Definition footer_free (line : pystr) : bool :=
  negb (py_in (u "Copyright") line)
  && negb (py_in (u "Seite") line)
  && negb (py_in (u "handball-uebungen") line)
  && negb (startswith line (u "http")).

Definition title_candidate (candidate : pystr) : bool :=
  (10 <? len candidate) && footer_free candidate.

(** [n] counts down the fifteen lines that are looked at. *)
Fixpoint title_after_number (sid : option Z) (n : nat) (lines : list pystr)
  : option pystr :=
  match n, lines with
  | S n', line :: rest =>
      if py_in (u "Trainingseinheit " ++ fmt_id sid) line
         || py_in (u "TE " ++ fmt_id sid) line
      then match find title_candidate (firstn 4 rest) with
           | Some candidate => Some candidate
           | None => title_after_number sid n' rest
           end
      else title_after_number sid n' rest
  | _, _ => None
  end.

Definition all_digits (line : pystr) : bool :=
  nonempty line && forallb is_digit line.

Definition fallback_candidate (line : pystr) : bool :=
  (15 <? len line)
  && negb (py_in (u "Copyright") line)
  && negb (py_in (u "Trainingseinheit") line)
  && negb (py_in (u "Seite") line)
  && negb (py_in (u "handball-uebungen") line)
  && negb (startswith line (u "http"))
  && negb (all_digits line).

(** [max(candidates, key=len)]: the first of the longest. *)
Definition longest (candidates : list pystr) : option pystr :=
  fold_left (fun best x =>
               match best with
               | None => Some x
               | Some b => if len b <? len x then Some x else Some b
               end) candidates None.

Definition extract_title (sid : option Z) (first_page_text : pystr) : pystr :=
  let lines := title_lines first_page_text in
  match title_by_marker lines with
  | Some title => title
  | None =>
      match title_after_number sid 15 lines with
      | Some candidate => candidate
      | None =>
          match longest (filter fallback_candidate (firstn 20 lines)) with
          | Some line => line
          | None => u "Trainingseinheit " ++ fmt_id sid
          end
      end
  end.

(** ** Documents, files and effects *)

(** What the PDF library answers for one page: its text, its embedded images
    (each with the extension its extraction yields) and whether it renders;
    [None] and [false] stand for a call that raises. *)
Record Page := {
  get_text : option pystr;
  get_images : option (list (option pystr));
  get_pixmap : bool
}.

Definition Document := list Page.

(** A path is the list of its components. *)
Definition Path := list pystr.
Definition path_name (p : Path) : pystr := last p [].
Definition path_parent (p : Path) : Path := removelast p.

(** A file on disk: where it is and what [fitz.open] finds there ([None]: the
    call raises). *)
Record PdfFile := { pf_path : Path; pf_doc : option Document }.

Inductive event : Type :=
| EvOpen (pdf : Path)        (* [fitz.open] returned a handle *)
| EvClose (pdf : Path)       (* [doc.close()] *)
| EvMkdir (dir : Path)
| EvWrite (file : Path).     (* an image file written *)

Definition trace := list event.

(** Computations: the trace so far goes in; the extended trace comes out
    with a value or an exception.  Console output is not recorded. *)
Definition M (A : Type) : Type := trace -> trace * result A.

Definition ret {A : Type} (a : A) : M A := fun t => (t, Ok a).

Definition bind {A B : Type} (x : M A) (f : A -> M B) : M B :=
  fun t => match x t with
           | (t', Ok a) => f a t'
           | (t', Raise e) => (t', Raise e)
           end.

Definition lift {A : Type} (r : result A) : M A := fun t => (t, r).

Definition emit (e : event) : M unit := fun t => (t ++ [e], Ok tt).

(** [try: body except Exception: handler] *)
Definition try_except {A : Type} (body : M A) (handler : exn -> M A) : M A :=
  fun t => match body t with
           | (t', Ok a) => (t', Ok a)
           | (t', Raise e) => handler e t'
           end.

Declare Scope M_scope.
Delimit Scope M_scope with M.
Notation "x <- e ;; k" := (bind e (fun x => k))
  (at level 61, e at next level, right associativity) : M_scope.

(** [doc[i]], with the negative indices of the PDF library *)
Definition doc_getitem (d : Document) (i : Z) : result Page :=
  let n := Z.of_nat (List.length d) in
  let j := if i <? 0 then i + n else i in
  if (0 <=? j) && (j <? n)
  then match nth_error d (Z.to_nat j) with
       | Some p => Ok p
       | None => Raise IndexError
       end
  else Raise IndexError.

Definition or_raise {A : Type} (e : exn) (x : option A) : result A :=
  match x with
  | Some a => Ok a
  | None => Raise e
  end.

(** ** The extractor object *)

Record HandballPDFExtractor := {
  pdf_path : Path;
  doc : Document;
  filename : pystr;
  extract_images : bool;
  session_id : option Z;
  image_dir : Path
}.

Local Open Scope M_scope.

Definition __init__ (file : PdfFile) (extract_images : bool)
           (image_output_dir : option Path) : M HandballPDFExtractor :=
  doc <- lift (or_raise RuntimeError (pf_doc file)) ;;
  _ <- emit (EvOpen (pf_path file)) ;;
  let filename := path_name (pf_path file) in
  session_id <- lift (session_id_of filename) ;;
  image_dir <-
    match image_output_dir with
    | Some dir => ret dir
    | None =>
        nnn <- lift (fmt_id_03d session_id) ;;
        ret (path_parent (path_parent (pf_path file))
               ++ [u "drill_images"; u "TE_" ++ nnn])
    end ;;
  _ <- (if extract_images then emit (EvMkdir image_dir) else ret tt) ;;
  ret {| pdf_path := pf_path file; doc := doc; filename := filename;
         extract_images := extract_images; session_id := session_id;
         image_dir := image_dir |}.

(** [f"{self.session_id}-{page_num}_img{img_index}.{image_ext}"] *)
Definition image_filename (sid : option Z) (page_num img_index : Z)
           (image_ext : pystr) : pystr :=
  fmt_id sid ++ u "-" ++ str_of_int page_num ++ u "_img"
         ++ str_of_int img_index ++ u "." ++ image_ext.

(** The loop over [enumerate(image_list, start=1)]; every round is its own
    [try], so a failing image leaves [images] as it was. *)
Fixpoint extract_page_images (self : HandballPDFExtractor) (page_num : Z)
         (img_index : Z) (image_list : list (option pystr))
         (images : list ImageRef) : M (list ImageRef) :=
  match image_list with
  | [] => ret images
  | img_info :: rest =>
      images <-
        try_except
          (image_ext <- lift (or_raise RuntimeError img_info) ;;
           let image_filename :=
             image_filename (session_id self) page_num img_index image_ext in
           _ <- (if extract_images self
                 then emit (EvWrite (image_dir self ++ [image_filename]))
                 else ret tt) ;;
           nnn <- lift (fmt_id_03d (session_id self)) ;;
           let relative_path :=
             u "drill_images/TE_" ++ nnn ++ u "/" ++ image_filename in
           ret (images ++ [ {| img_path := relative_path;
                               img_page := page_num;
                               img_order := img_index;
                               img_type := None |} ]))
          (fun _ => ret images) ;;
      extract_page_images self page_num (img_index + 1) rest images
  end.

Definition extract_images_from_page (self : HandballPDFExtractor)
           (page_num : Z) : M (list ImageRef) :=
  page <- lift (doc_getitem (doc self) (page_num - 1)) ;;
  try_except
    (image_list <- lift (or_raise RuntimeError (get_images page)) ;;
     extract_page_images self page_num 1 image_list [])
    (fun _ => ret []).

Fixpoint texts_of (pages : list Page) : result (list pystr) :=
  match pages with
  | [] => Ok []
  | page :: rest =>
      (text <- or_raise RuntimeError (get_text page) ;;
       texts <- texts_of rest ;;
       Ok (text :: texts))%result
  end.

Definition extract_text_by_page (self : HandballPDFExtractor)
  : M (list pystr) :=
  lift (texts_of (doc self)).

(** [f"{...}-{drill_num}"] takes the group as it is, [None] included. *)
Definition fmt_group (g : option pystr) : pystr :=
  match g with
  | Some s => s
  | None => u "None"
  end.

(** The body of the loop over the matches of one page: the new running
    total and the drill. *)
Definition drill_of_match (self : HandballPDFExtractor) (page_num : Z)
           (cumulative_min : Z) (mt : Match) : result (Z * Drill) :=
  (let drill_num := group mt 1 in
   raw_title <- group_or AttributeError mt 2 ;;
   let drill_title := strip raw_title in
   duration <- match group mt 3 with
               | Some (c :: d) => py_int (c :: d)
               | _ => Ok 10
               end ;;
   let cumulative_min := cumulative_min + duration in
   Ok (cumulative_min,
       {| drill_id := fmt_id (session_id self) ++ u "-" ++ fmt_group drill_num;
          title := drill_title;
          duration_min := duration;
          cumulative_min := cumulative_min;
          phase := _classify_phase drill_title;
          source_page_start := page_num;
          text := empty_text;
          text_bullets := empty_bullets;
          tags := default_tags false;
          images := [] |}))%result.

Fixpoint drills_of_matches (self : HandballPDFExtractor) (page_num : Z)
         (cumulative_min : Z) (matches : list Match)
  : result (Z * list Drill) :=
  match matches with
  | [] => Ok (cumulative_min, [])
  | mt :: rest =>
      (cd <- drill_of_match self page_num cumulative_min mt ;;
       cds <- drills_of_matches self page_num (fst cd) rest ;;
       Ok (fst cds, snd cd :: snd cds))%result
  end.

(** The loop over [enumerate(pages, start=1)]. *)
Fixpoint drills_of_pages (self : HandballPDFExtractor) (page_num : Z)
         (cumulative_min : Z) (pages : list pystr)
  : result (Z * list Drill) :=
  match pages with
  | [] => Ok (cumulative_min, [])
  | page_text :: rest =>
      (here <- drills_of_matches self page_num cumulative_min
                                 (finditer I drill_pattern page_text) ;;
       later <- drills_of_pages self (page_num + 1) (fst here) rest ;;
       Ok (fst later, snd here ++ snd later))%result
  end.

(** The drills found by header matching, before the fallback. *)
Definition header_drills (self : HandballPDFExtractor) (pages : list pystr)
  : result (list Drill) :=
  (r <- drills_of_pages self 1 0 pages ;; Ok (snd r))%result.

Fixpoint images_of_pages (self : HandballPDFExtractor) (page_nums : list Z)
  : M (list ImageRef) :=
  match page_nums with
  | [] => ret []
  | page_num :: rest =>
      page_images <- extract_images_from_page self page_num ;;
      more <- images_of_pages self rest ;;
      ret (page_images ++ more)
  end.

(** [range(1, n + 1)] *)
Definition range1 (n : nat) : list Z := map Z.of_nat (seq 1 n).

Definition images_on (page : Z) (all_images : list ImageRef) : list ImageRef :=
  filter (fun img => img_page img =? page) all_images.

Definition extract_drills (self : HandballPDFExtractor) (pages : list pystr)
  : M (list Drill) :=
  found <- lift (header_drills self pages) ;;
  let drills :=
    match found with
    | [] => _create_default_drills (session_id self)
    | _ => found
    end in
  if extract_images self then
    all_images <- images_of_pages self (range1 (List.length pages)) ;;
    ret (map (fun drill =>
                set_images drill (images_on (source_page_start drill) all_images))
             drills)
  else ret drills.

Definition extract_session (self : HandballPDFExtractor) : M Session :=
  pages <- extract_text_by_page self ;;
  let first_page := match pages with p :: _ => p | [] => [] end in
  let all_text := join [10%N] pages in
  let title := extract_title (session_id self) first_page in
  duration <- lift (extract_duration all_text) ;;
  equipment <- lift (extract_equipment all_text) ;;
  drills <- extract_drills self pages ;;
  ret {| source_file := filename self;
         id := session_id self;
         s_title := title;
         duration_total_min := duration;
         equipment := equipment;
         drills := drills;
         extraction_method := u "pymupdf_text_regex_v2";
         s_tags := {| s_formation := u "unbekannt";
                      focus_area := u "unbekannt";
                      s_concept_tags := [];
                      equipment_tags := _extract_equipment_tags equipment |} |}.

Definition close (self : HandballPDFExtractor) : M unit :=
  emit (EvClose (pdf_path self)).

(** ** Full-page renders ([pdf_to_images.py]) *)

(** [f"TE_{session_id:03d}_page_{page_number}.png"] *)
Definition page_image_filename (session_id page_number : Z) : pystr :=
  u "TE_" ++ format_03d session_id ++ u "_page_" ++ str_of_int page_number
    ++ u ".png".

(** The loop over the pages; [page_number] is [page_num + 1].  The
    resolution only scales the picture and is left out. *)
Fixpoint render_pages (output_path : Path) (session_id : Z) (page_number : Z)
         (pages : list Page) (images : list ImageRef) : M (list ImageRef) :=
  match pages with
  | [] => ret images
  | page :: rest =>
      let image_filename := page_image_filename session_id page_number in
      _ <- lift (if get_pixmap page then Ok tt else Raise RuntimeError) ;;
      _ <- emit (EvWrite (output_path ++ [image_filename])) ;;
      let relative_path :=
        u "drill_images/TE_" ++ format_03d session_id ++ u "/"
          ++ image_filename in
      render_pages output_path session_id (page_number + 1) rest
                   (images ++ [ {| img_path := relative_path;
                                   img_page := page_number;
                                   img_order := 1;
                                   img_type := Some (u "full_page") |} ])
  end.

Definition extract_all_pages_from_pdf (file : PdfFile) (output_dir : Path)
           (session_id : Z) : M (list ImageRef) :=
  doc <- lift (or_raise RuntimeError (pf_doc file)) ;;
  _ <- emit (EvOpen (pf_path file)) ;;
  _ <- emit (EvMkdir output_dir) ;;
  images <- render_pages output_dir session_id 1 doc [] ;;
  _ <- emit (EvClose (pf_path file)) ;;
  ret images.

(** ** The library merger ([update_library]) *)

(** [session_id in existing_ids] *)
Definition id_in (sid : Z) (existing_ids : list (option Z)) : bool :=
  existsb (fun x => match x with
                    | Some n => n =? sid
                    | None => false
                    end) existing_ids.

(** The loop over the PDF files, collecting [new_sessions]. *)
Fixpoint collect_new_sessions (existing_ids : list (option Z))
         (extract_images : bool) (pdf_files : list PdfFile)
         (new_sessions : list Session) : M (list Session) :=
  match pdf_files with
  | [] => ret new_sessions
  | pdf_file :: rest =>
      found <- lift (session_id_of (path_name (pf_path pdf_file))) ;;
      match found with
      | None => collect_new_sessions existing_ids extract_images rest new_sessions
      | Some session_id =>
          if id_in session_id existing_ids
          then collect_new_sessions existing_ids extract_images rest new_sessions
          else
            new_sessions <-
              try_except
                (extractor <- __init__ pdf_file extract_images None ;;
                 session <- extract_session extractor ;;
                 _ <- close extractor ;;
                 ret (new_sessions ++ [session]))
                (fun _ => ret new_sessions) ;;
            collect_new_sessions existing_ids extract_images rest new_sessions
      end
  end.

(** [sessions.sort(key=lambda x: x['id'])].  The sort is stable.  Comparing
    [None] with anything raises, and with two or more sessions every key is
    compared at least once. *)
Definition id_key (s : Session) : Z :=
  match id s with
  | Some n => n
  | None => 0
  end.

Fixpoint insert_by_id (x : Session) (l : list Session) : list Session :=
  match l with
  | [] => [x]
  | y :: rest =>
      if id_key x <? id_key y then x :: l else y :: insert_by_id x rest
  end.

Definition stable_sort_by_id (l : list Session) : list Session :=
  fold_left (fun sorted x => insert_by_id x sorted) l [].

Definition has_none_id (l : list Session) : bool :=
  existsb (fun s => match id s with
                    | Some _ => false
                    | None => true
                    end) l.

Definition sort_sessions (l : list Session) : result (list Session) :=
  if Nat.ltb 1 (List.length l) && has_none_id l then Raise TypeError
  else Ok (stable_sort_by_id l).

(** [update_library]: the library as loaded from [library_path], the sorted
    list of the PDF files of [pdf_dir]; the value is the session list that is
    written to [output_path]. *)
Definition update_library (library : list Session) (pdf_files : list PdfFile)
           (extract_images : bool) : M (list Session) :=
  let existing_ids := map id library in
  new_sessions <- collect_new_sessions existing_ids extract_images pdf_files [] ;;
  lift (sort_sessions (library ++ new_sessions)).

(** [extract_single_pdf] *)
Definition extract_single_pdf (file : PdfFile) (extract_images : bool)
  : M Session :=
  extractor <- __init__ file extract_images None ;;
  session <- extract_session extractor ;;
  _ <- close extractor ;;
  ret session.

Local Close Scope M_scope.

(** ** Vocabulary of the properties *)

(** What a match of a pattern is, without the order of the search: from
    position [i] with text [s] and groups [c] the pattern can reach position
    [i'] with text [s'] and groups [c']. *)
Inductive matches (fl : flags)
  : regex -> nat -> pystr -> caps -> nat -> pystr -> caps -> Prop :=
| M_Eps i s c : matches fl Eps i s c i s c
| M_Lit a x i s c :
    lit_ok fl a x = true -> matches fl (Lit a) i (x :: s) c (S i) s c
| M_Set p x i s c :
    p x = true -> matches fl (Set_ p) i (x :: s) c (S i) s c
| M_Dot x i s c :
    dot_ok fl x = true -> matches fl Dot i (x :: s) c (S i) s c
| M_Seq r1 r2 i s c i1 s1 c1 i2 s2 c2 :
    matches fl r1 i s c i1 s1 c1 -> matches fl r2 i1 s1 c1 i2 s2 c2 ->
    matches fl (Seq r1 r2) i s c i2 s2 c2
| M_AltL r1 r2 i s c i' s' c' :
    matches fl r1 i s c i' s' c' -> matches fl (Alt r1 r2) i s c i' s' c'
| M_AltR r1 r2 i s c i' s' c' :
    matches fl r2 i s c i' s' c' -> matches fl (Alt r1 r2) i s c i' s' c'
| M_Stop g r i s c : matches fl (Star g r) i s c i s c
| M_More g r i s c i1 s1 c1 i2 s2 c2 :
    matches fl r i s c i1 s1 c1 -> (i < i1)%nat ->
    matches fl (Star g r) i1 s1 c1 i2 s2 c2 ->
    matches fl (Star g r) i s c i2 s2 c2
| M_Group n r i s c i' s' c' :
    matches fl r i s c i' s' c' ->
    matches fl (Group n r) i s c i' s' ((n, firstn (i' - i) s) :: c').

(** Group [n] has taken part in every match of the pattern. *)
Fixpoint sets_group (n : nat) (r : regex) : bool :=
  match r with
  | Seq a b => sets_group n a || sets_group n b
  | Alt a b => sets_group n a && sets_group n b
  | Group m r' => Nat.eqb m n || sets_group n r'
  | _ => false
  end.

(** Group [n] occurs in the pattern. *)
Fixpoint mentions (n : nat) (r : regex) : bool :=
  match r with
  | Seq a b | Alt a b => mentions n a || mentions n b
  | Star _ r' => mentions n r'
  | Group m r' => Nat.eqb m n || mentions n r'
  | _ => false
  end.

(** Every match of the pattern takes at least one character. *)
Fixpoint consumes (r : regex) : bool :=
  match r with
  | Lit _ | Set_ _ | Dot => true
  | Seq a b => consumes a || consumes b
  | Alt a b => consumes a && consumes b
  | Group _ r' => consumes r'
  | _ => false
  end.

(** Every match of the pattern leaves a non-empty text in group [n]. *)
Fixpoint sets_nonempty (n : nat) (r : regex) : bool :=
  match r with
  | Seq a b => sets_nonempty n a && negb (mentions n b) || sets_nonempty n b
  | Alt a b => sets_nonempty n a && sets_nonempty n b
  | Group m r' =>
      if Nat.eqb m n then consumes r' else sets_nonempty n r'
  | _ => false
  end.

(** [w] occurs in [s]. *)
Definition contains (w s : pystr) : Prop :=
  exists pre post, s = pre ++ w ++ post.

Definition sum (l : list Z) : Z := fold_right Z.add 0 l.

(** The handles that are open at the end of a trace, oldest first. *)
Definition path_eqb (a b : Path) : bool :=
  if list_eq_dec (list_eq_dec N.eq_dec) a b then true else false.

Fixpoint open_handles_from (opened : list Path) (t : trace) : list Path :=
  match t with
  | [] => opened
  | EvOpen p :: rest => open_handles_from (opened ++ [p]) rest
  | EvClose p :: rest =>
      open_handles_from (filter (fun q => negb (path_eqb p q)) opened) rest
  | _ :: rest => open_handles_from opened rest
  end.

Definition open_handles (t : trace) : list Path := open_handles_from [] t.

(** Every document is opened while no other handle is open. *)
Fixpoint scoped_from (opened : list Path) (t : trace) : bool :=
  match t with
  | [] => true
  | EvOpen p :: rest =>
      match opened with
      | [] => scoped_from [p] rest
      | _ :: _ => false
      end
  | EvClose p :: rest =>
      scoped_from (filter (fun q => negb (path_eqb p q)) opened) rest
  | _ :: rest => scoped_from opened rest
  end.

Definition handles_scoped (t : trace) : bool := scoped_from [] t.

(** The files written in a trace, in order. *)
Definition files_written (t : trace) : list Path :=
  flat_map (fun e => match e with
                     | EvWrite f => [f]
                     | _ => []
                     end) t.

(** All header matches of a document, page by page. *)
Definition all_matches (pages : list pystr) : list Match :=
  flat_map (finditer I drill_pattern) pages.

(** Sorted ascending by identifier, every identifier a number. *)
Definition ids_of (l : list Session) : list (option Z) := map id l.

Definition all_numbered (l : list Session) : Prop :=
  Forall (fun s => id s <> None) l.

Definition sorted_by_id (l : list Session) : Prop :=
  all_numbered l /\ Sorted Z.le (map id_key l).

(** The running totals of a list of durations, starting after [acc]. *)
Fixpoint running (acc : Z) (durations : list Z) : list Z :=
  match durations with
  | [] => []
  | d :: rest => (acc + d) :: running (acc + d) rest
  end.

(** The header matches of a document, each with its 1-based page number. *)
Fixpoint page_matches (page_num : Z) (pages : list pystr) : list (Z * Match) :=
  match pages with
  | [] => []
  | page_text :: rest =>
      map (pair page_num) (finditer I drill_pattern page_text)
          ++ page_matches (page_num + 1) rest
  end.

(** Drill [d] is what the segmenter builds for the header match [pm] of the
    session [sid]: number, title and duration are the three groups. *)
Definition drill_from (sid : option Z) (pm : Z * Match) (d : Drill) : Prop :=
  exists num ttl dur,
    group (snd pm) 1 = Some num /\ group (snd pm) 2 = Some ttl
    /\ group (snd pm) 3 = Some dur /\ dur <> []
    /\ drill_id d = fmt_id sid ++ u "-" ++ num
    /\ title d = strip ttl
    /\ py_int dur = Ok (duration_min d)
    /\ phase d = _classify_phase (strip ttl)
    /\ source_page_start d = fst pm
    /\ images d = [].

(** A header whose duration has more digits than [int] converts. *)
Definition long_duration (m : Match) : Prop :=
  exists v, group m 3 = Some v /\ int_max_str_digits < len v.

Definition without_images (d : Drill) : Drill := set_images d [].

(** The keyword groups in the order in which [_classify_phase] tests them. *)
Definition keyword_groups : list (list pystr) :=
  [ Keywords.warm_up; Keywords.koordination; Keywords.ballhandling;
    Keywords.torhueter; Keywords.wurfserie; Keywords.angriff;
    Keywords.abwehr; Keywords.spiel ].

(** The names under which the embedded images of one page are written, as
    the naming rule states them: session, page, 1-based index and
    extension; an image whose extraction fails keeps its index and writes
    nothing. *)
Fixpoint embedded_filenames (sid : option Z) (page_num : Z) (img_index : Z)
         (image_list : list (option pystr)) : list pystr :=
  match image_list with
  | [] => []
  | Some ext :: rest =>
      (fmt_id sid ++ u "-" ++ str_of_int page_num ++ u "_img"
              ++ str_of_int img_index ++ u "." ++ ext)
        :: embedded_filenames sid page_num (img_index + 1) rest
  | None :: rest => embedded_filenames sid page_num (img_index + 1) rest
  end.

(** [s] starts with the word [p] in any of the spellings that
    [re.IGNORECASE] takes for it. *)
Fixpoint startswith_ci (s p : pystr) : bool :=
  match p, s with
  | [], _ => true
  | _ :: _, [] => false
  | a :: p', b :: s' =>
      (ignorecase_char a =? ignorecase_char b)%N && startswith_ci s' p'
  end.

(** A drill header can only start where one of its three keywords stands. *)
Definition header_keyword_at (s : pystr) : bool :=
  existsb (startswith_ci s) [u "Übung"; u "Drill"; u "Teil"].

(** No header keyword starts at any of the first [n] positions of [s]. *)
Definition no_header_keyword (n : nat) (s : pystr) : Prop :=
  forall k, (k < n)%nat -> header_keyword_at (skipn k s) = false.

(** Group [n] holds a non-empty text. *)
Definition nonempty_group (n : nat) (c : caps) : Prop :=
  exists x v, cap_get n c = Some (x :: v).

(** The header of the end-to-end scenario. *)
Definition scenario_header : pystr := u "Übung 1: Aufwärmen (15 Min)".

(** An equipment section can only start where one of its headings stands. *)
Definition equipment_keyword_at (s : pystr) : bool :=
  existsb (startswith_ci s)
          [u "Material"; u "Benötigtes Material"; u "Equipment"].

Definition no_equipment_keyword (n : nat) (s : pystr) : Prop :=
  forall k, (k < n)%nat -> equipment_keyword_at (skipn k s) = false.

(** ** Sample documents *)

Module Sample.

(** A page that reads and renders, with the given text and no images. *)
Definition text_page (text : pystr) : Page :=
  {| get_text := Some text; get_images := Some []; get_pixmap := true |}.

(** A page whose text extraction raises. *)
Definition broken_page : Page :=
  {| get_text := None; get_images := Some []; get_pixmap := true |}.

(** A page with two embedded images, the second of which cannot be
    extracted, and a third. *)
Definition picture_page (text : pystr) : Page :=
  {| get_text := Some text;
     get_images := Some [Some (u "png"); None; Some (u "jpeg")];
     get_pixmap := true |}.

Definition pdf (name : string) (pages : list Page) : PdfFile :=
  {| pf_path := [u "data"; u "pdfs"; u name]; pf_doc := Some pages |}.

(** An extractor as [__init__] builds it for session 184. *)
Definition extractor (pages : list Page) (extract_images : bool)
  : HandballPDFExtractor :=
  {| pdf_path := [u "data"; u "pdfs"; u "TE_184.pdf"];
     doc := pages;
     filename := u "TE_184.pdf";
     extract_images := extract_images;
     session_id := Some 184;
     image_dir := [u "data"; u "drill_images"; u "TE_184"] |}.

Definition header_184 : pystr := u "Übung 1: Aufwärmen (15 Min)".
Definition header_without_duration : pystr := u "Übung 2: Passen".



End Sample.

(** The value a computation returned, [default] when it raised. *)
Definition value_of {A : Type} (default : A) (x : trace * result A) : A :=
  match snd x with
  | Ok a => a
  | Raise _ => default
  end.

Module Stored.
(** A session as it stands in a library file. *)
Definition session (n : Z) : Session :=
  {| source_file := u "TE_" ++ format_03d n ++ u ".pdf";
     id := Some n;
     s_title := u "Trainingseinheit " ++ str_of_int n;
     duration_total_min := 90;
     equipment := [u "Bälle"; u "Hütchen"];
     drills := _create_default_drills (Some n);
     extraction_method := u "pymupdf_text_regex_v2";
     s_tags := {| s_formation := u "unbekannt";
                  focus_area := u "unbekannt";
                  s_concept_tags := [];
                  equipment_tags := [u "Hütchen"; u "Ballkiste"] |} |}.
End Stored.

(** ** Vocabulary of the further properties *)

(** Text within Latin-1, where the character tables above (the class [\d],
    the case folding) are those of Python. *)
Definition latin1 (s : pystr) : bool := forallb (fun c => (c <? 256)%N) s.

(** No decimal digit occurs in [s]. *)
Definition no_digit (s : pystr) : bool :=
  forallb (fun c => negb (is_digit c)) s.

(** A run of digits ends where [rest] begins. *)
Definition ends_number (rest : pystr) : bool :=
  match rest with
  | [] => true
  | y :: _ => negb (is_digit y)
  end.

(** [img] is the record of an embedded image of page [page_num]: its order
    is its position in the image list of the page, counted from [idx], and
    its path names the file of that image under the folder of the
    session. *)
Definition embedded_record (self : HandballPDFExtractor) (page_num idx : Z)
           (image_list : list (option pystr)) (img : ImageRef) : Prop :=
  img_page img = page_num /\ img_type img = None
  /\ idx <= img_order img < idx + Z.of_nat (List.length image_list)
  /\ exists sid ext,
       session_id self = Some sid
       /\ nth_error image_list (Z.to_nat (img_order img - idx)) = Some (Some ext)
       /\ img_path img
          = u "drill_images/TE_" ++ format_03d sid ++ u "/"
              ++ image_filename (Some sid) page_num (img_order img) ext.

(** Session [s] was extracted from one of the files, whose number is not
    among [existing]. *)
Definition added_from (existing : list (option Z)) (pdf_files : list PdfFile)
           (s : Session) : Prop :=
  exists file n,
    In file pdf_files
    /\ session_id_of (path_name (pf_path file)) = Ok (Some n)
    /\ id_in n existing = false
    /\ id s = Some n.


(** The events that touch the image folder. *)
Definition file_event (e : event) : bool :=
  match e with
  | EvMkdir _ | EvWrite _ => true
  | _ => false
  end.

(** ** JSON documents *)

#[local] Set Warnings "-register-all".

(** What [json.load] returns for a file without fractions.  A dict is the
    list of its items in insertion order, with distinct keys. *)
Inductive json : Type :=
| JNull
| JBool (b : bool)
| JInt (n : Z)
| JStr (s : pystr)
| JList (items : list json)
| JDict (items : list (pystr * json)).

(** The exceptions of the tools that work on JSON: the [KeyError] of a
    subscript with a missing key, next to the exceptions above. *)
Inductive failure : Type :=
| KeyError (key : pystr)
| Builtin (e : exn).

Inductive outcome (A : Type) : Type :=
| Returns (a : A)
| Raises (e : failure).
Arguments Returns {A} a.
Arguments Raises {A} e.

Definition obind {A B : Type} (x : outcome A) (f : A -> outcome B) : outcome B :=
  match x with
  | Returns a => f a
  | Raises e => Raises e
  end.

Declare Scope outcome_scope.
Delimit Scope outcome_scope with outcome.
Notation "x <- e ;; k" := (obind e (fun x => k))
  (at level 61, e at next level, right associativity) : outcome_scope.

Fixpoint dict_get (key : pystr) (items : list (pystr * json)) : option json :=
  match items with
  | [] => None
  | (k, v) :: rest => if PyStr.eqb k key then Some v else dict_get key rest
  end.

(** An assignment to a key: a key that is there keeps its place. *)
Fixpoint dict_set (key : pystr) (v : json) (items : list (pystr * json))
  : list (pystr * json) :=
  match items with
  | [] => [(key, v)]
  | (k, x) :: rest =>
      if PyStr.eqb k key then (k, v) :: rest else (k, x) :: dict_set key v rest
  end.

(** [d[key]] for a string [key] *)
Definition getitem (d : json) (key : pystr) : outcome json :=
  match d with
  | JDict items =>
      match dict_get key items with
      | Some v => Returns v
      | None => Raises (KeyError key)
      end
  | _ => Raises (Builtin TypeError)
  end.

(** [d.get(key, default)] *)
Definition get (d : json) (key : pystr) (default : json) : outcome json :=
  match d with
  | JDict items =>
      Returns match dict_get key items with
              | Some v => v
              | None => default
              end
  | _ => Raises (Builtin AttributeError)
  end.

(** [d[key] = v] for a string [key] *)
Definition setitem (d : json) (key : pystr) (v : json) : outcome json :=
  match d with
  | JDict items => Returns (JDict (dict_set key v items))
  | _ => Raises (Builtin TypeError)
  end.

(** What a [for] loop over [v] goes through: the items of a list, the keys
    of a dict, the characters of a string. *)
Definition iterate (v : json) : outcome (list json) :=
  match v with
  | JList items => Returns items
  | JDict items => Returns (map (fun kv => JStr (fst kv)) items)
  | JStr s => Returns (map (fun c => JStr [c]) s)
  | _ => Raises (Builtin TypeError)
  end.

(** The body of a loop that appends one result a round. *)
Fixpoint for_each {A B : Type} (f : A -> outcome B) (l : list A)
  : outcome (list B) :=
  match l with
  | [] => Returns []
  | x :: rest =>
      (y <- f x ;; ys <- for_each f rest ;; Returns (y :: ys))%outcome
  end.

(** [entry == v] for a string [entry] *)
Definition str_eq (entry : pystr) (v : json) : bool :=
  match v with
  | JStr s => PyStr.eqb s entry
  | _ => false
  end.

(** [n == v] for an integer [n]; [True] and [False] count as 1 and 0. *)
Definition int_eq (n : Z) (v : json) : bool :=
  match v with
  | JInt m => n =? m
  | JBool b => n =? (if b then 1 else 0)
  | _ => false
  end.

(** [entry in v] for a string [entry] *)
Definition str_in (entry : pystr) (v : json) : outcome bool :=
  match v with
  | JList items => Returns (existsb (str_eq entry) items)
  | JDict items => Returns (existsb (fun kv => PyStr.eqb (fst kv) entry) items)
  | JStr s => Returns (py_in entry s)
  | _ => Raises (Builtin TypeError)
  end.

(** [v.insert(0, x)] *)
Definition insert_first (v x : json) : outcome json :=
  match v with
  | JList items => Returns (JList (x :: items))
  | _ => Raises (Builtin AttributeError)
  end.

(** The value under [key] when [v] is a dict that has the key. *)
Definition member (key : pystr) (v : json) : option json :=
  match v with
  | JDict items => dict_get key items
  | _ => None
  end.

(** What a call returned, [default] when it raised. *)
Definition returned {A : Type} (default : A) (x : outcome A) : A :=
  match x with
  | Returns a => a
  | Raises _ => default
  end.

(** ** The manifest ([update_manifest.py]) *)

Local Open Scope outcome_scope.

(** [f"{library_version}: Optimiert für mobile Geräte mit Remote Images"] *)
Definition changelog_entry (library_version : pystr) : pystr :=
  library_version ++ u ": Optimiert für mobile Geräte mit Remote Images".

(** [update_manifest]: [loaded] is what the manifest file holds, [None]
    when there is no such file; [now] is the time stamp
    [datetime.now().isoformat()].  The value is the manifest that is
    written back. *)
Definition update_manifest (loaded : option json) (now : pystr)
           (library_version library_url : pystr) (stats : json)
  : outcome json :=
  let manifest :=
    match loaded with
    | Some manifest => manifest
    | None => JDict [ (u "library_id", JStr (u "handball-training-library"));
                      (u "min_app_version", JStr (u "1.0.0")) ]
    end in
  manifest <- setitem manifest (u "version") (JStr library_version) ;;
  manifest <- setitem manifest (u "created_at") (JStr now) ;;
  manifest <- setitem manifest (u "package")
                      (JDict [ (u "url", JStr library_url);
                               (u "type", JStr (u "json")) ]) ;;
  manifest <- setitem manifest (u "stats") stats ;;
  known <- str_in (u "changelog") manifest ;;
  manifest <- (if negb known then setitem manifest (u "changelog") (JList [])
               else Returns manifest) ;;
  let changelog_entry := changelog_entry library_version in
  changelog <- getitem manifest (u "changelog") ;;
  present <- str_in changelog_entry changelog ;;
  if present then Returns manifest
  else
    changelog <- insert_first changelog (JStr changelog_entry) ;;
    setitem manifest (u "changelog") changelog.

(** ** The library for the app ([create_hblib_optimized.py],
       [create_library_json_only.py]) *)

(** The four text fields that are kept. *)
Definition kept_text (text : json) : outcome json :=
  setup <- get text (u "setup") (JStr []) ;;
  execution <- get text (u "execution") (JStr []) ;;
  coaching_points <- get text (u "coaching_points") (JStr []) ;;
  variations <- get text (u "variations") (JStr []) ;;
  Returns (JDict [ (u "setup", setup);
                   (u "execution", execution);
                   (u "coaching_points", coaching_points);
                   (u "variations", variations) ]).

(** The dict [optimized_drill] of [optimize_library_json]. *)
Definition optimized_drill (drill : json) : outcome json :=
  text <- get drill (u "text") (JDict []) ;;
  drill_id <- getitem drill (u "drill_id") ;;
  title <- getitem drill (u "title") ;;
  duration_min <- getitem drill (u "duration_min") ;;
  phase <- getitem drill (u "phase") ;;
  text <- kept_text text ;;
  tags <- get drill (u "tags") (JDict []) ;;
  images <- get drill (u "images") (JList []) ;;
  Returns (JDict [ (u "drill_id", drill_id);
                   (u "title", title);
                   (u "duration_min", duration_min);
                   (u "phase", phase);
                   (u "text", text);
                   (u "tags", tags);
                   (u "images", images) ]).

(** The dict [optimized_session], filled by the loop over the drills. *)
Definition optimized_session (drill_of : json -> outcome json) (session : json)
  : outcome json :=
  id <- getitem session (u "id") ;;
  title <- getitem session (u "title") ;;
  duration_total_min <- getitem session (u "duration_total_min") ;;
  tags <- get session (u "tags") (JDict []) ;;
  drills <- get session (u "drills") (JList []) ;;
  drills <- iterate drills ;;
  drills <- for_each drill_of drills ;;
  Returns (JDict [ (u "id", id);
                   (u "title", title);
                   (u "duration_total_min", duration_total_min);
                   (u "tags", tags);
                   (u "drills", JList drills) ]).

Definition optimize_library_json (library_data : json) : outcome json :=
  library_version <- get library_data (u "library_version")
                         (JStr (u "v4_optimized")) ;;
  sessions <- get library_data (u "sessions") (JList []) ;;
  sessions <- iterate sessions ;;
  sessions <- for_each (optimized_session optimized_drill) sessions ;;
  Returns (JDict [ (u "library_version", library_version);
                   (u "source", JStr (u "optimized_for_mobile"));
                   (u "sessions", JList sessions) ]).

Section RemoteImages.

(** [str(v)] for a list or a dict [v], the text Python prints for it. *)
Variable py_repr : json -> pystr.

(** [f"{v}"] *)
Definition py_str (v : json) : pystr :=
  match v with
  | JStr s => s
  | JInt n => str_of_int n
  | JNull => u "None"
  | JBool true => u "True"
  | JBool false => u "False"
  | _ => py_repr v
  end.

(** The entry that takes the place of an image record. *)
Definition remote_image (base_image_url : pystr) (img : json) : outcome json :=
  local_path <- getitem img (u "path") ;;
  let remote_url := base_image_url ++ py_str local_path in
  page <- get img (u "page") JNull ;;
  order <- get img (u "order") JNull ;;
  type <- get img (u "type") (JStr (u "full_page")) ;;
  Returns (JDict [ (u "url", JStr remote_url);
                   (u "page", page);
                   (u "order", order);
                   (u "type", type) ]).

(** The dict [optimized_drill] of [create_library_json_for_app], filled by
    the loop over the images. *)
Definition remote_drill (base_image_url : pystr) (drill : json) : outcome json :=
  text <- get drill (u "text") (JDict []) ;;
  drill_id <- getitem drill (u "drill_id") ;;
  title <- getitem drill (u "title") ;;
  duration_min <- getitem drill (u "duration_min") ;;
  phase <- getitem drill (u "phase") ;;
  text <- kept_text text ;;
  tags <- get drill (u "tags") (JDict []) ;;
  images <- get drill (u "images") (JList []) ;;
  images <- iterate images ;;
  images <- for_each (remote_image base_image_url) images ;;
  Returns (JDict [ (u "drill_id", drill_id);
                   (u "title", title);
                   (u "duration_min", duration_min);
                   (u "phase", phase);
                   (u "text", text);
                   (u "tags", tags);
                   (u "images", JList images) ]).

(** [create_library_json_for_app]: the value is the dict that is written to
    [output_json_path]; [now] is the time stamp. *)
Definition create_library_json_for_app (library_data : json) (now : pystr)
           (base_image_url : pystr) : outcome json :=
  sessions <- get library_data (u "sessions") (JList []) ;;
  sessions <- iterate sessions ;;
  sessions <- for_each (optimized_session (remote_drill base_image_url))
                       sessions ;;
  Returns (JDict [ (u "library_version", JStr (u "v15"));
                   (u "source",
                    JStr (u "optimized_for_mobile_with_remote_images"));
                   (u "created_at", JStr now);
                   (u "image_base_url", JStr base_image_url);
                   (u "sessions", JList sessions) ]).

End RemoteImages.

Local Close Scope outcome_scope.

(** What a loop over [v.get(key, [])] goes through; nothing where the call
    or the loop raises. *)
Definition items_under (key : pystr) (v : json) : list json :=
  match get v key (JList []) with
  | Returns x => returned [] (iterate x)
  | Raises _ => []
  end.

(** [v.get(key)] on a dict, [None] without the key. *)
Definition member_or_null (key : pystr) (v : json) : json :=
  match member key v with
  | Some x => x
  | None => JNull
  end.

(** The text of a drill under [key], empty where the drill has no text or
    the text no such key. *)
Definition text_field (key : pystr) (drill : json) : json :=
  match member (u "text") drill with
  | Some text =>
      match member key text with
      | Some v => v
      | None => JStr []
      end
  | None => JStr []
  end.

(** [v.get('tags', {})] *)
Definition tags_field (v : json) : json :=
  match member (u "tags") v with
  | Some tags => tags
  | None => JDict []
  end.

(** The keys of a dict, in insertion order. *)
Definition keys_of (v : json) : list pystr :=
  match v with
  | JDict items => map fst items
  | _ => []
  end.

(** What an optimized drill [drill'] keeps of the drill [drill]: seven keys,
    and nothing else. *)
Definition drill_kept (drill drill' : json) : Prop :=
  member (u "drill_id") drill' = member (u "drill_id") drill
  /\ member (u "title") drill' = member (u "title") drill
  /\ member (u "duration_min") drill' = member (u "duration_min") drill
  /\ member (u "phase") drill' = member (u "phase") drill
  /\ member (u "text") drill'
     = Some (JDict [ (u "setup", text_field (u "setup") drill);
                     (u "execution", text_field (u "execution") drill);
                     (u "coaching_points",
                      text_field (u "coaching_points") drill);
                     (u "variations", text_field (u "variations") drill) ])
  /\ member (u "tags") drill' = Some (tags_field drill)
  /\ keys_of drill'
     = [ u "drill_id"; u "title"; u "duration_min"; u "phase"; u "text";
         u "tags"; u "images" ]
  /\ member (u "cumulative_min") drill' = None
  /\ member (u "source_page_start") drill' = None
  /\ member (u "text_bullets") drill' = None.

(** What an optimized session [session'] keeps of the session [session],
    its drills apart: five keys, and nothing else. *)
Definition session_kept (session session' : json) : Prop :=
  member (u "id") session' = member (u "id") session
  /\ member (u "title") session' = member (u "title") session
  /\ member (u "duration_total_min") session'
     = member (u "duration_total_min") session
  /\ member (u "tags") session' = Some (tags_field session)
  /\ keys_of session'
     = [ u "id"; u "title"; u "duration_total_min"; u "tags"; u "drills" ]
  /\ member (u "source_file") session' = None
  /\ member (u "equipment") session' = None
  /\ member (u "extraction") session' = None.

(** The entry [img'] that stands for the image record [img] in the library
    with remote images: the address is the base address followed by the
    path, page and order are carried over ([None] where missing), and an
    image without a type counts as a full page. *)
Definition remote_entry (py_repr : json -> pystr) (base_image_url : pystr)
           (img img' : json) : Prop :=
  exists path,
    member (u "path") img = Some path
    /\ img' = JDict [ (u "url", JStr (base_image_url ++ py_str py_repr path));
                      (u "page", member_or_null (u "page") img);
                      (u "order", member_or_null (u "order") img);
                      (u "type", match member (u "type") img with
                                 | Some type => type
                                 | None => JStr (u "full_page")
                                 end) ].

(** ** The records as JSON *)

(** The dicts that the extractor builds, as they stand in a library file. *)
Definition json_of_image (img : ImageRef) : json :=
  JDict ([ (u "path", JStr (img_path img));
           (u "page", JInt (img_page img));
           (u "order", JInt (img_order img)) ]
           ++ match img_type img with
              | Some type => [(u "type", JStr type)]
              | None => []
              end).

Definition json_of_drill (d : Drill) : json :=
  JDict [ (u "drill_id", JStr (drill_id d));
          (u "title", JStr (title d));
          (u "duration_min", JInt (duration_min d));
          (u "cumulative_min", JInt (cumulative_min d));
          (u "phase", JStr (phase_name (phase d)));
          (u "source_page_start", JInt (source_page_start d));
          (u "text",
           JDict [ (u "preface", JStr (preface (text d)));
                   (u "setup", JStr (setup (text d)));
                   (u "execution", JStr (execution (text d)));
                   (u "coaching_points", JStr (coaching_points (text d)));
                   (u "variations", JStr (variations (text d)));
                   (u "goal", JStr (goal (text d)));
                   (u "raw_rest", JStr (raw_rest (text d))) ]);
          (u "text_bullets",
           JDict [ (u "setup", JList (map JStr (b_setup (text_bullets d))));
                   (u "execution",
                    JList (map JStr (b_execution (text_bullets d))));
                   (u "coaching_points",
                    JList (map JStr (b_coaching_points (text_bullets d))));
                   (u "variations",
                    JList (map JStr (b_variations (text_bullets d))));
                   (u "goal", JList (map JStr (b_goal (text_bullets d)))) ]);
          (u "tags",
           JDict [ (u "formation", JStr (formation (tags d)));
                   (u "concept_tags",
                    JList (map JStr (concept_tags (tags d))));
                   (u "drill_level", JStr (drill_level (tags d)));
                   (u "requires_goalkeeper",
                    JBool (requires_goalkeeper (tags d))) ]);
          (u "images", JList (map json_of_image (images d))) ].

Definition json_of_id (sid : option Z) : json :=
  match sid with
  | Some n => JInt n
  | None => JNull
  end.

Definition json_of_session (s : Session) : json :=
  JDict [ (u "source_file", JStr (source_file s));
          (u "id", json_of_id (id s));
          (u "title", JStr (s_title s));
          (u "duration_total_min", JInt (duration_total_min s));
          (u "equipment", JList (map JStr (equipment s)));
          (u "drills", JList (map json_of_drill (drills s)));
          (u "extraction",
           JDict [ (u "method", JStr (extraction_method s));
                   (u "notes",
                    JStr (u "Metadata and drill headers extracted; drill descriptions are referenced via source_page_start to avoid verbatim reproduction.")) ]);
          (u "tags",
           JDict [ (u "formation", JStr (s_formation (s_tags s)));
                   (u "focus_area", JStr (focus_area (s_tags s)));
                   (u "concept_tags",
                    JList (map JStr (s_concept_tags (s_tags s))));
                   (u "equipment_tags",
                    JList (map JStr (equipment_tags (s_tags s)))) ]) ].

(** A library file with its sessions. *)
Definition library_of (sessions : list Session) : json :=
  JDict [(u "sessions", JList (map json_of_session sessions))].

(** ** Page renders for a library ([pdf_to_images.py]) *)

(** Computations that touch files and work on JSON. *)
Definition MJ (A : Type) : Type := trace -> trace * outcome A.

Definition jret {A : Type} (a : A) : MJ A := fun t => (t, Returns a).

Definition jbind {A B : Type} (x : MJ A) (f : A -> MJ B) : MJ B :=
  fun t => match x t with
           | (t', Returns a) => f a t'
           | (t', Raises e) => (t', Raises e)
           end.

Definition of_outcome {A : Type} (x : outcome A) : MJ A := fun t => (t, x).

Definition of_M {A : Type} (x : M A) : MJ A :=
  fun t => match x t with
           | (t', Ok a) => (t', Returns a)
           | (t', Raise e) => (t', Raises (Builtin e))
           end.

Declare Scope MJ_scope.
Delimit Scope MJ_scope with MJ.
Notation "x <- e ;; k" := (jbind e (fun x => k))
  (at level 61, e at next level, right associativity) : MJ_scope.

(** [next((s for s in sessions if s['id'] == session_id), None)]: the first
    session with the number, and where it stands; the sessions after it are
    not looked at. *)
Fixpoint find_session (session_id : Z) (i : nat) (sessions : list json)
  : outcome (option (nat * json)) :=
  match sessions with
  | [] => Returns None
  | s :: rest =>
      (sid <- getitem s (u "id") ;;
       if int_eq session_id sid then Returns (Some (i, s))
       else find_session session_id (S i) rest)%outcome
  end.

(** The body of the loop over the drills:
    [drill['images'] = [img for img in images if img['page'] == drill_page]] *)
Definition assign_page_images (images : list ImageRef) (drill : json)
  : outcome json :=
  (drill_page <- get drill (u "source_page_start") (JInt 2) ;;
   setitem drill (u "images")
           (JList (map json_of_image
                       (filter (fun img => int_eq (img_page img) drill_page)
                               images))))%outcome.

Fixpoint replace_nth {A : Type} (i : nat) (x : A) (l : list A) : list A :=
  match i, l with
  | _, [] => []
  | O, _ :: rest => x :: rest
  | S i', y :: rest => y :: replace_nth i' x rest
  end.

(** The drills of a session are changed in place; the library that holds
    the session at position [i] is built again around them. *)
Definition put_drills (library : json) (i : nat) (session : json)
           (drills : list json) : json :=
  let session :=
    match session with
    | JDict items => JDict (dict_set (u "drills") (JList drills) items)
    | _ => session
    end in
  match library with
  | JDict items =>
      match dict_get (u "sessions") items with
      | Some (JList sessions) =>
          JDict (dict_set (u "sessions")
                          (JList (replace_nth i session sessions)) items)
      | _ => library
      end
  | _ => library
  end.

(** The loop [for drill in session['drills']]. *)
Definition with_page_images (library : json) (i : nat) (session : json)
           (images : list ImageRef) : outcome json :=
  (drills <- getitem session (u "drills") ;;
   each <- iterate drills ;;
   each <- for_each (assign_page_images images) each ;;
   Returns match drills with
           | JList _ => put_drills library i session each
           | _ => library
           end)%outcome.

Local Open Scope MJ_scope.

(** [update_library_with_page_images]: the library as loaded and the sorted
    PDF files of the folder; the value is the library that is written to
    [output_path]. *)
Fixpoint update_library_with_page_images (library : json)
         (pdf_files : list PdfFile) : MJ json :=
  match pdf_files with
  | [] => jret library
  | pdf_file :: rest =>
      found <- of_M (lift (session_id_of (path_name (pf_path pdf_file)))) ;;
      match found with
      | None => update_library_with_page_images library rest
      | Some session_id =>
          hit <- of_outcome
                   (sessions <- getitem library (u "sessions") ;;
                    sessions <- iterate sessions ;;
                    find_session session_id 0 sessions)%outcome ;;
          match hit with
          | None => update_library_with_page_images library rest
          | Some (i, session) =>
              let output_dir :=
                [u "drill_images"; u "TE_" ++ format_03d session_id] in
              images <- of_M (extract_all_pages_from_pdf pdf_file output_dir
                                                         session_id) ;;
              library <- of_outcome (with_page_images library i session images) ;;
              update_library_with_page_images library rest
          end
      end
  end.

Local Close Scope MJ_scope.
Local Open Scope M_scope.

(** [extract_single_session] *)
Definition extract_single_session (file : PdfFile) (session_id : option Z)
  : M (list ImageRef) :=
  session_id <-
    match session_id with
    | Some n => ret n
    | None =>
        found <- lift (session_id_of (path_name (pf_path file))) ;;
        ret match found with
            | Some n => n
            | None => 999
            end
    end ;;
  let output_dir := [u "drill_images"; u "TE_" ++ format_03d session_id] in
  extract_all_pages_from_pdf file output_dir session_id.

Local Close Scope M_scope.

(** The items of a drill after the renders [images] went in: under "images"
    stand the renders of the page that the drill names, and of page 2 when
    it names none. *)
Definition page_renders (images : list ImageRef) (drill : list (pystr * json))
  : list (pystr * json) :=
  let drill_page := match dict_get (u "source_page_start") drill with
                    | Some page => page
                    | None => JInt 2
                    end in
  dict_set (u "images")
           (JList (map json_of_image
                       (filter (fun img => int_eq (img_page img) drill_page)
                               images)))
           drill.

(** The sessions after the renders [images] of the document with the number
    [n] went in: the drills of the first session with that number carry the
    renders of their pages. *)
Fixpoint renders_into (n : Z) (images : list ImageRef) (sessions : list Session)
  : list Session :=
  match sessions with
  | [] => []
  | s :: rest =>
      if id_in n [id s]
      then {| source_file := source_file s;
              id := id s;
              s_title := s_title s;
              duration_total_min := duration_total_min s;
              equipment := equipment s;
              drills := map (fun d => set_images d
                                        (images_on (source_page_start d) images))
                            (drills s);
              extraction_method := extraction_method s;
              s_tags := s_tags s |}
             :: rest
      else s :: renders_into n images rest
  end.

(** ** Packages ([create_hblib.py], [create_hblib_optimized.py]) *)

(** [s.replace(old, new)] for a non-empty [old]: the occurrences are taken
    from the left and do not overlap; [skip] counts the characters of an
    occurrence that are still to be passed over. *)
Fixpoint replace_from (old new : pystr) (skip : nat) (s : pystr) : pystr :=
  match s with
  | [] => []
  | c :: t =>
      match skip with
      | S k => replace_from old new k t
      | O =>
          if startswith s old
          then new ++ replace_from old new (List.length old - 1) t
          else c :: replace_from old new 0 t
      end
  end.

Definition py_replace (old new s : pystr) : pystr := replace_from old new 0 s.

(** [v.replace(old, new)] *)
Definition str_replace (v : json) (old new : pystr) : outcome pystr :=
  match v with
  | JStr s => Returns (py_replace old new s)
  | _ => Raises (Builtin AttributeError)
  end.

(** [bool(v)] *)
Definition truthy (v : json) : bool :=
  match v with
  | JNull => false
  | JBool b => b
  | JInt n => negb (n =? 0)
  | JStr s => negb (PyStr.eqb s [])
  | JList items => match items with [] => false | _ => true end
  | JDict items => match items with [] => false | _ => true end
  end.

(** The keys of the dict [manifest['drills']] are the drill ids as they
    are, compared as Python compares keys: [True] and [False] are the
    numbers 1 and 0. *)
Definition key_eq (a b : json) : bool :=
  match a, b with
  | JStr x, JStr y => PyStr.eqb x y
  | JNull, JNull => true
  | JInt x, JInt y => x =? y
  | JInt x, JBool y => x =? (if y then 1 else 0)
  | JBool x, JInt y => (if x then 1 else 0) =? y
  | JBool x, JBool y => Bool.eqb x y
  | _, _ => false
  end.

(** [entries[key] = v]; a list or a dict cannot be a key. *)
Fixpoint entries_set (key v : json) (entries : list (json * json))
  : list (json * json) :=
  match entries with
  | [] => [(key, v)]
  | (k, x) :: rest =>
      if key_eq k key then (k, v) :: rest
      else (k, x) :: entries_set key v rest
  end.

Definition manifest_set (key v : json) (entries : list (json * json))
  : outcome (list (json * json)) :=
  match key with
  | JList _ | JDict _ => Raises (Builtin TypeError)
  | _ => Returns (entries_set key v entries)
  end.

(** The set of the pairs of a source path and a path in the archive, in
    the order in which they came in. *)
Definition pair_eqb (p q : pystr * pystr) : bool :=
  PyStr.eqb (fst p) (fst q) && PyStr.eqb (snd p) (snd q).

Definition set_add (p : pystr * pystr) (set : list (pystr * pystr))
  : list (pystr * pystr) :=
  if existsb (pair_eqb p) set then set else set ++ [p].

(** [a <= b] for strings, code point by code point. *)
Fixpoint str_leb (a b : pystr) : bool :=
  match a, b with
  | [], _ => true
  | _ :: _, [] => false
  | x :: a', y :: b' =>
      if (x <? y)%N then true
      else if (y <? x)%N then false
      else str_leb a' b'
  end.

(** [p <= q] for tuples of two strings *)
Definition pair_leb (p q : pystr * pystr) : bool :=
  if PyStr.eqb (fst p) (fst q) then str_leb (snd p) (snd q)
  else str_leb (fst p) (fst q).

(** [sorted(list(image_files_set))] *)
Fixpoint insert_pair (p : pystr * pystr) (l : list (pystr * pystr))
  : list (pystr * pystr) :=
  match l with
  | [] => [p]
  | q :: rest => if pair_leb p q then p :: l else q :: insert_pair p rest
  end.

Definition sorted_pairs (set : list (pystr * pystr)) : list (pystr * pystr) :=
  fold_right insert_pair [] set.

(** What is collected on the way through the library. *)
Record Collected := {
  manifest_drills : list (json * json);      (* [manifest['drills']] *)
  image_files_set : list (pystr * pystr)
}.

Section Packaging.

(** [os.path.exists] *)
Variable path_exists : pystr -> bool.

Local Open Scope outcome_scope.

(** The loop over the images of one drill: the paths for the manifest and
    the set of files. *)
Fixpoint collect_images (images : list json) (paths : list json)
         (set : list (pystr * pystr))
  : outcome (list json * list (pystr * pystr)) :=
  match images with
  | [] => Returns (paths, set)
  | img :: rest =>
      original_path <- getitem img (u "path") ;;
      new_path <- str_replace original_path (u "drill_images/")
                              (u "drill_images_v2/") ;;
      let paths := paths ++ [JStr new_path] in
      let set :=
        match original_path with
        | JStr original_path =>
            if path_exists original_path
            then set_add (original_path, new_path) set
            else set
        | _ => set
        end in
      collect_images rest paths set
  end.

(** The body of the loop over the drills of a session. *)
Definition collect_drill (session_id : json) (drill : json) (c : Collected)
  : outcome Collected :=
  drill_id <- getitem drill (u "drill_id") ;;
  listed <- str_in (u "images") drill ;;
  images <- (if listed then getitem drill (u "images") else Returns JNull) ;;
  if listed && truthy images then
    entries <- manifest_set drill_id
                 (JDict [(u "session_id", session_id); (u "images", JList [])])
                 (manifest_drills c) ;;
    each <- iterate images ;;
    found <- collect_images each [] (image_files_set c) ;;
    Returns {| manifest_drills :=
                 entries_set drill_id
                   (JDict [ (u "session_id", session_id);
                            (u "images", JList (fst found)) ])
                   entries;
               image_files_set := snd found |}
  else Returns c.

Fixpoint collect_drills (session_id : json) (drills : list json) (c : Collected)
  : outcome Collected :=
  match drills with
  | [] => Returns c
  | drill :: rest =>
      c <- collect_drill session_id drill c ;;
      collect_drills session_id rest c
  end.

Fixpoint collect_sessions (sessions : list json) (c : Collected)
  : outcome Collected :=
  match sessions with
  | [] => Returns c
  | session :: rest =>
      session_id <- getitem session (u "id") ;;
      drills <- get session (u "drills") (JList []) ;;
      drills <- iterate drills ;;
      c <- collect_drills session_id drills c ;;
      collect_sessions rest c
  end.

(** What goes into the archive: [library.json], the manifest with its
    time stamp and its drills, and the image files, each with its source
    and its name under [images/]. *)
Record Package := {
  library_json : json;
  manifest_created_at : pystr;
  manifest_of_drills : list (json * json);
  image_files : list (pystr * pystr)
}.

(** The names of the members of the archive, in the order in which they
    are written. *)
Definition archive_names (p : Package) : list pystr :=
  [u "library.json"; u "images/drill_images_manifest_v2.json"]
    ++ map (fun file => u "images/" ++ snd file) (image_files p).

(** The manifest and the files for the library that goes into the archive. *)
Definition package (library_json library_data : json) (now : pystr)
  : outcome Package :=
  sessions <- get library_data (u "sessions") (JList []) ;;
  sessions <- iterate sessions ;;
  c <- collect_sessions sessions
                        {| manifest_drills := []; image_files_set := [] |} ;;
  Returns {| library_json := library_json;
             manifest_created_at := now;
             manifest_of_drills := manifest_drills c;
             image_files := sorted_pairs (image_files_set c) |}.

Definition create_hblib (library_data : json) (now : pystr) : outcome Package :=
  package library_data library_data now.

Definition create_hblib_optimized (library_data : json) (now : pystr)
  : outcome Package :=
  optimized_data <- optimize_library_json library_data ;;
  package optimized_data optimized_data now.

End Packaging.

(** A pair of the set of files: a file that is there, with the name it gets
    in the archive. *)
Definition packed (path_exists : pystr -> bool) (p : pystr * pystr) : Prop :=
  path_exists (fst p) = true
  /\ snd p = py_replace (u "drill_images/") (u "drill_images_v2/") (fst p).

(** No key of the manifest comes a second time. *)
Fixpoint distinct_keys (entries : list (json * json)) : Prop :=
  match entries with
  | [] => True
  | (k, _) :: rest =>
      Forall (fun e => key_eq k (fst e) = false) rest /\ distinct_keys rest
  end.

(** [entries[key]], [None] without the key. *)
Fixpoint entries_get (key : json) (entries : list (json * json)) : option json :=
  match entries with
  | [] => None
  | (k, v) :: rest => if key_eq k key then Some v else entries_get key rest
  end.

(** The drills of a library that have images, each with its session, in the
    order of the library. *)
Definition drills_with_images (sessions : list Session)
  : list (Session * Drill) :=
  flat_map (fun s =>
              map (pair s)
                  (filter (fun d => match images d with
                                    | [] => false
                                    | _ => true
                                    end) (drills s)))
           sessions.

(** The name of an image in the archive, after [images/]. *)
Definition archive_path (img : ImageRef) : pystr :=
  py_replace (u "drill_images/") (u "drill_images_v2/") (img_path img).

(** What the manifest holds for a drill with images. *)
Definition manifest_entry (sd : Session * Drill) : json :=
  JDict [ (u "session_id", json_of_id (id (fst sd)));
          (u "images",
           JList (map (fun img => JStr (archive_path img)) (images (snd sd)))) ].

(** * Properties *)

(** *** The matcher and the meaning of a pattern *)

Section RegexFacts.
Variable fl : flags.

Ltac found :=
  do 3 eexists; split; [ | eassumption ];
  first [ solve [econstructor; eassumption]
        | solve [eapply M_AltR; eassumption]
        | solve [eapply M_More; eassumption] ].

Lemma star_loop_sound (R : Type) (r : regex) (g : bool) (k : cont R)
      (body : nat -> pystr -> caps -> cont R -> option R) :
  (forall i s c k' x,
      body i s c k' = Some x ->
      exists i' s' c', matches fl r i s c i' s' c' /\ k' i' s' c' = Some x) ->
  forall n i s c x,
    star_loop R body g k n i s c = Some x ->
    exists i' s' c', matches fl (Star g r) i s c i' s' c' /\ k i' s' c' = Some x.
Proof.
  intros Hbody n. induction n as [ | n IHn]; intros i s c x H; simpl in H.
  - found.
  - assert (More : forall y,
               body i s c
                    (fun i' s' c' =>
                       if Nat.ltb i i' then star_loop R body g k n i' s' c'
                       else None) = Some y ->
               exists i' s' c', matches fl (Star g r) i s c i' s' c'
                                /\ k i' s' c' = Some y).
    { intros y Hy. apply Hbody in Hy. destruct Hy as (i1 & s1 & c1 & M1 & Hy).
      destruct (Nat.ltb i i1) eqn:L; [ | discriminate].
      apply Nat.ltb_lt in L. apply IHn in Hy.
      destruct Hy as (i2 & s2 & c2 & M2 & Hy). found. }
    destruct g.
    + destruct (body i s c _) eqn:E.
      * inversion H; subst. eauto.
      * found.
    + destruct (k i s c) eqn:E.
      * inversion H; subst. found.
      * eauto.
Qed.

Lemma run_sound (R : Type) (r : regex) :
  forall i s c (k : cont R) x,
    run fl R r i s c k = Some x ->
    exists i' s' c', matches fl r i s c i' s' c' /\ k i' s' c' = Some x.
Proof.
  induction r as [ | a | p | | r1 IH1 r2 IH2 | r1 IH1 r2 IH2 | g r IH | n r IH ];
    intros i s c k x H;
    try exact (star_loop_sound R r g k (run fl R r) IH _ _ _ _ _ H);
    simpl in H.
  - found.
  - destruct s as [ | y s]; [discriminate | ].
    destruct (lit_ok fl a y) eqn:E; [ | discriminate]. found.
  - destruct s as [ | y s]; [discriminate | ].
    destruct (p y) eqn:E; [ | discriminate]. found.
  - destruct s as [ | y s]; [discriminate | ].
    destruct (dot_ok fl y) eqn:E; [ | discriminate]. found.
  - apply IH1 in H. destruct H as (i1 & s1 & c1 & M1 & H).
    apply IH2 in H. destruct H as (i2 & s2 & c2 & M2 & H). found.
  - destruct (run fl R r1 i s c k) eqn:E.
    + inversion H; subst. apply IH1 in E.
      destruct E as (i' & s' & c' & M1 & E). found.
    + apply IH2 in H. destruct H as (i' & s' & c' & M1 & E'). found.
  - apply IH in H. destruct H as (i' & s' & c' & M1 & H).
    do 3 eexists; split; [ eapply M_Group; eassumption | exact H ].
Qed.

(** A match takes a prefix of the text and moves the position by its
    length. *)
Lemma matches_span r i s c i' s' c' :
  matches fl r i s c i' s' c' ->
  exists w, s = w ++ s' /\ i' = (i + List.length w)%nat.
Proof.
  induction 1;
    try (exists []; split; [reflexivity | simpl; lia]);
    try (exists [x]; split; [reflexivity | simpl; lia]);
    try assumption.
  - destruct IHmatches1 as (w1 & -> & ->).
    destruct IHmatches2 as (w2 & -> & ->).
    exists (w1 ++ w2). rewrite app_assoc, length_app. split; [reflexivity | lia].
  - destruct IHmatches1 as (w1 & -> & ->).
    destruct IHmatches2 as (w2 & -> & ->).
    exists (w1 ++ w2). rewrite app_assoc, length_app. split; [reflexivity | lia].
Qed.

Lemma matches_keeps_group n r i s c i' s' c' :
  matches fl r i s c i' s' c' ->
  cap_get n c <> None -> cap_get n c' <> None.
Proof.
  induction 1; auto.
  intros Hc. simpl. destruct (Nat.eqb n0 n); [discriminate | auto].
Qed.

Lemma matches_sets_group n r i s c i' s' c' :
  matches fl r i s c i' s' c' ->
  sets_group n r = true -> cap_get n c' <> None.
Proof.
  induction 1; simpl; intros Hn; try discriminate.
  - apply orb_true_iff in Hn. destruct Hn as [Hn | Hn].
    + eapply matches_keeps_group; eauto.
    + auto.
  - apply andb_true_iff in Hn. tauto.
  - apply andb_true_iff in Hn. tauto.
  - destruct (Nat.eqb n0 n) eqn:E; [discriminate | ]. simpl in Hn. auto.
Qed.

Lemma matches_other_groups n r i s c i' s' c' :
  matches fl r i s c i' s' c' ->
  mentions n r = false -> cap_get n c' = cap_get n c.
Proof.
  induction 1; simpl; intros Hn; try reflexivity; auto.
  - apply orb_false_iff in Hn. destruct Hn as [Ha Hb].
    rewrite IHmatches2, IHmatches1; auto.
  - apply orb_false_iff in Hn. tauto.
  - apply orb_false_iff in Hn. tauto.
  - rewrite IHmatches2, IHmatches1; auto.
  - apply orb_false_iff in Hn. destruct Hn as [Ha Hb]. rewrite Ha. auto.
Qed.

Lemma matches_consumes r i s c i' s' c' :
  matches fl r i s c i' s' c' -> consumes r = true -> (i < i')%nat.
Proof.
  induction 1; simpl; intros Hn; try discriminate; try lia; auto.
  - apply matches_span in H, H0.
    destruct H as (w1 & _ & ->). destruct H0 as (w2 & _ & ->).
    apply orb_true_iff in Hn. destruct Hn as [Hn | Hn].
    + specialize (IHmatches1 Hn). lia.
    + specialize (IHmatches2 Hn). lia.
  - apply andb_true_iff in Hn. tauto.
  - apply andb_true_iff in Hn. tauto.
Qed.

Lemma matches_sets_nonempty n r i s c i' s' c' :
  matches fl r i s c i' s' c' ->
  sets_nonempty n r = true -> nonempty_group n c'.
Proof.
  induction 1; simpl; intros Hn; try discriminate.
  - apply orb_true_iff in Hn. destruct Hn as [Hn | Hn].
    + apply andb_true_iff in Hn. destruct Hn as [Ha Hb].
      apply negb_true_iff in Hb.
      destruct (IHmatches1 Ha) as (x & v & E). exists x, v.
      erewrite matches_other_groups; eauto.
    + auto.
  - apply andb_true_iff in Hn. tauto.
  - apply andb_true_iff in Hn. tauto.
  - unfold nonempty_group. simpl. destruct (Nat.eqb n0 n) eqn:E.
    + pose proof (matches_consumes _ _ _ _ _ _ _ H Hn) as L.
      apply matches_span in H. destruct H as (w & -> & ->).
      replace (i + List.length w - i)%nat with (List.length w + 0)%nat by lia.
      rewrite firstn_app_2. simpl. rewrite app_nil_r.
      destruct w as [ | x v]; [simpl in L; lia | eauto].
    + apply IHmatches; auto.
Qed.

(** What a group holds was read from the text: it is never longer. *)
Lemma matches_groups_within (L : nat) r i s c i' s' c' :
  matches fl r i s c i' s' c' ->
  (List.length s <= L)%nat ->
  Forall (fun kv : nat * pystr => (List.length (snd kv) <= L)%nat) c ->
  (List.length s' <= L)%nat
  /\ Forall (fun kv : nat * pystr => (List.length (snd kv) <= L)%nat) c'.
Proof.
  induction 1; intros Hs Hc; cbn [List.length] in *;
    try (split; [lia | assumption]); auto.
  - destruct (IHmatches1 Hs Hc) as [Hs1 Hc1]. auto.
  - destruct (IHmatches1 Hs Hc) as [Hs1 Hc1]. auto.
  - destruct (IHmatches Hs Hc) as [Hs' Hc']. split; [exact Hs' | ].
    constructor; [ | exact Hc']. cbn [snd]. rewrite length_firstn. lia.
Qed.
End RegexFacts.

(** *** What the search functions return *)

Lemma match_here_sound fl r i s m :
  match_here fl r i s = Some m ->
  m_start m = i
  /\ exists e s', matches fl r 0 s [] e s' (m_caps m) /\ m_end m = (i + e)%nat.
Proof.
  unfold match_here. intros H. apply run_sound in H.
  destruct H as (i' & s' & c' & M & H). inversion H; subst; simpl. eauto.
Qed.

Lemma match_here_group fl r i s m n :
  match_here fl r i s = Some m -> sets_group n r = true ->
  exists v, group m n = Some v.
Proof.
  intros H Hn. apply match_here_sound in H. destruct H as (_ & e & s' & M & _).
  pose proof (matches_sets_group _ _ _ _ _ _ _ _ _ M Hn) as G.
  unfold group. destruct (cap_get n (m_caps m)); [eauto | congruence].
Qed.

Lemma match_here_nonempty_group fl r i s m n :
  match_here fl r i s = Some m -> sets_nonempty n r = true ->
  exists x v, group m n = Some (x :: v).
Proof.
  intros H Hn. apply match_here_sound in H. destruct H as (_ & e & s' & M & _).
  exact (matches_sets_nonempty _ _ _ _ _ _ _ _ _ M Hn).
Qed.

(** Whatever [search] and [finditer] return was matched somewhere. *)
Lemma search_from_sound fl r : forall s i m,
  search_from fl r i s = Some m -> exists j t, match_here fl r j t = Some m.
Proof.
  induction s as [ | x s IH]; intros i m H; simpl in H.
  - destruct (match_here fl r i []) eqn:E; [ | discriminate].
    inversion H; subst. eauto.
  - destruct (match_here fl r i (x :: s)) eqn:E.
    + inversion H; subst. eauto.
    + eauto.
Qed.

Lemma finditer_from_sound fl r : forall fuel i s m,
  In m (finditer_from fuel fl r i s) -> exists j t, match_here fl r j t = Some m.
Proof.
  induction fuel as [ | fuel IH]; intros i s m H; simpl in H; [contradiction | ].
  destruct (match_here fl r i s) as [m0 | ] eqn:E.
  - destruct (Nat.ltb i (m_end m0)).
    + destruct H as [<- | H]; eauto.
    + destruct H as [<- | H]; [eauto | ].
      destruct s; [contradiction | eauto].
  - destruct s; [contradiction | eauto].
Qed.

Lemma finditer_sound fl r text m :
  In m (finditer fl r text) -> exists j t, match_here fl r j t = Some m.
Proof. apply finditer_from_sound. Qed.

(** A group of a match is no longer than the text that was searched. *)
Lemma match_here_group_within fl r i s m n v :
  match_here fl r i s = Some m -> group m n = Some v ->
  (List.length v <= List.length s)%nat.
Proof.
  intros H G. apply match_here_sound in H. destruct H as (_ & e & s' & M & _).
  destruct (matches_groups_within fl (List.length s) _ _ _ _ _ _ _ M
              (Nat.le_refl _) (Forall_nil _)) as [_ F].
  unfold group in G. revert G F. generalize (m_caps m). intros c.
  induction c as [ | [k w] c IH]; cbn [cap_get]; [discriminate | ].
  intros G F. inversion F as [ | ? ? Hw Hc]; subst.
  destruct (Nat.eqb k n); [inversion G; subst; exact Hw | auto].
Qed.

Lemma search_from_within fl r n v : forall s i m,
  search_from fl r i s = Some m -> group m n = Some v ->
  (List.length v <= List.length s)%nat.
Proof.
  induction s as [ | x s IH]; intros i m H G; simpl in H.
  - destruct (match_here fl r i []) eqn:E; [ | discriminate].
    inversion H; subst. eapply match_here_group_within; eauto.
  - destruct (match_here fl r i (x :: s)) eqn:E.
    + inversion H; subst. eapply match_here_group_within; eauto.
    + specialize (IH _ _ H G). cbn [List.length]. lia.
Qed.

Lemma finditer_from_within fl r n v : forall fuel i s m,
  In m (finditer_from fuel fl r i s) -> group m n = Some v ->
  (List.length v <= List.length s)%nat.
Proof.
  assert (T : forall (s : pystr) k, (List.length (skipn k s) <= List.length s)%nat).
  { intros s k. rewrite length_skipn. lia. }
  induction fuel as [ | fuel IH]; intros i s m H G; simpl in H;
    [contradiction | ].
  assert (Tail : forall j, In m match s with
                                | [] => []
                                | _ :: t => finditer_from fuel fl r j t
                                end ->
                           (List.length v <= List.length s)%nat).
  { intros j Hj. destruct s as [ | x s]; [contradiction | ].
    specialize (IH _ _ _ Hj G). cbn [List.length]. lia. }
  destruct (match_here fl r i s) as [m0 | ] eqn:E; [ | eauto].
  destruct (Nat.ltb i (m_end m0)).
  - destruct H as [<- | H]; [eapply match_here_group_within; eauto | ].
    specialize (IH _ _ _ H G). specialize (T s (m_end m0 - i)%nat). lia.
  - destruct H as [<- | H]; [eapply match_here_group_within; eauto | eauto].
Qed.

(** *** What [int] converts *)

Lemma decimal_value_nonneg s : 0 <= decimal_value s.
Proof.
  unfold decimal_value. cut (forall a, 0 <= a ->
    0 <= fold_left (fun acc c => 10 * acc + Z.of_N (c - 48)) s a).
  { intros C. apply C. lia. }
  induction s as [ | c s IH]; intros a Ha; cbn [fold_left]; [exact Ha | ].
  apply IH. pose proof (N2Z.is_nonneg (c - 48)). lia.
Qed.

Lemma py_int_within s :
  len s <= int_max_str_digits -> py_int s = Ok (decimal_value s).
Proof.
  intros H. unfold py_int. apply Z.leb_le in H. now rewrite H.
Qed.

Lemma py_int_nonneg s z : py_int s = Ok z -> 0 <= z.
Proof.
  unfold py_int. destruct (len s <=? int_max_str_digits); [ | discriminate].
  intros H. inversion H. apply decimal_value_nonneg.
Qed.

Lemma py_int_raises s e :
  py_int s = Raise e -> e = ValueError /\ int_max_str_digits < len s.
Proof.
  unfold py_int. destruct (len s <=? int_max_str_digits) eqn:E;
    [discriminate | ].
  intros H. inversion H. apply Z.leb_gt in E. now split.
Qed.

(** *** How the methods with a conversion end *)

(** The number of a file name is read unless its digits are more than
    [int] converts, which takes a name longer than the limit. *)
Lemma session_id_of_cases filename :
  (exists sid, session_id_of filename = Ok sid)
  \/ (session_id_of filename = Raise ValueError
      /\ int_max_str_digits < len filename).
Proof.
  unfold session_id_of. destruct (search plain session_number filename) eqn:E;
    [ | eauto].
  pose proof E as E'. apply search_from_sound in E'. destruct E' as (j & t & E').
  destruct (match_here_group _ _ _ _ _ 1%nat E' eq_refl) as (v & G).
  pose proof (search_from_within _ _ _ _ _ _ _ E G) as W.
  unfold group_or. rewrite G. cbn [rbind].
  destruct (py_int v) as [n | e] eqn:P; cbn [rbind]; [eauto | ].
  apply py_int_raises in P. destruct P as [-> P]. right. split; [reflexivity | ].
  unfold len in *. lia.
Qed.

Lemma session_id_of_returns filename :
  len filename <= int_max_str_digits ->
  exists sid, session_id_of filename = Ok sid.
Proof.
  intros H. destruct (session_id_of_cases filename) as [R | [_ R]];
    [exact R | lia].
Qed.

Lemma first_duration_cases text : forall patterns,
  Forall (fun p => sets_group 1 p = true) patterns ->
  (exists z, first_duration patterns text = Ok z /\ 0 <= z)
  \/ (first_duration patterns text = Raise ValueError
      /\ int_max_str_digits < len text).
Proof.
  induction 1 as [ | p ps Hp _ IH]; simpl; [left; eexists; split; [reflexivity | lia] | ].
  destruct (search I p text) eqn:E; [ | exact IH].
  pose proof E as E'. apply search_from_sound in E'. destruct E' as (j & t & E').
  destruct (match_here_group _ _ _ _ _ 1%nat E' Hp) as (v & G).
  pose proof (search_from_within _ _ _ _ _ _ _ E G) as W.
  unfold group_or. rewrite G. cbn [rbind].
  destruct (py_int v) as [n | e] eqn:P.
  - left. exists n. split; [reflexivity | exact (py_int_nonneg _ _ P)].
  - apply py_int_raises in P. destruct P as [-> P]. right.
    split; [reflexivity | ]. unfold len in *. lia.
Qed.

Lemma extract_duration_cases text :
  (exists z, extract_duration text = Ok z /\ 0 <= z)
  \/ (extract_duration text = Raise ValueError
      /\ int_max_str_digits < len text).
Proof.
  apply first_duration_cases. repeat constructor.
Qed.

Lemma extract_duration_returns text :
  len text <= int_max_str_digits -> exists z, extract_duration text = Ok z.
Proof.
  intros H. destruct (extract_duration_cases text) as [(z & R & _) | [_ R]];
    [eauto | lia].
Qed.

(** *** The methods that cannot fail *)

Lemma first_material_returns text : forall patterns,
  Forall (fun p => sets_group 1 p = true) patterns ->
  exists l, first_material patterns text = Ok l.
Proof.
  induction 1 as [ | p ps Hp _ IH]; simpl; [eauto | ].
  destruct (search IS p text) eqn:E; [ | exact IH].
  apply search_from_sound in E. destruct E as (j & t & E).
  destruct (match_here_group _ _ _ _ _ 1%nat E Hp) as (v & G).
  unfold group_or. rewrite G. simpl. eauto.
Qed.

Lemma extract_equipment_returns text : exists l, extract_equipment text = Ok l.
Proof.
  unfold extract_equipment.
  destruct (first_material_returns text equipment_patterns) as (l & ->).
  - repeat constructor.
  - simpl. eauto.
Qed.

(** *** Header matches *)

(** A header match always carries its number, its title and a duration of
    at least one digit. *)
Lemma drill_match_groups m :
  (exists j t, match_here I drill_pattern j t = Some m) ->
  exists num ttl d ds,
    group m 1 = Some num /\ group m 2 = Some ttl /\ group m 3 = Some (d :: ds).
Proof.
  intros (j & t & H).
  destruct (match_here_group _ _ _ _ _ 1%nat H eq_refl) as (num & G1).
  destruct (match_here_group _ _ _ _ _ 2%nat H eq_refl) as (ttl & G2).
  destruct (match_here_nonempty_group _ _ _ _ _ 3%nat H eq_refl) as (d & ds & G3).
  eauto 8.
Qed.

Lemma all_matches_page_matches pages : forall n,
  map snd (page_matches n pages) = all_matches pages.
Proof.
  induction pages as [ | p ps IH]; intros n; simpl; [reflexivity | ].
  rewrite map_app, map_map, IH. simpl. rewrite map_id. reflexivity.
Qed.

Lemma page_matches_sound pages : forall n pm,
  In pm (page_matches n pages) ->
  exists j t, match_here I drill_pattern j t = Some (snd pm).
Proof.
  intros n pm H. apply (in_map snd) in H.
  rewrite all_matches_page_matches in H. unfold all_matches in H.
  apply in_flat_map in H. destruct H as (p & _ & H).
  eapply finditer_sound; eauto.
Qed.

Section Segmenter.
Variable self : HandballPDFExtractor.

Lemma drill_of_match_ok page_num cum m :
  (exists j t, match_here I drill_pattern j t = Some m) ->
  (exists d,
      drill_of_match self page_num cum m = Ok (cum + duration_min d, d)
      /\ drill_from (session_id self) (page_num, m) d
      /\ cumulative_min d = cum + duration_min d)
  \/ (drill_of_match self page_num cum m = Raise ValueError
      /\ long_duration m).
Proof.
  intros H. apply drill_match_groups in H.
  destruct H as (num & ttl & d & ds & G1 & G2 & G3).
  unfold drill_of_match, group_or. rewrite G1, G2, G3. cbn [rbind].
  destruct (py_int (d :: ds)) as [n | e] eqn:P; cbn [rbind].
  - left. eexists (Build_Drill _ _ _ _ _ _ _ _ _ _).
    split; [reflexivity | ]. split; [ | reflexivity].
    exists num, ttl, (d :: ds). simpl. repeat split; auto. discriminate.
  - apply py_int_raises in P. destruct P as [-> P]. right.
    split; [reflexivity | ]. exists (d :: ds). auto.
Qed.

Lemma drills_of_matches_ok page_num : forall ms cum,
  Forall (fun m => exists j t, match_here I drill_pattern j t = Some m) ms ->
  (exists ds,
      drills_of_matches self page_num cum ms
      = Ok (cum + sum (map duration_min ds), ds)
      /\ Forall2 (drill_from (session_id self)) (map (pair page_num) ms) ds
      /\ map cumulative_min ds = running cum (map duration_min ds))
  \/ (drills_of_matches self page_num cum ms = Raise ValueError
      /\ Exists long_duration ms).
Proof.
  induction ms as [ | m ms IH]; intros cum H.
  - left. exists []. simpl. rewrite Z.add_0_r. auto.
  - inversion H as [ | ? ? Hm Hms]; subst.
    destruct (drill_of_match_ok page_num cum m Hm)
      as [(d & E & F & C) | [E L]]; cbn [drills_of_matches]; rewrite E;
      cbn [rbind fst snd]; [ | right; split; [reflexivity | now left]].
    destruct (IH (cum + duration_min d) Hms) as [(ds & Es & Fs & Cs) | [Es L]];
      rewrite Es; cbn [rbind fst snd];
      [ | right; split; [reflexivity | now right]].
    left. exists (d :: ds). simpl.
    rewrite Z.add_assoc. repeat split; auto. rewrite C, Cs. reflexivity.
Qed.

Lemma running_app l1 : forall acc l2,
  running acc (l1 ++ l2) = running acc l1 ++ running (acc + sum l1) l2.
Proof.
  induction l1 as [ | d l1 IH]; intros acc l2; simpl.
  - rewrite Z.add_0_r. reflexivity.
  - rewrite IH, Z.add_assoc. reflexivity.
Qed.

Lemma sum_app l1 l2 : sum (l1 ++ l2) = sum l1 + sum l2.
Proof. induction l1; simpl; lia. Qed.

Lemma drills_of_pages_ok : forall pages page_num cum,
  (exists ds,
      drills_of_pages self page_num cum pages
      = Ok (cum + sum (map duration_min ds), ds)
      /\ Forall2 (drill_from (session_id self)) (page_matches page_num pages) ds
      /\ map cumulative_min ds = running cum (map duration_min ds))
  \/ (drills_of_pages self page_num cum pages = Raise ValueError
      /\ Exists long_duration (all_matches pages)).
Proof.
  induction pages as [ | p pages IH]; intros page_num cum.
  - left. exists []. simpl. rewrite Z.add_0_r. auto.
  - unfold all_matches. cbn [flat_map drills_of_pages].
    destruct (drills_of_matches_ok page_num (finditer I drill_pattern p) cum)
      as [(ds1 & E1 & F1 & C1) | [E1 L1]].
    { apply Forall_forall. intros m Hm. eapply finditer_sound; eauto. }
    2: { rewrite E1. right. split; [reflexivity | ].
         apply Exists_app. now left. }
    rewrite E1. cbn [rbind fst snd].
    destruct (IH (page_num + 1) (cum + sum (map duration_min ds1)))
      as [(ds2 & E2 & F2 & C2) | [E2 L2]]; rewrite E2; cbn [rbind fst snd].
    2: { right. split; [reflexivity | ]. apply Exists_app. now right. }
    left. exists (ds1 ++ ds2). simpl.
    rewrite !map_app, sum_app, running_app, C1, C2, Z.add_assoc.
    repeat split; auto. apply Forall2_app; assumption.
Qed.

(** Header matching builds one drill per match; it fails only when the
    duration of a header is too long a number for [int]. *)
Lemma header_drills_ok pages :
  (exists ds,
      header_drills self pages = Ok ds
      /\ Forall2 (drill_from (session_id self)) (page_matches 1 pages) ds
      /\ map cumulative_min ds = running 0 (map duration_min ds))
  \/ (header_drills self pages = Raise ValueError
      /\ Exists long_duration (all_matches pages)).
Proof.
  unfold header_drills.
  destruct (drills_of_pages_ok pages 1 0) as [(ds & E & F & C) | [E L]];
    rewrite E; cbn [rbind]; [left; exists ds | right]; auto.
Qed.

(** A header with too long a duration stands on a page that is longer than
    the limit. *)
Lemma long_duration_long_page pages :
  Exists long_duration (all_matches pages) ->
  Exists (fun page_text => int_max_str_digits < len page_text) pages.
Proof.
  unfold all_matches. induction pages as [ | p pages IH]; cbn [flat_map];
    intros H; [inversion H | ].
  apply Exists_app in H. destruct H as [H | H]; [left | right; auto].
  apply Exists_exists in H. destruct H as (m & Hm & v & G & L).
  pose proof (finditer_from_within _ _ _ _ _ _ _ _ Hm G) as W.
  unfold len in *. lia.
Qed.
End Segmenter.

Lemma drill_from_duration sid pm d : drill_from sid pm d -> 0 <= duration_min d.
Proof.
  intros (num & ttl & dur & _ & _ & _ & _ & _ & _ & P & _).
  exact (py_int_nonneg _ _ P).
Qed.

Lemma drill_from_no_images sid pm d : drill_from sid pm d -> images d = [].
Proof.
  intros (num & ttl & dur & _ & _ & _ & _ & _ & _ & _ & _ & _ & E). exact E.
Qed.

Lemma running_nth l : forall acc n v,
  nth_error (running acc l) n = Some v -> v = acc + sum (firstn (S n) l).
Proof.
  induction l as [ | d l IH]; intros acc n v H.
  - destruct n; discriminate.
  - destruct n as [ | n]; simpl in H.
    + inversion H; subst. simpl. lia.
    + apply IH in H. rewrite H.
      change (firstn (S (S n)) (d :: l)) with (d :: firstn (S n) l).
      simpl sum. lia.
Qed.

Lemma running_step l : forall acc n v w,
  Forall (fun d => 0 <= d) l ->
  nth_error (running acc l) n = Some v ->
  nth_error (running acc l) (S n) = Some w -> v <= w.
Proof.
  induction l as [ | d l IH]; intros acc n v w Hl Hv Hw.
  - destruct n; discriminate.
  - inversion Hl as [ | ? ? Hd Hl']; subst.
    destruct n as [ | n]; simpl in Hv, Hw.
    + inversion Hv; subst. destruct l as [ | e l]; [discriminate | ].
      simpl in Hw. inversion Hw; subst. inversion Hl'; subst. lia.
    + eapply IH; eauto.
Qed.

(** *** Image extraction *)

Section Images.
Variable self : HandballPDFExtractor.

Lemma extract_page_images_returns page_num : forall image_list idx images t,
  exists t' imgs,
    extract_page_images self page_num idx image_list images t = (t', Ok imgs).
Proof.
  induction image_list as [ | img rest IH]; intros idx images t; simpl.
  - unfold ret. eauto.
  - unfold bind at 1, try_except.
    destruct img as [ext | ]; simpl.
    + unfold bind at 1, lift, or_raise.
      destruct (extract_images self); unfold bind, emit, ret, lift;
        destruct (fmt_id_03d (session_id self)); apply IH.
    + unfold bind, lift, ret. simpl. apply IH.
Qed.

Lemma doc_getitem_in_range (d : Document) i :
  0 <= i < Z.of_nat (List.length d) -> exists page, doc_getitem d i = Ok page.
Proof.
  intros H. unfold doc_getitem.
  destruct (i <? 0) eqn:E; [apply Z.ltb_lt in E; lia | ].
  replace ((0 <=? i) && (i <? Z.of_nat (List.length d))) with true
    by (symmetry; apply andb_true_iff; split;
        [apply Z.leb_le | apply Z.ltb_lt]; lia).
  destruct (nth_error d (Z.to_nat i)) eqn:N; [eauto | ].
  apply nth_error_None in N. lia.
Qed.

Lemma extract_images_from_page_returns page_num t :
  1 <= page_num <= Z.of_nat (List.length (doc self)) ->
  exists t' imgs, extract_images_from_page self page_num t = (t', Ok imgs).
Proof.
  intros H. unfold extract_images_from_page.
  destruct (doc_getitem_in_range (doc self) (page_num - 1)) as (page & E);
    [lia | ].
  rewrite E. unfold bind at 1, lift, try_except.
  destruct (get_images page) as [image_list | ]; simpl.
  - unfold bind.
    destruct (extract_page_images_returns page_num image_list 1 [] t)
      as (t' & imgs & ->). eauto.
  - unfold bind, ret. eauto.
Qed.

Lemma images_of_pages_returns : forall nums t,
  Forall (fun n => 1 <= n <= Z.of_nat (List.length (doc self))) nums ->
  exists t' imgs, images_of_pages self nums t = (t', Ok imgs).
Proof.
  induction nums as [ | n nums IH]; intros t H; simpl.
  - unfold ret. eauto.
  - inversion H as [ | ? ? Hn Hnums]; subst.
    destruct (extract_images_from_page_returns n t Hn) as (t1 & i1 & E1).
    destruct (IH t1 Hnums) as (t2 & i2 & E2).
    unfold bind. rewrite E1, E2. unfold ret. eauto.
Qed.

Lemma range1_bounds n m :
  (n <= m)%nat -> Forall (fun k => 1 <= k <= Z.of_nat m) (range1 n).
Proof.
  intros H. unfold range1. apply Forall_forall. intros k Hk.
  apply in_map_iff in Hk. destruct Hk as (j & <- & Hj).
  apply in_seq in Hj. lia.
Qed.

(** What [extract_drills] returns: the header drills, or the template
    when there are none, with the images of each drill's page attached. *)
Lemma extract_drills_spec pages t found :
  extract_images self = false
  \/ (List.length pages <= List.length (doc self))%nat ->
  header_drills self pages = Ok found ->
  exists t' ds,
    extract_drills self pages t = (t', Ok ds)
    /\ map without_images ds
       = map without_images
             match found with
             | [] => _create_default_drills (session_id self)
             | _ => found
             end.
Proof.
  intros H E. unfold extract_drills.
  rewrite E. unfold bind at 1, lift.
  destruct (extract_images self) eqn:X.
  - destruct H as [H | H]; [discriminate | ].
    destruct (images_of_pages_returns (range1 (List.length pages)) t
                (range1_bounds _ _ H)) as (t' & imgs & Ei).
    unfold bind. rewrite Ei. unfold ret.
    do 2 eexists. split; [reflexivity | ].
    rewrite map_map. reflexivity.
  - unfold ret. do 2 eexists. split; reflexivity.
Qed.

(** Without a page to look up (more page texts than pages) the call
    raises, and so it does when a header has too long a duration; otherwise
    it returns. *)
Lemma extract_drills_inv pages t t' ds :
  extract_drills self pages t = (t', Ok ds) ->
  exists found,
    header_drills self pages = Ok found
    /\ map without_images ds
       = map without_images
             match found with
             | [] => _create_default_drills (session_id self)
             | _ => found
             end.
Proof.
  unfold extract_drills.
  destruct (header_drills self pages) as [found | e] eqn:E;
    unfold bind at 1, lift; [ | discriminate].
  destruct (extract_images self) eqn:X.
  - unfold bind.
    destruct (images_of_pages self (range1 (List.length pages)) t)
      as [t1 [imgs | e]]; [ | discriminate].
    unfold ret. intros H. inversion H; subst.
    exists found. split; [reflexivity | ]. rewrite map_map. reflexivity.
  - unfold ret. intros H. inversion H; subst. eauto.
Qed.

(** What the header drills are when header matching returns. *)
Lemma header_drills_inv pages found :
  header_drills self pages = Ok found ->
  Forall2 (drill_from (session_id self)) (page_matches 1 pages) found
  /\ map cumulative_min found = running 0 (map duration_min found).
Proof.
  intros E. destruct (header_drills_ok self pages) as [(ds & E' & F & C) | [E' _]];
    rewrite E in E'; [ | discriminate].
  inversion E'; subst. now split.
Qed.
End Images.

(** *** The drill segmenter *)

Lemma map_without_images {A : Type} (f : Drill -> A) ds ds' :
  (forall d, f (without_images d) = f d) ->
  map without_images ds = map without_images ds' ->
  map f ds = map f ds'.
Proof.
  intros Hf H. apply (f_equal (map f)) in H. rewrite !map_map in H.
  rewrite (map_ext _ f Hf ds), (map_ext _ f Hf ds') in H. exact H.
Qed.

Lemma default_drills_running sid :
  map cumulative_min (_create_default_drills sid)
  = running 0 (map duration_min (_create_default_drills sid)).
Proof. reflexivity. Qed.

Lemma default_drills_nonneg sid :
  Forall (fun d => 0 <= d) (map duration_min (_create_default_drills sid)).
Proof. simpl. repeat constructor; discriminate. Qed.

Lemma Forall2_durations sid pms ds :
  Forall2 (drill_from sid) pms ds ->
  Forall (fun d => 0 <= d) (map duration_min ds).
Proof.
  induction 1; simpl; constructor; eauto using drill_from_duration.
Qed.

(** The totals of a segmented document are the running sums of its
    durations, and no duration is negative. *)
Lemma segmented_running self pages t t' ds :
  extract_drills self pages t = (t', Ok ds) ->
  map cumulative_min ds = running 0 (map duration_min ds)
  /\ Forall (fun d => 0 <= d) (map duration_min ds).
Proof.
  intros H. apply extract_drills_inv in H. destruct H as (found & E & H).
  destruct (header_drills_inv self pages found E) as (F & C).
  rewrite (map_without_images cumulative_min _ _ (fun _ => eq_refl) H).
  rewrite (map_without_images duration_min _ _ (fun _ => eq_refl) H).
  destruct found as [ | d found].
  - split; [apply default_drills_running | apply default_drills_nonneg].
  - split; [exact C | eapply Forall2_durations; eauto].
Qed.

(** C1: in every drill list that [extract_drills] returns, by header
    matching or from the template, the [cumulative_min] of the n-th drill is
    the sum of the [duration_min] of the drills up to and including it, and
    [cumulative_min] never decreases from one drill to the next. *)
Theorem cumulative_min_is_running_sum self pages t t' ds :
  extract_drills self pages t = (t', Ok ds) ->
  (forall n d,
      nth_error ds n = Some d ->
      cumulative_min d = sum (map duration_min (firstn (S n) ds)))
  /\ (forall n d d',
         nth_error ds n = Some d -> nth_error ds (S n) = Some d' ->
         cumulative_min d <= cumulative_min d').
Proof.
  intros H. apply segmented_running in H. destruct H as (C & P). split.
  - intros n d Hn. apply (map_nth_error cumulative_min) in Hn.
    rewrite C in Hn. apply running_nth in Hn. rewrite Hn, firstn_map. lia.
  - intros n d d' Hn Hn'.
    apply (map_nth_error cumulative_min) in Hn, Hn'. rewrite C in Hn, Hn'.
    eapply running_step; eauto.
Qed.

Lemma no_matches_no_drills self pages :
  all_matches pages = [] -> header_drills self pages = Ok [].
Proof.
  intros H. destruct (header_drills_ok self pages) as [(ds & E & F & _) | [_ L]].
  - rewrite <- (all_matches_page_matches pages 1) in H.
    destruct (page_matches 1 pages); [ | discriminate].
    inversion F; subst. exact E.
  - rewrite H in L. inversion L.
Qed.

Lemma default_drills_no_images sid :
  map without_images (_create_default_drills sid) = _create_default_drills sid.
Proof. reflexivity. Qed.

Lemma segmented_nonempty self pages t t' ds :
  extract_drills self pages t = (t', Ok ds) -> ds <> [].
Proof.
  intros H. apply extract_drills_inv in H. destruct H as (found & _ & H).
  intros ->. destruct found; discriminate.
Qed.

(** C3: when no page holds a header match, [extract_drills] returns the
    six drills of the template in order, with their titles, phases and
    durations, 90 minutes in all, each on page 2, equal to
    [_create_default_drills] up to the attached images; and no drill list
    that [extract_drills] returns is ever empty. *)
Theorem default_template_without_matches self pages t :
  all_matches pages = [] ->
  extract_images self = false
  \/ (List.length pages <= List.length (doc self))%nat ->
  (exists t' ds,
      extract_drills self pages t = (t', Ok ds)
      /\ map (fun d => (title d, phase_name (phase d), duration_min d)) ds
         = [ (u "Einlaufen/Dehnen", u "Warm-up", 15);
             (u "kleines Spiel", u "Spiel", 10);
             (u "Ballgewöhnung", u "Ballhandling", 10);
             (u "Torhüter einwerfen", u "Torhüter", 10);
             (u "Hauptteil", u "Angriff", 35);
             (u "Abschlussspiel", u "Spiel", 10) ]
      /\ sum (map duration_min ds) = 90
      /\ Forall (fun d => source_page_start d = 2) ds
      /\ map without_images ds = _create_default_drills (session_id self))
  /\ (forall pages' t0 t1 ds',
         extract_drills self pages' t0 = (t1, Ok ds') -> ds' <> []).
Proof.
  intros Hno Hrange. split.
  - destruct (extract_drills_spec self pages t [] Hrange
                (no_matches_no_drills self pages Hno)) as (t' & ds & E & H).
    rewrite default_drills_no_images in H.
    exists t', ds. split; [exact E | ].
    assert (P : forall {A : Type} (f : Drill -> A),
               (forall d, f (without_images d) = f d) ->
               map f ds = map f (_create_default_drills (session_id self))).
    { intros A f Hf. rewrite <- (map_ext _ f Hf ds), <- map_map, H. reflexivity. }
    split; [ | split; [ | split]].
    + rewrite (P _ (fun d => (title d, phase_name (phase d), duration_min d))
                 (fun _ => eq_refl)).
      reflexivity.
    + rewrite (P _ duration_min (fun _ => eq_refl)). reflexivity.
    + apply Forall_forall. intros d Hd.
      apply (in_map source_page_start) in Hd.
      rewrite (P _ source_page_start (fun _ => eq_refl)) in Hd.
      simpl in Hd. intuition congruence.
    + exact H.
  - intros pages' t0 t1 ds'. apply segmented_nonempty.
Qed.

Lemma Forall2_nth {A B : Type} (P : A -> B -> Prop) l l' :
  Forall2 P l l' ->
  forall n a b, nth_error l n = Some a -> nth_error l' n = Some b -> P a b.
Proof.
  induction 1; intros n a b Ha Hb; destruct n; simpl in *; try discriminate.
  - inversion Ha; inversion Hb; subst. assumption.
  - eauto.
Qed.

Lemma drill_ids_of_matches sid pms found :
  Forall2 (drill_from sid) pms found ->
  forall ds,
    map without_images ds = map without_images found ->
    Forall2 (fun m d =>
               exists num,
                 group m 1 = Some num
                 /\ drill_id d = fmt_id sid ++ u "-" ++ num)
            (map snd pms) ds.
Proof.
  induction 1 as [ | pm d pms found Hd F IH]; intros ds H.
  - destruct ds; [constructor | discriminate].
  - destruct ds as [ | d0 ds]; [discriminate | ]. simpl in H.
    pose proof (f_equal (fun l => map drill_id (firstn 1 l)) H) as Hd0.
    pose proof (f_equal (@tl Drill) H) as Hds.
    simpl in Hd0, Hds. simpl. constructor.
    + destruct Hd as (num & ttl & dur & G1 & _ & _ & _ & Hid & _).
      exists num. split; [exact G1 | ].
      injection Hd0 as Hd0. rewrite Hd0. exact Hid.
    + apply IH. exact Hds.
Qed.

(** C10: the [drill_id] of every drill built from a header match is the
    session identifier, a hyphen and the number captured by the first group
    of that match; so two matches with the same printed number give two
    drills with the same [drill_id]. *)
Theorem drill_id_from_header_number self pages t t' ds :
  extract_drills self pages t = (t', Ok ds) ->
  all_matches pages <> [] ->
  Forall2 (fun m d =>
             exists num,
               group m 1 = Some num
               /\ drill_id d = fmt_id (session_id self) ++ u "-" ++ num)
          (all_matches pages) ds
  /\ (forall i j mi mj di dj,
         nth_error (all_matches pages) i = Some mi ->
         nth_error (all_matches pages) j = Some mj ->
         nth_error ds i = Some di -> nth_error ds j = Some dj ->
         group mi 1 = group mj 1 -> drill_id di = drill_id dj).
Proof.
  intros H Hsome. apply extract_drills_inv in H. destruct H as (found & E & H).
  destruct (header_drills_inv self pages found E) as (F & _).
  assert (Hall : Forall2 (fun m d =>
             exists num,
               group m 1 = Some num
               /\ drill_id d = fmt_id (session_id self) ++ u "-" ++ num)
          (all_matches pages) ds).
  { rewrite <- (all_matches_page_matches pages 1).
    apply (drill_ids_of_matches _ _ _ F).
    destruct found; [ | exact H].
    exfalso. apply Hsome. inversion F as [E0 | ].
    rewrite <- (all_matches_page_matches pages 1), <- E0. reflexivity. }
  split; [exact Hall | ].
  intros i j mi mj di dj Hmi Hmj Hdi Hdj G.
  destruct (Forall2_nth _ _ _ Hall _ _ _ Hmi Hdi) as (ni & Gi & ->).
  destruct (Forall2_nth _ _ _ Hall _ _ _ Hmj Hdj) as (nj & Gj & ->).
  congruence.
Qed.

(** *** Substring tests *)

Lemma startswith_spec p : forall s,
  startswith s p = true <-> exists post, s = p ++ post.
Proof.
  induction p as [ | a p IH]; intros s.
  - split; [intros _; exists s; reflexivity | intros _; destruct s; reflexivity].
  - destruct s as [ | b s]; simpl.
    + split; [discriminate | intros (post & H); discriminate].
    + rewrite andb_true_iff, N.eqb_eq, IH. split.
      * intros (-> & post & ->). eauto.
      * intros (post & H). inversion H; subst. eauto.
Qed.

Lemma py_in_spec p : forall s, py_in p s = true <-> contains p s.
Proof.
  induction s as [ | b s IH].
  - cbn [py_in]. rewrite orb_false_r, startswith_spec. split.
    + intros (post & H). exists [], post. exact H.
    + intros (pre & post & H). destruct pre; [eauto | discriminate].
  - cbn [py_in]. rewrite orb_true_iff, IH, startswith_spec. split.
    + intros [(post & H) | (pre & post & H)].
      * exists [], post. exact H.
      * exists (b :: pre), post. rewrite H. reflexivity.
    + intros (pre & post & H). destruct pre as [ | c pre].
      * left. eauto.
      * right. inversion H; subst. exists pre, post. reflexivity.
Qed.

Lemma any_in_spec words text :
  any_in words text = true <-> exists w, In w words /\ contains w text.
Proof.
  unfold any_in. rewrite existsb_exists.
  split; intros (w & Hw & H); exists w; split; auto; apply py_in_spec; auto.
Qed.

Lemma any_in_none words text :
  (forall w, In w words -> ~ contains w text) -> any_in words text = false.
Proof.
  intros H. destruct (any_in words text) eqn:E; [ | reflexivity].
  apply any_in_spec in E. destruct E as (w & Hw & C). destruct (H w Hw C).
Qed.

(** C4: the keyword groups are tested on the lower-cased title in a fixed
    order: a title with a warm-up keyword and an offense keyword is
    classified Warm-up, and a title with no keyword of any group is
    classified Angriff. *)
Theorem classify_phase_priority title :
  (forall w o,
      In w Keywords.warm_up -> In o Keywords.angriff ->
      contains w (lower title) -> contains o (lower title) ->
      _classify_phase title = Warm_up
      /\ phase_name (_classify_phase title) = u "Warm-up")
  /\ ((forall g w, In g keyword_groups -> In w g ->
                   ~ contains w (lower title)) ->
      _classify_phase title = Angriff
      /\ phase_name (_classify_phase title) = u "Angriff").
Proof.
  split.
  - intros w o Hw _ Cw _.
    assert (E : any_in Keywords.warm_up (lower title) = true)
      by (apply any_in_spec; eauto).
    unfold _classify_phase. cbv zeta. rewrite E. split; reflexivity.
  - intros H. unfold _classify_phase. cbv zeta.
    rewrite !any_in_none; [split; reflexivity | ..];
      intros w Hw; refine (H _ w _ Hw); unfold keyword_groups; simpl; auto 10.
Qed.

(** *** Sorting by identifier *)

Lemma insert_by_id_last x : forall l,
  Forall (fun y => id_key y <= id_key x) l -> insert_by_id x l = l ++ [x].
Proof.
  induction 1 as [ | y l Hy _ IH]; simpl; [reflexivity | ].
  destruct (id_key x <? id_key y) eqn:E.
  - apply Z.ltb_lt in E. lia.
  - rewrite IH. reflexivity.
Qed.

Lemma fold_insert_sorted : forall l acc,
  StronglySorted Z.le (map id_key (acc ++ l)) ->
  fold_left (fun sorted x => insert_by_id x sorted) l acc = acc ++ l.
Proof.
  induction l as [ | x l IH]; intros acc H; simpl.
  - rewrite app_nil_r. reflexivity.
  - rewrite insert_by_id_last.
    + rewrite IH; rewrite <- app_assoc; [reflexivity | exact H].
    + clear IH. induction acc as [ | y acc IHa]; [constructor | ].
      simpl in H. inversion H as [ | ? ? Hs Hall]; subst.
      constructor; [ | auto].
      rewrite Forall_forall in Hall. apply Hall.
      rewrite map_app. apply in_or_app. right. simpl. auto.
Qed.

Lemma stable_sort_sorted l :
  Sorted Z.le (map id_key l) -> stable_sort_by_id l = l.
Proof.
  intros H. unfold stable_sort_by_id. rewrite fold_insert_sorted; [reflexivity | ].
  simpl. apply Sorted_StronglySorted; [ | exact H].
  intros a b c. apply Z.le_trans.
Qed.

Lemma insert_by_id_perm x l : Permutation (insert_by_id x l) (x :: l).
Proof.
  induction l as [ | y l IH]; simpl; [reflexivity | ].
  destruct (id_key x <? id_key y); [reflexivity | ].
  rewrite IH. apply perm_swap.
Qed.

Lemma insert_by_id_keeps_sorted x l :
  Sorted Z.le (map id_key l) -> Sorted Z.le (map id_key (insert_by_id x l)).
Proof.
  induction l as [ | y l IH]; intros H; simpl.
  - repeat constructor.
  - destruct (id_key x <? id_key y) eqn:E.
    + apply Z.ltb_lt in E. simpl. constructor; [exact H | constructor; lia].
    + apply Z.ltb_ge in E. inversion H as [ | ? ? Hs Hhd]; subst. simpl.
      constructor; [auto | ].
      destruct l as [ | z l]; simpl.
      * constructor. exact E.
      * destruct (id_key x <? id_key z); simpl; constructor; auto.
        inversion Hhd; subst. assumption.
Qed.

Lemma fold_insert_perm_sorted : forall l acc,
  Sorted Z.le (map id_key acc) ->
  let r := fold_left (fun sorted x => insert_by_id x sorted) l acc in
  Permutation r (acc ++ l) /\ Sorted Z.le (map id_key r).
Proof.
  induction l as [ | x l IH]; intros acc H; simpl.
  - rewrite app_nil_r. auto.
  - destruct (IH (insert_by_id x acc) (insert_by_id_keeps_sorted x acc H))
      as (P & S).
    split; [ | exact S].
    rewrite P, insert_by_id_perm. apply Permutation_middle.
Qed.

Lemma stable_sort_perm_sorted l :
  Permutation (stable_sort_by_id l) l
  /\ Sorted Z.le (map id_key (stable_sort_by_id l)).
Proof.
  apply (fold_insert_perm_sorted l []). constructor.
Qed.

Lemma has_none_id_false l : all_numbered l -> has_none_id l = false.
Proof.
  induction 1 as [ | s l Hs _ IH]; simpl; [reflexivity | ].
  rewrite IH. destruct (id s); [reflexivity | congruence].
Qed.

Lemma sort_sessions_numbered l :
  all_numbered l -> sort_sessions l = Ok (stable_sort_by_id l).
Proof.
  intros H. unfold sort_sessions. rewrite (has_none_id_false l H).
  rewrite andb_false_r. reflexivity.
Qed.

Lemma id_in_spec sid ids : id_in sid ids = true <-> In (Some sid) ids.
Proof.
  unfold id_in. rewrite existsb_exists. split.
  - intros ([n | ] & Hin & E); [ | discriminate].
    apply Z.eqb_eq in E. subst. exact Hin.
  - intros H. exists (Some sid). split; [exact H | apply Z.eqb_refl].
Qed.

(** *** Decimal numerals *)

Lemma uint_codes_digits d : forallb is_digit (uint_codes d) = true.
Proof. induction d; simpl; auto. Qed.

Lemma uint_codes_inj d : forall d', uint_codes d = uint_codes d' -> d = d'.
Proof.
  induction d; intros d' H; destruct d'; simpl in H;
    try discriminate; try reflexivity;
    injection H as H; f_equal; auto.
Qed.

Lemma str_of_int_inj n m : str_of_int n = str_of_int m -> n = m.
Proof.
  unfold str_of_int. intros H.
  rewrite <- (DecimalZ.of_to n) at 1.
  rewrite <- (DecimalZ.of_to m).
  destruct (Z.to_int n) as [d | d] eqn:En, (Z.to_int m) as [e | e] eqn:Em.
  - apply uint_codes_inj in H. congruence.
  - destruct d; discriminate.
  - destruct e; discriminate.
  - injection H as H. apply uint_codes_inj in H. congruence.
Qed.

Lemma str_of_int_digits n : 0 <= n -> forallb is_digit (str_of_int n) = true.
Proof.
  intros H. unfold str_of_int. destruct n as [ | p | p]; simpl.
  - reflexivity.
  - apply uint_codes_digits.
  - lia.
Qed.

(** A run of digits that ends at a character which is no digit is
    determined by the text it starts. *)
Lemma digits_then_other a : forall b x y ra rb,
  forallb is_digit a = true -> forallb is_digit b = true ->
  is_digit x = false -> is_digit y = false ->
  a ++ x :: ra = b ++ y :: rb -> a = b /\ x :: ra = y :: rb.
Proof.
  induction a as [ | c a IH]; intros b x y ra rb Ha Hb Hx Hy H.
  - destruct b as [ | d b]; [auto | ].
    simpl in H, Hb. injection H as -> _.
    apply andb_true_iff in Hb. destruct Hb as [Hd _]. congruence.
  - destruct b as [ | d b].
    + simpl in H, Ha. injection H as -> _.
      apply andb_true_iff in Ha. destruct Ha as [Hc _]. congruence.
    + simpl in H, Ha, Hb. injection H as -> H.
      apply andb_true_iff in Ha, Hb.
      destruct (IH b x y ra rb) as (-> & E); tauto || auto.
Qed.

Lemma numeral_then_other n m x y ra rb :
  0 <= n -> 0 <= m -> is_digit x = false -> is_digit y = false ->
  str_of_int n ++ x :: ra = str_of_int m ++ y :: rb ->
  n = m /\ x :: ra = y :: rb.
Proof.
  intros Hn Hm Hx Hy H.
  apply digits_then_other in H; auto using str_of_int_digits.
  destruct H as (H & E). split; [apply str_of_int_inj; exact H | exact E].
Qed.

(** *** File names *)

Lemma page_image_filename_inj sid p p' :
  0 <= p -> 0 <= p' ->
  page_image_filename sid p = page_image_filename sid p' -> p = p'.
Proof.
  intros Hp Hp' H. unfold page_image_filename in H.
  do 3 apply app_inv_head in H.
  apply (numeral_then_other p p' 46%N 46%N (u "png") (u "png")) in H; auto.
  tauto.
Qed.

Lemma image_filename_inj sid p i e p' i' e' :
  0 <= p -> 0 <= p' -> 0 <= i -> 0 <= i' ->
  image_filename sid p i e = image_filename sid p' i' e' ->
  p = p' /\ i = i' /\ e = e'.
Proof.
  intros Hp Hp' Hi Hi' H. unfold image_filename in H.
  apply app_inv_head in H. apply app_inv_head in H.
  apply (numeral_then_other p p' 95%N 95%N
            (u "img" ++ str_of_int i ++ u "." ++ e)
            (u "img" ++ str_of_int i' ++ u "." ++ e')) in H; auto.
  destruct H as (-> & H).
  apply (app_inv_head (u "_img")) in H.
  apply (numeral_then_other i i' 46%N 46%N e e') in H; auto.
  destruct H as (-> & H). injection H as ->. auto.
Qed.

(** *** What the renderers write *)

Lemma files_written_app t1 t2 :
  files_written (t1 ++ t2) = files_written t1 ++ files_written t2.
Proof. unfold files_written. apply flat_map_app. Qed.

Lemma render_pages_writes output sid : forall pages n images t t' r,
  render_pages output sid n pages images t = (t', Ok r) ->
  files_written t'
  = files_written t
      ++ map (fun k => output ++ [page_image_filename sid (n + Z.of_nat k)])
             (seq 0 (List.length pages))
  /\ (forall e, In e t' -> In e t \/ exists f, e = EvWrite f).
Proof.
  induction pages as [ | page pages IH]; intros n images t t' r H; simpl in H.
  - inversion H; subst. simpl. rewrite app_nil_r. auto.
  - unfold bind at 1, lift in H. destruct (get_pixmap page); [ | discriminate].
    unfold bind at 1, emit in H. apply IH in H. destruct H as (H & Hev).
    split.
    + rewrite H, files_written_app. simpl. rewrite <- app_assoc. simpl.
      rewrite Z.add_0_r. do 2 f_equal.
      rewrite <- seq_shift, map_map. apply map_ext. intros k.
      replace (n + 1 + Z.of_nat k) with (n + Z.of_nat (S k)) by lia.
      reflexivity.
    + intros e He. apply Hev in He. destruct He as [He | He]; [ | auto].
      apply in_app_or in He. destruct He as [He | [<- | []]]; eauto.
Qed.

Lemma extract_all_pages_writes file output sid t t' imgs :
  extract_all_pages_from_pdf file output sid t = (t', Ok imgs) ->
  exists doc,
    pf_doc file = Some doc
    /\ files_written t'
       = files_written t
           ++ map (fun k => output ++ [page_image_filename sid k])
                  (range1 (List.length doc)).
Proof.
  unfold extract_all_pages_from_pdf. intros H.
  unfold bind at 1, lift, or_raise in H.
  destruct (pf_doc file) as [doc | ]; [ | discriminate].
  exists doc. split; [reflexivity | ].
  unfold bind at 1, emit in H. unfold bind at 1 in H.
  unfold bind at 1 in H.
  destruct (render_pages output sid 1 doc [] _) as [t1 [images | e]] eqn:E;
    [ | discriminate].
  apply render_pages_writes in E. destruct E as (E & _).
  unfold bind, emit, ret in H. inversion H; subst.
  rewrite files_written_app, E, !files_written_app. simpl.
  rewrite !app_nil_r. f_equal. unfold range1. rewrite <- seq_shift, !map_map.
  apply map_ext. intros k.
  replace (Z.of_nat (S k)) with (1 + Z.of_nat k) by lia. reflexivity.
Qed.

Lemma extract_page_images_writes self page_num :
  forall image_list idx images t t' r,
    extract_page_images self page_num idx image_list images t = (t', Ok r) ->
    files_written t'
    = files_written t
        ++ if extract_images self
           then map (fun name => image_dir self ++ [name])
                    (embedded_filenames (session_id self) page_num idx image_list)
           else [].
Proof.
  induction image_list as [ | img rest IH]; intros idx images t t' r H;
    simpl in H.
  - inversion H; subst. simpl. destruct (extract_images self);
      rewrite app_nil_r; reflexivity.
  - unfold bind at 1, try_except in H. destruct img as [ext | ]; simpl in H.
    + unfold bind at 1, lift, or_raise in H.
      destruct (extract_images self) eqn:X.
      * unfold bind at 1, emit in H. unfold bind at 1, lift in H.
        destruct (fmt_id_03d (session_id self)); simpl in H;
          apply IH in H; rewrite H, files_written_app; simpl;
          rewrite <- app_assoc; reflexivity.
      * unfold bind at 1, ret in H. unfold bind at 1, lift in H.
        destruct (fmt_id_03d (session_id self)); simpl in H;
          apply IH in H; rewrite H; reflexivity.
    + unfold bind, lift in H. simpl in H. apply IH in H. rewrite H.
      reflexivity.
Qed.

Lemma extract_images_from_page_writes self page_num t t' r :
  extract_images_from_page self page_num t = (t', Ok r) ->
  exists page,
    doc_getitem (doc self) (page_num - 1) = Ok page
    /\ files_written t'
       = files_written t
           ++ match get_images page, extract_images self with
              | Some image_list, true =>
                  map (fun name => image_dir self ++ [name])
                      (embedded_filenames (session_id self) page_num 1 image_list)
              | _, _ => []
              end.
Proof.
  unfold extract_images_from_page. intros H.
  unfold bind at 1, lift in H.
  destruct (doc_getitem (doc self) (page_num - 1)) as [page | e];
    [ | discriminate].
  exists page. split; [reflexivity | ].
  unfold try_except in H.
  destruct (get_images page) as [image_list | ]; simpl in H.
  - unfold bind, lift in H. simpl in H.
    destruct (extract_page_images self page_num 1 image_list [] t)
      as [t1 [imgs | e]] eqn:E.
    + inversion H; subst. apply extract_page_images_writes in E. exact E.
    + destruct (extract_page_images_returns self page_num image_list 1 [] t)
        as (t2 & i2 & E2). congruence.
  - inversion H; subst. rewrite app_nil_r. reflexivity.
Qed.

(** *** The library merger *)

Lemma init_session_id file flag dir t t1 self :
  __init__ file flag dir t = (t1, Ok self) ->
  session_id_of (path_name (pf_path file)) = Ok (session_id self)
  /\ (dir = None -> session_id self <> None).
Proof.
  unfold __init__, bind, lift, emit, ret, or_raise. intros H.
  destruct (pf_doc file) as [d | ]; [ | discriminate].
  destruct (session_id_of (path_name (pf_path file))) as [sid | e];
    [ | discriminate].
  destruct dir as [dir | ].
  - destruct flag; inversion H; subst; simpl; split; auto; discriminate.
  - destruct sid as [n | ]; simpl in H; [ | discriminate].
    destruct flag; inversion H; subst; simpl; split; auto; discriminate.
Qed.

Lemma extract_session_id self t t' s :
  extract_session self t = (t', Ok s) -> id s = session_id self.
Proof.
  unfold extract_session, extract_text_by_page, bind, lift, ret. intros H.
  destruct (texts_of (doc self)) as [pages | e]; [ | discriminate].
  destruct (extract_duration _) as [duration | e]; [ | discriminate].
  destruct (extract_equipment _) as [equipment | e]; [ | discriminate].
  destruct (extract_drills self pages t) as [t2 [drills | e]];
    [ | discriminate].
  inversion H; subst. reflexivity.
Qed.

Lemma extract_single_pdf_inv file flag t t' session :
  extract_single_pdf file flag t = (t', Ok session) ->
  exists sid,
    session_id_of (path_name (pf_path file)) = Ok (Some sid)
    /\ id session = Some sid
    /\ try_except
         (bind (__init__ file flag None)
               (fun extractor =>
                  bind (extract_session extractor)
                       (fun session =>
                          bind (close extractor)
                               (fun _ => ret [session]))))
         (fun _ => ret []) t
       = (t', Ok [session]).
Proof.
  unfold extract_single_pdf. intros H. unfold try_except.
  unfold bind at 1 in H. unfold bind at 1.
  destruct (__init__ file flag None t) as [t1 [self | e]] eqn:E1;
    [ | discriminate].
  destruct (init_session_id _ _ _ _ _ _ E1) as (Hid & Hsome).
  unfold bind at 1 in H. unfold bind at 1.
  destruct (extract_session self t1) as [t2 [s | e]] eqn:E2; [ | discriminate].
  apply extract_session_id in E2.
  unfold bind, close, emit, ret in *. inversion H; subst.
  destruct (session_id self) as [sid | ] eqn:S; [ | destruct (Hsome eq_refl eq_refl)].
  exists sid. rewrite E2. auto.
Qed.

Lemma all_numbered_app l l' :
  all_numbered l -> all_numbered l' -> all_numbered (l ++ l').
Proof. apply Forall_app_2 || (intros; apply Forall_app; auto). Qed.

Lemma all_numbered_perm l l' :
  Permutation l l' -> all_numbered l' -> all_numbered l.
Proof.
  intros P H. unfold all_numbered in *. rewrite Forall_forall in *.
  intros s Hs. apply H. eapply Permutation_in; eauto.
Qed.

Lemma collect_single existing flag file sid t :
  session_id_of (path_name (pf_path file)) = Ok (Some sid) ->
  collect_new_sessions existing flag [file] [] t
  = if id_in sid existing then (t, Ok [])
    else try_except
           (bind (__init__ file flag None)
                 (fun extractor =>
                    bind (extract_session extractor)
                         (fun session =>
                            bind (close extractor)
                                 (fun _ => ret [session]))))
           (fun _ => ret []) t.
Proof.
  intros Hname. simpl. unfold bind at 1, lift at 1. rewrite Hname.
  destruct (id_in sid existing); [reflexivity | ].
  unfold bind at 1.
  match goal with
  | |- (let (_, _) := ?x in _) = _ => destruct x as [t1 [l | e]]
  end; reflexivity.
Qed.

(** C2: merging one new session into a library that is sorted by
    identifier: when its identifier is already there, the session list
    stays as it is; when it is not, the list grows by exactly that session
    and is sorted ascending by identifier. *)
Theorem merge_by_identifier library file flag t t' session :
  sorted_by_id library ->
  extract_single_pdf file flag t = (t', Ok session) ->
  (In (id session) (ids_of library) ->
   update_library library [file] flag t = (t, Ok library))
  /\ (~ In (id session) (ids_of library) ->
      exists merged,
        update_library library [file] flag t = (t', Ok merged)
        /\ List.length merged = S (List.length library)
        /\ Permutation merged (session :: library)
        /\ sorted_by_id merged).
Proof.
  intros (Hnum & Hsorted) H.
  apply extract_single_pdf_inv in H. destruct H as (sid & Hname & Hid & Htry).
  rewrite Hid. unfold update_library, bind.
  rewrite (collect_single _ _ _ _ _ Hname). split.
  - intros Hin. apply id_in_spec in Hin. unfold ids_of in Hin. rewrite Hin.
    unfold lift. rewrite app_nil_r, (sort_sessions_numbered _ Hnum).
    rewrite (stable_sort_sorted _ Hsorted). reflexivity.
  - intros Hout.
    destruct (id_in sid (map id library)) eqn:Hin;
      [apply id_in_spec in Hin; destruct (Hout Hin) | ].
    fold (bind (A := HandballPDFExtractor) (B := list Session)).
    rewrite Htry. unfold lift.
    assert (Hall : all_numbered (library ++ [session])).
    { apply all_numbered_app; [exact Hnum | ].
      constructor; [congruence | constructor]. }
    rewrite (sort_sessions_numbered _ Hall).
    destruct (stable_sort_perm_sorted (library ++ [session])) as (P & S).
    exists (stable_sort_by_id (library ++ [session])).
    split; [reflexivity | ].
    assert (P' : Permutation (stable_sort_by_id (library ++ [session]))
                             (session :: library)).
    { rewrite P. symmetry. apply Permutation_cons_append. }
    split; [ | split; [exact P' | split; [ | exact S]]].
    + rewrite (Permutation_length P'). reflexivity.
    + eapply all_numbered_perm; [exact P | exact Hall].
Qed.

(** *** Scanning past text that cannot start a match *)

Lemma finditer_from_skip fl r pre : forall rest fuel i,
  (forall k, (k < List.length pre)%nat ->
             forall j, match_here fl r j (skipn k (pre ++ rest)) = None) ->
  finditer_from (List.length pre + fuel) fl r i (pre ++ rest)
  = finditer_from fuel fl r (i + List.length pre) rest.
Proof.
  induction pre as [ | x pre IH]; intros rest fuel i H.
  - simpl. rewrite Nat.add_0_r. reflexivity.
  - cbn [List.length Nat.add finditer_from app].
    rewrite (H 0%nat (Nat.lt_0_succ _) i : match_here fl r i (x :: pre ++ rest) = None).
    rewrite IH.
    + f_equal. simpl. lia.
    + intros k Hk j. apply (H (S k)). simpl. lia.
Qed.

Lemma finditer_from_nothing fl r : forall s fuel i,
  (forall k j, match_here fl r j (skipn k s) = None) ->
  finditer_from fuel fl r i s = [].
Proof.
  induction s as [ | x s IH]; intros fuel i H; destruct fuel as [ | fuel];
    try reflexivity; simpl.
  - rewrite (H 0%nat i : match_here fl r i [] = None). reflexivity.
  - rewrite (H 0%nat i : match_here fl r i (x :: s) = None).
    apply IH. intros k j. apply (H (S k)).
Qed.

Lemma search_from_skip fl r pre : forall rest i,
  (forall k, (k < List.length pre)%nat ->
             forall j, match_here fl r j (skipn k (pre ++ rest)) = None) ->
  search_from fl r i (pre ++ rest)
  = search_from fl r (i + List.length pre) rest.
Proof.
  induction pre as [ | x pre IH]; intros rest i H.
  - simpl. rewrite Nat.add_0_r. reflexivity.
  - cbn [List.length app].
    replace (search_from fl r i (x :: pre ++ rest))
      with (search_from fl r (S i) (pre ++ rest)).
    + rewrite IH.
      * f_equal. lia.
      * intros k Hk j. apply (H (S k)). simpl. lia.
    + simpl.
      rewrite (H 0%nat (Nat.lt_0_succ _) i : match_here fl r i (x :: pre ++ rest) = None).
      reflexivity.
Qed.



(** *** Where a header can start *)

Lemma matches_word fl w : IGNORECASE fl = true -> forall i s c i' s' c',
  matches fl (Word w) i s c i' s' c' -> startswith_ci s w = true.
Proof.
  intros Hfl. induction w as [ | a w IH]; intros i s c i' s' c' M.
  - destruct s; reflexivity.
  - destruct w as [ | b w].
    + simpl in M. inversion M; subst. simpl.
      unfold lit_ok in *. rewrite Hfl in *.
      match goal with H : (_ =? _)%N = true |- _ => rewrite H end.
      destruct s'; reflexivity.
    + change (Word (a :: b :: w)) with (Seq (Lit a) (Word (b :: w))) in M.
      inversion M; subst.
      match goal with H : matches _ (Lit a) _ _ _ _ _ _ |- _ =>
                        inversion H; subst end.
      cbn [startswith_ci]. unfold lit_ok in *. rewrite Hfl in *.
      match goal with H : (_ =? _)%N = true |- _ => rewrite H end.
      simpl. eapply IH; eauto.
Qed.

Lemma matches_drill_keyword i s c i' s' c' :
  matches I drill_keyword i s c i' s' c' -> header_keyword_at s = true.
Proof.
  unfold drill_keyword, header_keyword_at. intros M. simpl existsb.
  inversion M as [ | | | | | ? ? ? ? ? ? ? ? M1 | ? ? ? ? ? ? ? ? M1 | | | ];
    subst.
  - apply (matches_word I (u "Übung") eq_refl) in M1. rewrite M1. reflexivity.
  - inversion M1 as [ | | | | | ? ? ? ? ? ? ? ? M2 | ? ? ? ? ? ? ? ? M2 | | | ];
      subst.
    + apply (matches_word I (u "Drill") eq_refl) in M2. rewrite M2.
      rewrite ?orb_true_r. reflexivity.
    + apply (matches_word I (u "Teil") eq_refl) in M2. rewrite M2.
      rewrite ?orb_true_r. reflexivity.
Qed.

Lemma no_keyword_no_header s j :
  header_keyword_at s = false -> match_here I drill_pattern j s = None.
Proof.
  intros H. destruct (match_here I drill_pattern j s) as [m | ] eqn:E;
    [ | reflexivity].
  apply match_here_sound in E. destruct E as (_ & e & s' & M & _).
  unfold drill_pattern in M.
  inversion M as [ | | | | ? ? ? ? ? ? ? ? ? ? ? M1 | | | | | ]; subst.
  apply matches_drill_keyword in M1. congruence.
Qed.

(** *** The scenario header *)

Lemma scenario_match i post :
  match_here I drill_pattern i (scenario_header ++ post)
  = Some {| m_start := i; m_end := i + 26;
            m_caps := [(3%nat, u "15"); (2%nat, u "Aufwärmen ");
                       (1%nat, u "1")] |}.
Proof. vm_compute. reflexivity. Qed.

Lemma finditer_from_found fl r fuel i s m :
  match_here fl r i s = Some m -> (i < m_end m)%nat ->
  finditer_from (S fuel) fl r i s
  = m :: finditer_from fuel fl r (m_end m) (skipn (m_end m - i) s).
Proof.
  intros E L. cbn [finditer_from]. rewrite E.
  apply Nat.ltb_lt in L. rewrite L. reflexivity.
Qed.

Lemma scenario_rest post :
  skipn 26 (scenario_header ++ post) = u ")" ++ post.
Proof. vm_compute. reflexivity. Qed.

Lemma scenario_finditer pre post :
  no_header_keyword (List.length pre) (pre ++ scenario_header ++ post) ->
  (forall k, header_keyword_at (skipn k post) = false) ->
  finditer I drill_pattern (pre ++ scenario_header ++ post)
  = [ {| m_start := List.length pre; m_end := List.length pre + 26;
         m_caps := [(3%nat, u "15"); (2%nat, u "Aufwärmen ");
                    (1%nat, u "1")] |} ].
Proof.
  intros Hpre Hpost. unfold finditer.
  replace (S (List.length (pre ++ scenario_header ++ post)))
    with (List.length pre + S (List.length (scenario_header ++ post)))%nat
    by (rewrite (length_app pre); lia).
  rewrite finditer_from_skip
    by (intros k Hk j; apply no_keyword_no_header, Hpre, Hk).
  rewrite (finditer_from_found _ _ _ _ _ _
             (scenario_match (0 + List.length pre) post))
    by (cbn [m_end]; lia).
  cbn [m_end].
  replace (0 + List.length pre + 26 - (0 + List.length pre))%nat
    with 26%nat by lia.
  rewrite scenario_rest, Nat.add_0_l. f_equal.
  apply finditer_from_nothing. intros k j.
  apply no_keyword_no_header. destruct k as [ | k].
  - vm_compute. reflexivity.
  - apply (Hpost k).
Qed.






(** A page on which no header keyword stands before or after the header
    has the header as its only header. *)
Lemma scenario_only_header pre post :
  no_header_keyword (List.length pre) (pre ++ scenario_header ++ post) ->
  (forall k, header_keyword_at (skipn k post) = false) ->
  map m_start (all_matches [pre ++ scenario_header ++ post])
  = [List.length pre].
Proof.
  intros Hpre Hpost. unfold all_matches. cbn [flat_map].
  rewrite (scenario_finditer pre post Hpre Hpost). reflexivity.
Qed.






(** *** Headers without a duration *)

(** The default of ten minutes is never taken: whatever the header pattern
    matches carries a duration, which is the one that is converted. *)
Lemma header_duration_always_present self pages :
  Forall (fun m => exists x dur, group m 3 = Some (x :: dur))
         (all_matches pages)
  /\ forall ds,
       header_drills self pages = Ok ds ->
       Forall2 (fun m d =>
                  exists x dur,
                    group m 3 = Some (x :: dur)
                    /\ py_int (x :: dur) = Ok (duration_min d))
               (all_matches pages) ds.
Proof.
  split.
  - apply Forall_forall. intros m Hm. unfold all_matches in Hm.
    apply in_flat_map in Hm. destruct Hm as (p & _ & Hm).
    apply finditer_sound, drill_match_groups in Hm.
    destruct Hm as (_ & _ & x & dur & _ & _ & G). eauto.
  - intros ds E. destruct (header_drills_inv self pages ds E) as (F & _).
    rewrite <- (all_matches_page_matches pages 1).
    clear E.
    induction F as [ | pm d pms ds Hd F IH]; simpl;
      [constructor | constructor; [ | exact IH]].
    destruct Hd as (num & ttl & dur & _ & _ & G3 & Hne & _ & _ & Hdur & _).
    destruct dur as [ | x dur]; [congruence | eauto].
Qed.

(** C6: a header line without its "(N Min)" part is not matched at all.  A
    page that holds only such a header yields the six drills of the
    template, and next to a complete header such a line yields nothing. *)
Theorem header_without_duration_is_dropped :
  finditer I drill_pattern Sample.header_without_duration = []
  /\ (exists t,
         extract_drills
           (Sample.extractor [Sample.text_page Sample.header_without_duration]
                             true)
           [Sample.header_without_duration] []
         = (t, Ok (_create_default_drills (Some 184))))
  /\ List.length (_create_default_drills (Some 184)) = 6%nat
  /\ ~ In (u "Passen") (map title (_create_default_drills (Some 184)))
  /\ (exists t d,
         extract_drills
           (Sample.extractor
              [Sample.text_page
                 (Sample.header_184 ++ [10%N] ++ Sample.header_without_duration)]
              true)
           [Sample.header_184 ++ [10%N] ++ Sample.header_without_duration] []
         = (t, Ok [d])
         /\ drill_id d = u "184-1" /\ duration_min d = 15).
Proof.
  split; [vm_compute; reflexivity | ].
  split; [eexists; vm_compute; reflexivity | ].
  split; [reflexivity | ].
  split.
  - vm_compute. intros H.
    repeat (destruct H as [H | H]; [discriminate | ]). exact H.
  - do 2 eexists. split; [vm_compute; reflexivity | ].
    split; vm_compute; reflexivity.
Qed.

(** *** Handles in a batch run *)

(** A document that opens and then fails while its text is read: the loop
    goes on to the remaining files with the handle opened and not closed,
    and with no session added. *)
Lemma failed_extraction_leaves_handle_open
      existing flag file rest new_sessions sid pages e t :
  session_id_of (path_name (pf_path file)) = Ok (Some sid) ->
  id_in sid existing = false ->
  pf_doc file = Some pages ->
  texts_of pages = Raise e ->
  exists opened,
    collect_new_sessions existing flag (file :: rest) new_sessions t
    = collect_new_sessions existing flag rest new_sessions (t ++ opened)
    /\ In (EvOpen (pf_path file)) opened
    /\ ~ In (EvClose (pf_path file)) opened.
Proof.
  intros Hname Hin Hdoc Htexts.
  exists (EvOpen (pf_path file)
            :: if flag
               then [EvMkdir (path_parent (path_parent (pf_path file))
                                ++ [u "drill_images";
                                    u "TE_" ++ format_03d sid])]
               else []).
  split; [ | split].
  - cbn [collect_new_sessions]. unfold bind at 1, lift at 1.
    rewrite Hname, Hin. unfold bind at 1, try_except.
    unfold __init__, extract_session, extract_text_by_page, bind, lift, emit,
      ret, or_raise.
    rewrite Hdoc, Hname. cbn [fmt_id_03d doc].
    destruct flag; cbn [doc]; rewrite Htexts; rewrite <- ?app_assoc;
      reflexivity.
  - left. reflexivity.
  - intros [H | H]; [discriminate | ].
    destruct flag; [destruct H as [H | []]; discriminate | exact H].
Qed.

(** C9: a document whose second page cannot be read is opened and never
    closed; the next document is opened while that handle is still open. *)
Theorem handle_left_open_on_failure :
  let broken := Sample.pdf "TE_185.pdf"
                           [Sample.text_page (u "Trainingseinheit 185");
                            Sample.broken_page] in
  let good := Sample.pdf "TE_186.pdf" [Sample.text_page Sample.header_184] in
  exists t sessions,
    update_library [] [broken; good] true [] = (t, Ok sessions)
    /\ map id sessions = [Some 186]
    /\ In (EvOpen (pf_path broken)) t
    /\ ~ In (EvClose (pf_path broken)) t
    /\ open_handles t = [pf_path broken]
    /\ handles_scoped t = false.
Proof.
  do 2 eexists. split; [vm_compute; reflexivity | ].
  split; [reflexivity | ].
  split; [vm_compute; auto | ].
  split.
  - vm_compute. intros H.
    repeat (destruct H as [H | H]; [discriminate | ]). exact H.
  - split; vm_compute; reflexivity.
Qed.

(** Where every document reads, each handle is closed before the next one
    is opened. *)
Lemma handles_scoped_on_success :
  let a := Sample.pdf "TE_184.pdf" [Sample.text_page Sample.header_184] in
  let b := Sample.pdf "TE_186.pdf" [Sample.text_page Sample.header_184] in
  exists t sessions,
    update_library [] [a; b] true [] = (t, Ok sessions)
    /\ open_handles t = [] /\ handles_scoped t = true.
Proof.
  do 2 eexists. split; [vm_compute; reflexivity | ].
  split; vm_compute; reflexivity.
Qed.

(** *** The equipment section *)

Lemma search_from_found fl r i s m :
  match_here fl r i s = Some m -> search_from fl r i s = Some m.
Proof. intros E. destruct s; simpl; rewrite E; reflexivity. Qed.

Lemma matches_equipment_heading i s c i' s' c' :
  matches IS equipment_heading i s c i' s' c' -> equipment_keyword_at s = true.
Proof.
  unfold equipment_heading, equipment_keyword_at. intros M. simpl existsb.
  inversion M as [ | | | | | ? ? ? ? ? ? ? ? M1 | ? ? ? ? ? ? ? ? M1 | | | ];
    subst.
  - apply (matches_word IS (u "Material") eq_refl) in M1. rewrite M1.
    reflexivity.
  - inversion M1 as [ | | | | | ? ? ? ? ? ? ? ? M2 | ? ? ? ? ? ? ? ? M2 | | | ];
      subst.
    + apply (matches_word IS (u "Benötigtes Material") eq_refl) in M2.
      rewrite M2. rewrite ?orb_true_r. reflexivity.
    + apply (matches_word IS (u "Equipment") eq_refl) in M2. rewrite M2.
      rewrite ?orb_true_r. reflexivity.
Qed.

Lemma no_keyword_no_block s j :
  equipment_keyword_at s = false ->
  match_here IS equipment_block_pattern j s = None.
Proof.
  intros H. destruct (match_here IS equipment_block_pattern j s) as [m | ] eqn:E;
    [ | reflexivity].
  apply match_here_sound in E. destruct E as (_ & e & s' & M & _).
  unfold equipment_block_pattern in M.
  inversion M as [ | | | | ? ? ? ? ? ? ? ? ? ? ? M1 | | | | | ]; subst.
  apply matches_equipment_heading in M1. congruence.
Qed.









(** *** Names of the image files *)

(** C8 (as the code has it): the render of page k of session n is written
    as "TE_{n:03d}_page_{k}.png", the i-th embedded image of page k as
    "{n}-{k}_img{i}.{ext}", pages and indices counted from one; different
    pages give different render names, and different pairs of page and
    index give different names for embedded images. *)
Theorem image_file_naming :
  (forall file output sid t t' imgs,
      extract_all_pages_from_pdf file output sid t = (t', Ok imgs) ->
      exists doc,
        pf_doc file = Some doc
        /\ files_written t'
           = files_written t
               ++ map (fun k =>
                         output ++ [u "TE_" ++ format_03d sid ++ u "_page_"
                                      ++ str_of_int k ++ u ".png"])
                      (range1 (List.length doc)))
  /\ (forall self page_num t t' imgs,
         extract_images_from_page self page_num t = (t', Ok imgs) ->
         exists page,
           doc_getitem (doc self) (page_num - 1) = Ok page
           /\ files_written t'
              = files_written t
                  ++ match get_images page, extract_images self with
                     | Some image_list, true =>
                         map (fun name => image_dir self ++ [name])
                             (embedded_filenames (session_id self) page_num 1
                                                 image_list)
                     | _, _ => []
                     end)
  /\ (forall sid p p',
         1 <= p -> 1 <= p' ->
         page_image_filename sid p = page_image_filename sid p' -> p = p')
  /\ (forall sid p i e p' i' e',
         1 <= p -> 1 <= p' -> 1 <= i -> 1 <= i' ->
         image_filename sid p i e = image_filename sid p' i' e' ->
         p = p' /\ i = i' /\ e = e').
Proof.
  split; [ | split; [ | split]].
  - intros file output sid t t' imgs H.
    exact (extract_all_pages_writes file output sid t t' imgs H).
  - intros self page_num t t' imgs H.
    exact (extract_images_from_page_writes self page_num t t' imgs H).
  - intros sid p p' Hp Hp'. apply page_image_filename_inj; lia.
  - intros sid p i e p' i' e' Hp Hp' Hi Hi'. apply image_filename_inj; lia.
Qed.

(** C8 as stated fails: the render of page 1 of session 184 is not written
    as "184_page_1.png". *)
Lemma page_render_name_has_prefix :
  let file := Sample.pdf "TE_184.pdf" [Sample.text_page Sample.header_184] in
  exists t imgs,
    extract_all_pages_from_pdf file [u "out"] 184 [] = (t, Ok imgs)
    /\ files_written t = [[u "out"; u "TE_184_page_1.png"]]
    /\ files_written t
       <> [[u "out"; format_03d 184 ++ u "_page_" ++ str_of_int 1 ++ u ".png"]].
Proof.
  do 2 eexists. split; [vm_compute; reflexivity | ].
  split; [vm_compute; reflexivity | ].
  vm_compute. discriminate.
Qed.

(** *** The theorems at sample documents *)

Lemma cumulative_min_is_running_sum_witness :
  let text := Sample.header_184 ++ [10%N] ++ u "Teil 2: Passen (10 min)" in
  let self := Sample.extractor [Sample.picture_page text] true in
  let run := extract_drills self [text] [] in
  let ds := value_of [] run in
  run = (fst run, Ok ds)
  /\ List.length ds = 2%nat
  /\ (forall n d,
         nth_error ds n = Some d ->
         cumulative_min d = sum (map duration_min (firstn (S n) ds)))
  /\ (forall n d d',
         nth_error ds n = Some d -> nth_error ds (S n) = Some d' ->
         cumulative_min d <= cumulative_min d').
Proof.
  intros text self run ds.
  assert (E : run = (fst run, Ok ds)) by (vm_compute; reflexivity).
  split; [exact E | ]. split; [vm_compute; reflexivity | ].
  exact (cumulative_min_is_running_sum self [text] [] (fst run) ds E).
Defined.

Lemma merge_by_identifier_witness :
  let library := [Stored.session 100; Stored.session 184] in
  let known := Sample.pdf "TE_184.pdf" [Sample.text_page Sample.header_184] in
  let new := Sample.pdf "TE_150.pdf" [Sample.text_page Sample.header_184] in
  let run := extract_single_pdf new true [] in
  let session := value_of (Stored.session 0) run in
  sorted_by_id library
  /\ run = (fst run, Ok session)
  /\ (exists merged,
         update_library library [new] true [] = (fst run, Ok merged)
         /\ List.length merged = 3%nat
         /\ map id merged = [Some 100; Some 150; Some 184])
  /\ update_library library [known] true [] = ([], Ok library).
Proof.
  intros library known new run session.
  assert (S : sorted_by_id library).
  { split.
    - repeat constructor; discriminate.
    - simpl. apply Sorted_cons;
        [apply Sorted_cons; [apply Sorted_nil | apply HdRel_nil]
        | apply HdRel_cons; vm_compute; discriminate]. }
  assert (E : run = (fst run, Ok session)) by (vm_compute; reflexivity).
  split; [exact S | ]. split; [exact E | ]. split.
  - destruct (merge_by_identifier library new true [] (fst run) session S E)
      as (_ & Hnew).
    destruct Hnew as (merged & Hm & Hl & Hp & Hs).
    + vm_compute. intros [H | [H | []]]; discriminate.
    + exists merged. split; [exact Hm | ]. split; [exact Hl | ].
      assert (Hc : update_library library [new] true []
                   = (fst run,
                      Ok (value_of [] (update_library library [new] true []))))
        by (vm_compute; reflexivity).
      rewrite Hm in Hc at 1. injection Hc as ->. vm_compute. reflexivity.
  - vm_compute. reflexivity.
Defined.

Lemma default_template_without_matches_witness :
  let text := u "Trainingseinheit 184" in
  let self := Sample.extractor [Sample.text_page text] true in
  all_matches [text] = []
  /\ exists t' ds,
       extract_drills self [text] [] = (t', Ok ds)
       /\ map title ds = map title (_create_default_drills (Some 184))
       /\ sum (map duration_min ds) = 90
       /\ ds <> [].
Proof.
  intros text self.
  assert (H : all_matches [text] = []) by (vm_compute; reflexivity).
  split; [exact H | ].
  destruct (default_template_without_matches self [text] [] H)
    as ((t' & ds & E & Hm & Hs & Hp & Hw) & Hne).
  - right. apply le_n.
  - exists t', ds. split; [exact E | ]. split.
    + apply (f_equal (map title)) in Hw. rewrite map_map in Hw. exact Hw.
    + split; [exact Hs | exact (Hne _ _ _ _ E)].
Defined.

Lemma classify_phase_priority_witness :
  _classify_phase (u "Aufwärmen im Angriff") = Warm_up
  /\ _classify_phase (u "Hauptteil") = Angriff.
Proof.
  split.
  - destruct (classify_phase_priority (u "Aufwärmen im Angriff")) as (H & _).
    apply (H (u "aufwärmen") (u "angriff")).
    + simpl. auto.
    + simpl. auto.
    + exists [], (u " im angriff"). vm_compute. reflexivity.
    + exists (u "aufwärmen im "), []. vm_compute. reflexivity.
  - destruct (classify_phase_priority (u "Hauptteil")) as (_ & H).
    apply H. intros g w Hg Hw C. apply py_in_spec in C.
    unfold keyword_groups in Hg. simpl in Hg.
    repeat (destruct Hg as [<- | Hg]; [simpl in Hw | ]);
      try contradiction;
      repeat (destruct Hw as [<- | Hw]; [vm_compute in C; discriminate C | ]);
      contradiction.
Defined.



Lemma drill_id_from_header_number_witness :
  let pages := [Sample.header_184; u "Teil 1: Passen (10 Min)"] in
  let self := Sample.extractor (map Sample.text_page pages) true in
  let run := extract_drills self pages [] in
  let ds := value_of [] run in
  run = (fst run, Ok ds)
  /\ all_matches pages <> []
  /\ map drill_id ds = [u "184-1"; u "184-1"]
  /\ ~ NoDup (map drill_id ds)
  /\ Forall2 (fun m d =>
                exists num,
                  group m 1 = Some num
                  /\ drill_id d = fmt_id (session_id self) ++ u "-" ++ num)
             (all_matches pages) ds.
Proof.
  intros pages self run ds.
  assert (E : run = (fst run, Ok ds)) by (vm_compute; reflexivity).
  assert (H : all_matches pages <> []) by (vm_compute; discriminate).
  assert (Hids : map drill_id ds = [u "184-1"; u "184-1"])
    by (vm_compute; reflexivity).
  split; [exact E | ]. split; [exact H | ]. split; [exact Hids | ].
  split.
  - rewrite Hids. intros N. inversion N as [ | ? ? Hin _]; subst.
    apply Hin. left. reflexivity.
  - exact (proj1 (drill_id_from_header_number self pages [] (fst run) ds E H)).
Defined.

Lemma image_file_naming_witness :
  let text := Sample.header_184 in
  let self := Sample.extractor [Sample.picture_page text] true in
  let run := extract_images_from_page self 1 [] in
  run = (fst run, Ok (value_of [] run))
  /\ files_written (fst run)
     = [ [u "data"; u "drill_images"; u "TE_184"; u "184-1_img1.png"];
         [u "data"; u "drill_images"; u "TE_184"; u "184-1_img3.jpeg"] ]
  /\ exists page,
       doc_getitem (doc self) (1 - 1) = Ok page
       /\ files_written (fst run)
          = files_written []
              ++ match get_images page, extract_images self with
                 | Some image_list, true =>
                     map (fun name => image_dir self ++ [name])
                         (embedded_filenames (session_id self) 1 1 image_list)
                 | _, _ => []
                 end.
Proof.
  intros text self run.
  assert (E : run = (fst run, Ok (value_of [] run)))
    by (vm_compute; reflexivity).
  split; [exact E | ]. split; [vm_compute; reflexivity | ].
  destruct image_file_naming as (_ & H & _).
  exact (H self 1 [] (fst run) (value_of [] run) E).
Defined.

(** *** What splitting and trimming keep *)

Lemma lstrip_Forall (P : N -> Prop) s : Forall P s -> Forall P (lstrip s).
Proof.
  induction 1 as [|x l Hx Hl IH]; simpl; [constructor|].
  destruct (is_space x); auto.
Qed.

Lemma strip_Forall (P : N -> Prop) s : Forall P s -> Forall P (strip s).
Proof.
  intros H. unfold strip, rstrip.
  apply Forall_rev, lstrip_Forall, Forall_rev, lstrip_Forall, H.
Qed.

Lemma skipn_keeps_Forall {A : Type} (P : A -> Prop) n :
  forall l, Forall P l -> Forall P (skipn n l).
Proof.
  induction n as [|n IH]; intros l H; [exact H|].
  destruct l as [|x l]; [constructor|].
  simpl. apply IH. now inversion H.
Qed.

Lemma split_on_Forall p s :
  Forall (Forall (fun c => p c = false)) (split_on p s).
Proof.
  induction s as [|c t IH]; simpl.
  - repeat constructor.
  - destruct (p c) eqn:E.
    + constructor; [constructor | exact IH].
    + destruct (split_on p t) as [|w ws].
      * repeat constructor. exact E.
      * inversion IH; subst. constructor; auto.
Qed.

Lemma after_first_Forall (P : N -> Prop) p s :
  Forall P s -> Forall P (after_first p s).
Proof.
  induction 1 as [|x l Hx Hl IH]; simpl; [constructor|].
  destruct (p x); auto.
Qed.

Lemma sub_prefix_Forall (P : N -> Prop) fl r item :
  Forall P item -> Forall P (sub_prefix fl r item).
Proof.
  intros H. unfold sub_prefix.
  destruct (match_here fl r 0 item); [now apply skipn_keeps_Forall | exact H].
Qed.

(** *** The equipment list *)

Lemma material_items_clean material_text :
  Forall (fun item => 2 < len item /\ startswith item (u "http") = false
                      /\ Forall (fun c => equipment_separator c = false) item)
         (material_items material_text).
Proof.
  unfold material_items. apply Forall_forall. intros item Hin.
  apply filter_In in Hin. destruct Hin as [Hin Hk].
  unfold keep_item in Hk.
  apply andb_true_iff in Hk. destruct Hk as [Hk Hh].
  apply andb_true_iff in Hk. destruct Hk as [_ Hl].
  split; [now apply Z.ltb_lt in Hl|].
  split; [now apply negb_true_iff in Hh|].
  apply in_map_iff in Hin. destruct Hin as [raw [<- Hraw]].
  unfold clean_item. apply sub_prefix_Forall, strip_Forall.
  pose proof (split_on_Forall equipment_separator material_text) as HF.
  rewrite Forall_forall in HF. now apply HF.
Qed.

Lemma first_material_clean text :
  forall patterns items,
    first_material patterns text = Ok items ->
    Forall (fun item => 2 < len item /\ startswith item (u "http") = false
                        /\ Forall (fun c => equipment_separator c = false) item)
           items.
Proof.
  induction patterns as [|pattern rest IH]; intros items H; cbn [first_material] in H.
  - inversion H. constructor.
  - destruct (search IS pattern text) as [m|]; [|now apply IH].
    unfold group_or in H. destruct (group m 1) as [material_text|]; [|discriminate].
    cbn [rbind] in H. inversion H. apply material_items_clean.
Qed.

Lemma default_equipment_clean :
  Forall (fun item => 2 < len item /\ startswith item (u "http") = false
                      /\ Forall (fun c => equipment_separator c = false) item)
         [u "Bälle"; u "Hütchen"].
Proof.
  assert (E : forallb (fun item => (2 <? len item)
                                   && negb (startswith item (u "http"))
                                   && forallb (fun c => negb (equipment_separator c)) item)
                      [u "Bälle"; u "Hütchen"] = true)
    by (vm_compute; reflexivity).
  rewrite forallb_forall in E. apply Forall_forall. intros item Hin.
  specialize (E item Hin).
  apply andb_true_iff in E. destruct E as [E Hs].
  apply andb_true_iff in E. destruct E as [Hl Hh].
  split; [now apply Z.ltb_lt|]. split; [now apply negb_true_iff|].
  rewrite forallb_forall in Hs. apply Forall_forall. intros c Hc.
  now apply negb_true_iff, Hs.
Qed.

Lemma extract_equipment_nonempty text items :
  extract_equipment text = Ok items -> items <> [].
Proof.
  unfold extract_equipment.
  destruct (first_material equipment_patterns text) as [found|e];
    cbn [rbind]; [|discriminate].
  intros H. inversion H. destruct found; discriminate.
Qed.

Lemma no_keyword_no_inline s j :
  equipment_keyword_at s = false ->
  match_here IS equipment_inline_pattern j s = None.
Proof.
  intros H. destruct (match_here IS equipment_inline_pattern j s) as [m|] eqn:E;
    [|reflexivity].
  apply match_here_sound in E. destruct E as (_ & e & s' & M & _).
  unfold equipment_inline_pattern in M.
  inversion M as [| | | |? ? ? ? ? ? ? ? ? ? ? M1| | | | |]; subst.
  assert (K : equipment_keyword_at s = true).
  { eapply matches_equipment_heading. unfold equipment_heading.
    inversion M1 as [| | | | |? ? ? ? ? ? ? ? M2|? ? ? ? ? ? ? ? M2| | |]; subst.
    - apply M_AltL. exact M2.
    - apply M_AltR, M_AltL. exact M2. }
  congruence.
Qed.

(** Without a heading anywhere in the text neither pattern is found. *)
Lemma no_heading_no_material text :
  no_equipment_keyword (List.length text) text ->
  first_material equipment_patterns text = Ok [].
Proof.
  intros H. unfold equipment_patterns. cbn [first_material]. unfold search.
  assert (Hall : forall k, equipment_keyword_at (skipn k (text ++ [])) = false).
  { intros k. rewrite app_nil_r.
    destruct (Nat.lt_ge_cases k (List.length text)) as [L|L]; [now apply H|].
    now rewrite skipn_all2. }
  rewrite <- (app_nil_r text).
  rewrite !search_from_skip; cbn [search_from].
  - rewrite no_keyword_no_block, no_keyword_no_inline by reflexivity.
    reflexivity.
  - intros k _ j. apply no_keyword_no_inline, Hall.
  - intros k _ j. apply no_keyword_no_block, Hall.
Qed.

(** X1: [extract_equipment] never raises and never returns an empty list;
    every item it returns has more than two characters, does not start with
    "http" and holds none of the separators (newline, bullet, hyphen,
    U+0001), so that a hyphenated word is never one item.  A text in which
    none of the headings "Material", "Benötigtes Material" and "Equipment"
    stands, in whatever case, yields the default list of "Bälle" and
    "Hütchen". *)
Theorem equipment_items_are_clean text :
  exists items,
    extract_equipment text = Ok items /\ items <> []
    /\ Forall (fun item => 2 < len item /\ startswith item (u "http") = false
                           /\ Forall (fun c => equipment_separator c = false) item)
              items
    /\ (no_equipment_keyword (List.length text) text ->
        items = [u "Bälle"; u "Hütchen"]).
Proof.
  unfold extract_equipment.
  destruct (first_material equipment_patterns text) as [found|e] eqn:E.
  - cbn [rbind]. destruct found as [|x rest].
    + eexists. split; [reflexivity|]. split; [discriminate|].
      split; [exact default_equipment_clean | reflexivity].
    + eexists. split; [reflexivity|]. split; [discriminate|].
      split; [exact (first_material_clean text _ _ E)|].
      intros H. rewrite (no_heading_no_material text H) in E. discriminate.
  - exfalso. destruct (extract_equipment_returns text) as [l Hl].
    unfold extract_equipment in Hl. rewrite E in Hl. discriminate.
Qed.

Lemma equipment_items_are_clean_witness :
  let text := u "Trainingseinheit 184
Dauer: 90 Minuten" in
  no_equipment_keyword (List.length text) text
  /\ extract_equipment text = Ok [u "Bälle"; u "Hütchen"]
  /\ extract_equipment (u "Material:
ab

") = Ok [u "Bälle"; u "Hütchen"].
Proof.
  intros text.
  assert (H : no_equipment_keyword (List.length text) text).
  { intros k Hk.
    assert (A : forallb (fun k => negb (equipment_keyword_at (skipn k text)))
                        (seq 0 (List.length text)) = true)
      by (vm_compute; reflexivity).
    rewrite forallb_forall in A. apply negb_true_iff, A, in_seq. lia. }
  split; [exact H|]. split; [|vm_compute; reflexivity].
  destruct (equipment_items_are_clean text) as (items & E & _ & _ & D).
  rewrite E. f_equal. exact (D H).
Defined.

(** *** The title *)

Lemma title_lines_Forall (P : N -> Prop) text :
  (forall c, (c =? 10)%N = false -> P c) ->
  Forall (Forall P) (title_lines text).
Proof.
  intros HP. unfold title_lines. apply Forall_forall. intros line Hin.
  apply filter_In in Hin. destruct Hin as [Hin _].
  apply in_map_iff in Hin. destruct Hin as [raw [<- Hraw]].
  apply strip_Forall.
  pose proof (split_on_Forall (fun c => (c =? 10)%N) text) as HF.
  rewrite Forall_forall in HF. specialize (HF raw Hraw).
  eapply Forall_impl; [|exact HF]. exact HP.
Qed.

Lemma title_by_marker_some (P : N -> Prop) :
  forall lines t,
    Forall (Forall P) lines -> title_by_marker lines = Some t ->
    5 < len t /\ Forall P t.
Proof.
  induction lines as [|line rest IH]; intros t HF H; cbn [title_by_marker] in H;
    [discriminate|].
  inversion HF as [|? ? Hline Hrest]; subst.
  destruct (py_in (u "Schwerpunkt") line || py_in (u "schwerpunkt") line);
    [|now apply IH].
  destruct (py_in (u ":") line).
  - destruct (nonempty (strip (after_first (fun c => (c =? chr ":")%N) line))
              && (5 <? len (strip (after_first (fun c => (c =? chr ":")%N) line))))
      eqn:E.
    + inversion H; subst.
      apply andb_true_iff in E. destruct E as [_ E].
      split; [now apply Z.ltb_lt|].
      now apply strip_Forall, after_first_Forall.
    + destruct rest as [|next rest']; [now apply IH|].
      destruct ((5 <? len (strip next)) && negb (py_in (u "Copyright") (strip next)))
        eqn:E'; [|now apply IH].
      inversion H; subst.
      apply andb_true_iff in E'. destruct E' as [E' _].
      split; [now apply Z.ltb_lt|].
      apply strip_Forall. now inversion Hrest.
  - destruct rest as [|next rest']; [now apply IH|].
    destruct ((5 <? len (strip next)) && negb (py_in (u "Copyright") (strip next)))
      eqn:E'; [|now apply IH].
    inversion H; subst.
    apply andb_true_iff in E'. destruct E' as [E' _].
    split; [now apply Z.ltb_lt|].
    apply strip_Forall. now inversion Hrest.
Qed.

Lemma title_after_number_some sid :
  forall n lines c,
    title_after_number sid n lines = Some c ->
    In c lines /\ title_candidate c = true.
Proof.
  induction n as [|n IH]; intros lines c H; [destruct lines; discriminate|].
  destruct lines as [|line rest]; [discriminate|].
  cbn [title_after_number] in H.
  assert (Hrec : title_after_number sid n rest = Some c ->
                 In c (line :: rest) /\ title_candidate c = true).
  { intros H'. destruct (IH _ _ H') as [Hin Hc]. split; [now right | exact Hc]. }
  destruct (py_in (u "Trainingseinheit " ++ fmt_id sid) line
            || py_in (u "TE " ++ fmt_id sid) line); [|now apply Hrec].
  destruct (find title_candidate (firstn 4 rest)) as [candidate|] eqn:F;
    [|now apply Hrec].
  inversion H; subst. apply find_some in F. destruct F as [Hin Hc].
  split; [|exact Hc]. right.
  rewrite <- (firstn_skipn 4 rest). apply in_or_app. now left.
Qed.

Lemma longest_fold_In :
  forall l best x,
    fold_left (fun best x =>
                 match best with
                 | None => Some x
                 | Some b => if len b <? len x then Some x else Some b
                 end) l best = Some x ->
    In x l \/ best = Some x.
Proof.
  induction l as [|y l IH]; intros best x H; simpl in H; [now right|].
  apply IH in H. destruct H as [H|H]; [left; now right|].
  destruct best as [b|].
  - destruct (len b <? len y); inversion H; subst; [left; now left | now right].
  - inversion H; subst. left; now left.
Qed.

Lemma longest_In l x : longest l = Some x -> In x l.
Proof.
  intros H. apply longest_fold_In in H. destruct H as [H|H]; [exact H | discriminate].
Qed.

Lemma digit_is_no_newline c : is_digit c = true -> (c =? 10)%N = false.
Proof.
  unfold is_digit. intros H. apply andb_true_iff in H. destruct H as [H _].
  apply N.leb_le in H. apply N.eqb_neq. lia.
Qed.

Lemma fmt_id_no_newline sid : Forall (fun c => (c =? 10)%N = false) (fmt_id sid).
Proof.
  assert (D : forall d, Forall (fun c => (c =? 10)%N = false) (uint_codes d)).
  { intros d. pose proof (uint_codes_digits d) as H.
    rewrite forallb_forall in H. apply Forall_forall. intros c Hc.
    now apply digit_is_no_newline, H. }
  destruct sid as [n|]; cbn [fmt_id].
  - unfold str_of_int. destruct (Z.to_int n); [apply D|].
    constructor; [reflexivity | apply D].
  - apply Forall_forall. intros c Hc.
    assert (E : forallb (fun c => negb (c =? 10)%N) (u "None") = true)
      by (vm_compute; reflexivity).
    rewrite forallb_forall in E. now apply negb_true_iff, E.
Qed.

Lemma default_title_long sid :
  5 < len (u "Trainingseinheit " ++ fmt_id sid)
  /\ Forall (fun c => (c =? 10)%N = false) (u "Trainingseinheit " ++ fmt_id sid).
Proof.
  split.
  - unfold len. rewrite length_app.
    assert (E : List.length (u "Trainingseinheit ") = 17%nat)
      by (vm_compute; reflexivity).
    rewrite E. lia.
  - apply Forall_app. split; [|apply fmt_id_no_newline].
    apply Forall_forall. intros c Hc.
    assert (E : forallb (fun c => negb (c =? 10)%N) (u "Trainingseinheit ") = true)
      by (vm_compute; reflexivity).
    rewrite forallb_forall in E. now apply negb_true_iff, E.
Qed.

Lemma extract_title_shape sid first_page_text :
  5 < len (extract_title sid first_page_text)
  /\ Forall (fun c => (c =? 10)%N = false) (extract_title sid first_page_text).
Proof.
  pose proof (title_lines_Forall (fun c => (c =? 10)%N = false) first_page_text
                                 (fun c H => H)) as HL.
  unfold extract_title.
  destruct (title_by_marker (title_lines first_page_text)) as [title|] eqn:A.
  { exact (title_by_marker_some _ _ _ HL A). }
  destruct (title_after_number sid 15 (title_lines first_page_text))
    as [candidate|] eqn:B.
  { apply title_after_number_some in B. destruct B as [Hin Hc].
    unfold title_candidate in Hc. apply andb_true_iff in Hc.
    destruct Hc as [Hc _]. apply Z.ltb_lt in Hc.
    split; [lia|]. rewrite Forall_forall in HL. now apply HL. }
  destruct (longest (filter fallback_candidate
                            (firstn 20 (title_lines first_page_text))))
    as [line|] eqn:C.
  { apply longest_In in C. apply filter_In in C. destruct C as [Hin Hc].
    unfold fallback_candidate in Hc.
    repeat (apply andb_true_iff in Hc; destruct Hc as [Hc _]).
    apply Z.ltb_lt in Hc. split; [lia|].
    rewrite Forall_forall in HL. apply HL.
    rewrite <- (firstn_skipn 20 (title_lines first_page_text)).
    apply in_or_app. now left. }
  apply default_title_long.
Qed.


(** *** Numbers in file names and texts *)

(** What [search] finds is matched on the text from some position on. *)
Lemma search_from_suffix fl r :
  forall s i m,
    search_from fl r i s = Some m ->
    exists pre t, s = pre ++ t /\ match_here fl r (i + List.length pre) t = Some m.
Proof.
  induction s as [|x s IH]; intros i m H; cbn [search_from] in H.
  - destruct (match_here fl r i []) eqn:E; [|discriminate].
    inversion H; subst. exists [], []. split; [reflexivity|].
    cbn [List.length]. now rewrite Nat.add_0_r.
  - destruct (match_here fl r i (x :: s)) eqn:E.
    + inversion H; subst. exists [], (x :: s). split; [reflexivity|].
      cbn [List.length]. now rewrite Nat.add_0_r.
    + apply IH in H. destruct H as [pre [t [-> H]]].
      exists (x :: pre), t. split; [reflexivity|].
      cbn [List.length]. now replace (i + S (List.length pre))%nat
                            with (S i + List.length pre)%nat by lia.
Qed.

Lemma no_digit_app a b : no_digit (a ++ b) = no_digit a && no_digit b.
Proof. unfold no_digit. apply forallb_app. Qed.

(** A match of [\d+] starts on a digit. *)
Lemma matches_digits_head fl i s c i' s' c' :
  matches fl digits i s c i' s' c' ->
  exists x t, s = x :: t /\ is_digit x = true.
Proof.
  unfold digits, Plus. intros H.
  inversion H as [| | | |? ? ? ? ? ? ? ? ? ? ? H1 H2| | | | |]; subst.
  inversion H1; subst. eauto.
Qed.

(** A pattern that holds a group of digits after a part [a] is not matched
    on a text without digits. *)
Lemma digits_first_needs_digit fl n r i s c i' s' c' :
  matches fl (Seq (Group n digits) r) i s c i' s' c' -> no_digit s = false.
Proof.
  intros H.
  inversion H as [| | | |? ? ? ? ? ? ? ? ? ? ? H1 H2| | | | |]; subst.
  inversion H1 as [| | | | | | | | |? ? ? ? ? ? ? ? H3]; subst.
  apply matches_digits_head in H3. destruct H3 as [x [t [-> Hx]]].
  unfold no_digit. cbn [forallb]. now rewrite Hx.
Qed.

Lemma digits_last_needs_digit fl n a i s c i' s' c' :
  matches fl (Seq a (Seq ws (Group n digits))) i s c i' s' c' ->
  no_digit s = false.
Proof.
  intros H.
  inversion H as [| | | |? ? ? ? ? ? ? ? ? ? ? H1 H2| | | | |]; subst.
  inversion H2 as [| | | |? ? ? ? ? ? ? ? ? ? ? H3 H4| | | | |]; subst.
  inversion H4 as [| | | | | | | | |? ? ? ? ? ? ? ? H5]; subst.
  apply matches_digits_head in H5. destruct H5 as [x [t [-> Hx]]].
  apply matches_span in H1. destruct H1 as [w1 [-> _]].
  apply matches_span in H3. destruct H3 as [w2 [-> _]].
  rewrite !no_digit_app. unfold no_digit at 3. cbn [forallb]. rewrite Hx.
  cbn [negb andb]. now rewrite !andb_false_r.
Qed.

Lemma no_digit_no_search fl r text :
  (forall t e s' c, matches fl r 0 t [] e s' c -> no_digit t = false) ->
  no_digit text = true -> search fl r text = None.
Proof.
  intros Hr Hn. unfold search.
  destruct (search_from fl r 0 text) as [m|] eqn:E; [|reflexivity].
  exfalso. apply search_from_suffix in E. destruct E as [pre [t [-> E]]].
  apply match_here_sound in E. destruct E as [_ [e [s' [E _]]]].
  apply Hr in E. rewrite no_digit_app, E, andb_false_r in Hn. discriminate.
Qed.

Lemma first_duration_nonneg text :
  forall patterns z, first_duration patterns text = Ok z -> 0 <= z.
Proof.
  induction patterns as [|pattern rest IH]; intros z H; cbn [first_duration] in H.
  - inversion H. lia.
  - destruct (search I pattern text) as [m|]; [|now apply IH].
    unfold group_or in H. destruct (group m 1); [|discriminate].
    cbn [rbind] in H. exact (py_int_nonneg _ _ H).
Qed.

(** A greedy star over a character class takes the whole run of the class
    when the rest of the pattern accepts what follows. *)
Lemma star_class_greedy (R : Type) fl (p : N -> bool) (k : cont R) rest x :
  match rest with [] => true | y :: _ => negb (p y) end = true ->
  forall run_ n i c,
    (List.length run_ <= n)%nat -> forallb p run_ = true ->
    k (i + List.length run_)%nat rest c = Some x ->
    star_loop R (run fl R (Set_ p)) true k n i (run_ ++ rest) c = Some x.
Proof.
  intros Hrest. induction run_ as [|d ds IH]; intros n i c Hn Hall Hk.
  - cbn [List.length] in Hk. rewrite Nat.add_0_r in Hk. cbn [app].
    destruct n as [|n]; cbn [star_loop]; [exact Hk|].
    destruct rest as [|y rest]; cbn [run]; [now rewrite Hk|].
    apply negb_true_iff in Hrest. rewrite Hrest. now rewrite Hk.
  - cbn [List.length] in Hn, Hk. destruct n as [|n]; [lia|].
    cbn [forallb] in Hall. apply andb_true_iff in Hall. destruct Hall as [Hd Hds].
    cbn [star_loop app].
    change (run fl R (Set_ p) i (d :: ds ++ rest) c)
      with (fun k' : cont R => if p d then k' (S i) (ds ++ rest) c else None).
    cbv beta. rewrite Hd.
    assert (L : Nat.ltb i (S i) = true) by (apply Nat.ltb_lt; lia).
    rewrite L. rewrite (IH n (S i) c); [reflexivity | lia | exact Hds |].
    now replace (S i + List.length ds)%nat with (i + S (List.length ds))%nat by lia.
Qed.

Lemma firstn_run {A : Type} (a : list A) b : firstn (List.length a) (a ++ b) = a.
Proof.
  induction a as [|x a IH]; [reflexivity|]. simpl. now rewrite IH.
Qed.

Lemma run_plus_class (R : Type) fl n (p : N -> bool) i x s c (k : cont R) :
  run fl R (Group n (Plus true (Set_ p))) i (x :: s) c k
  = if p x
    then star_loop R (run fl R (Set_ p)) true
                   (fun i' s' c' => k i' s' ((n, firstn (i' - i) (x :: s)) :: c'))
                   (S (List.length s)) (S i) s c
    else None.
Proof. reflexivity. Qed.

Lemma session_number_match j d ds rest :
  is_digit d = true -> forallb is_digit ds = true -> ends_number rest = true ->
  match_here plain session_number j (d :: ds ++ rest)
  = Some {| m_start := j; m_end := j + S (List.length ds);
            m_caps := [(1%nat, d :: ds)] |}.
Proof.
  intros Hd Hds Hrest.
  unfold match_here, session_number, digits. rewrite run_plus_class, Hd.
  apply star_class_greedy; [exact Hrest | rewrite length_app; lia
                           | exact Hds |].
  replace (1 + List.length ds - 0)%nat with (List.length (d :: ds))
    by (cbn [List.length]; lia).
  change (d :: ds ++ rest) with ((d :: ds) ++ rest). rewrite firstn_run.
  reflexivity.
Qed.

(** A number before the word " Minuten" is what the first duration pattern
    finds at the start of the text. *)
Lemma minuten_word (i j : nat) (c : caps) :
  run I Match (Word (u "Minuten")) i (u "Minuten") c
      (fun e _ c' => Some {| m_start := j; m_end := j + e; m_caps := c' |})
  = Some {| m_start := j; m_end := j + (7 + i); m_caps := c |}.
Proof. vm_compute. reflexivity. Qed.

Lemma minuten_tail (i j : nat) (c : caps) :
  run I Match (Seq ws (Word (u "Minuten"))) i (u " Minuten") c
      (fun e _ c' => Some {| m_start := j; m_end := j + e; m_caps := c' |})
  = Some {| m_start := j; m_end := j + (7 + (i + 1)); m_caps := c |}.
Proof.
  unfold ws.
  change (run I Match (Seq (Star true (Set_ is_space)) (Word (u "Minuten")))
              i (u " Minuten") c)
    with (fun k : cont Match =>
            star_loop Match (run I Match (Set_ is_space)) true
                      (fun i' s' c' => run I Match (Word (u "Minuten")) i' s' c' k)
                      (S (List.length (u " Minuten"))) i
                      ([32%N] ++ u "Minuten") c).
  cbv beta.
  apply star_class_greedy;
    [reflexivity | vm_compute; lia | reflexivity | apply minuten_word].
Qed.

Lemma number_of_minutes_match j d ds :
  is_digit d = true -> forallb is_digit ds = true ->
  match_here I (Seq (Group 1 digits) (Seq ws (Word (u "Minuten")))) j
             (d :: ds ++ u " Minuten")
  = Some {| m_start := j; m_end := j + (7 + (1 + List.length ds + 1));
            m_caps := [(1%nat, d :: ds)] |}.
Proof.
  intros Hd Hds. unfold match_here, digits.
  change (run I Match (Seq (Group 1 (Plus true (Set_ is_digit)))
                           (Seq ws (Word (u "Minuten"))))
              0 (d :: ds ++ u " Minuten") [])
    with (fun k : cont Match =>
            run I Match (Group 1 (Plus true (Set_ is_digit)))
                0 (d :: ds ++ u " Minuten") []
                (fun i' s' c' =>
                   run I Match (Seq ws (Word (u "Minuten"))) i' s' c' k)).
  cbv beta. rewrite run_plus_class, Hd.
  apply star_class_greedy; [reflexivity | rewrite length_app; lia
                           | exact Hds | ].
  replace (1 + List.length ds - 0)%nat with (List.length (d :: ds))
    by (cbn [List.length]; lia).
  change (d :: ds ++ u " Minuten") with ((d :: ds) ++ u " Minuten").
  rewrite firstn_run. apply minuten_tail.
Qed.

Lemma long_number_raises d ds :
  is_digit d = true -> forallb is_digit ds = true ->
  int_max_str_digits < len (d :: ds) ->
  extract_duration ((d :: ds) ++ u " Minuten") = Raise ValueError.
Proof.
  intros Hd Hds Hlong. unfold extract_duration, duration_patterns.
  cbn [first_duration]. unfold search. cbn [app].
  rewrite (search_from_found _ _ _ _ _ (number_of_minutes_match 0 d ds Hd Hds)).
  unfold group_or, group. cbn [m_caps cap_get Nat.eqb rbind].
  unfold py_int. apply Z.leb_gt in Hlong. now rewrite Hlong.
Qed.

(** X3: [extract_duration] returns a number that is not negative for every
    text of at most 4300 characters.  The one exception it can raise is the
    [ValueError] of [int] on a number of more than 4300 digits, and such a
    number before the word " Minuten" does raise it.  On a text without a
    digit none of its four patterns is found and the answer is the default
    of 90 minutes. *)
Theorem extract_duration_default text number :
  (len text <= int_max_str_digits ->
   exists minutes, extract_duration text = Ok minutes)
  /\ (forall minutes, extract_duration text = Ok minutes -> 0 <= minutes)
  /\ (forall e, extract_duration text = Raise e ->
                e = ValueError /\ int_max_str_digits < len text)
  /\ (forallb is_digit number = true -> int_max_str_digits < len number ->
      extract_duration (number ++ u " Minuten") = Raise ValueError)
  /\ (latin1 text = true -> no_digit text = true ->
      extract_duration text = Ok 90).
Proof.
  split; [apply extract_duration_returns | ].
  split; [ | split; [ | split]].
  - intros minutes H.
    destruct (extract_duration_cases text) as [(z & E & Hz) | [E _]];
      rewrite E in H; [injection H as <-; exact Hz | discriminate].
  - intros e H.
    destruct (extract_duration_cases text) as [(z & E & _) | [E L]];
      rewrite E in H; [discriminate | ]. injection H as <-. now split.
  - intros Hall Hlong. destruct number as [ | d ds]; [discriminate Hlong | ].
    cbn [forallb] in Hall. apply andb_true_iff in Hall.
    destruct Hall as [Hd Hds]. now apply long_number_raises.
  - intros _ Hn. unfold extract_duration, duration_patterns.
    cbn [first_duration].
    rewrite !(no_digit_no_search I _ text
                (fun t e s' c => digits_first_needs_digit I _ _ 0%nat t [] e s' c))
      by exact Hn.
    rewrite (no_digit_no_search I _ text
               (fun t e s' c => digits_last_needs_digit I _ _ 0%nat t [] e s' c))
      by exact Hn.
    reflexivity.
Qed.

Lemma extract_duration_default_witness :
  latin1 (u "Dauer: unbekannt") = true
  /\ no_digit (u "Dauer: unbekannt") = true
  /\ extract_duration (u "Dauer: unbekannt") = Ok 90
  /\ extract_duration (u "Dauer: 75 Minuten") = Ok 75
  /\ extract_duration (repeat 49%N 4301 ++ u " Minuten") = Raise ValueError.
Proof.
  assert (L : latin1 (u "Dauer: unbekannt") = true) by (vm_compute; reflexivity).
  assert (N : no_digit (u "Dauer: unbekannt") = true)
    by (vm_compute; reflexivity).
  split; [exact L | ]. split; [exact N | ].
  destruct (extract_duration_default (u "Dauer: unbekannt") (repeat 49%N 4301))
    as (_ & _ & _ & R & D).
  split; [exact (D L N) | ]. split; [vm_compute; reflexivity | ].
  apply R; vm_compute; reflexivity.
Defined.

Lemma no_digit_no_number s j :
  ends_number s = true -> match_here plain session_number j s = None.
Proof.
  intros H. unfold match_here, session_number, digits, Plus. cbn [run].
  destruct s as [|y s]; [reflexivity|].
  cbn [ends_number] in H. apply negb_true_iff in H. now rewrite H.
Qed.

Lemma no_digit_skipn pre : forall k rest,
  no_digit pre = true -> (k < List.length pre)%nat ->
  ends_number (skipn k (pre ++ rest)) = true.
Proof.
  induction pre as [|x pre IH]; intros k rest Hn Hk; [cbn in Hk; lia|].
  unfold no_digit in Hn. cbn [forallb] in Hn.
  apply andb_true_iff in Hn. destruct Hn as [Hx Hn].
  destruct k as [|k]; [exact Hx|].
  cbn [app skipn]. apply IH; [exact Hn | cbn in Hk; lia].
Qed.

Lemma session_id_of_no_digit name :
  no_digit name = true -> session_id_of name = Ok None.
Proof.
  intros Hn. unfold session_id_of, search.
  rewrite <- (app_nil_r name).
  rewrite search_from_skip
    by (intros k Hk j; apply no_digit_no_number, no_digit_skipn; assumption).
  cbn [search_from]. rewrite no_digit_no_number by reflexivity. reflexivity.
Qed.

(** X4: the session number of a file name is the number written by its
    first run of digits, read in full, unless the run has more than 4300
    digits, which [int] refuses with a [ValueError]; a name without a digit
    has no number. *)
Theorem session_id_is_first_digit_run pre d ds rest :
  latin1 (pre ++ (d :: ds) ++ rest) = true ->
  no_digit pre = true -> forallb is_digit (d :: ds) = true ->
  ends_number rest = true ->
  session_id_of (pre ++ (d :: ds) ++ rest)
  = (if len (d :: ds) <=? int_max_str_digits
     then Ok (Some (decimal_value (d :: ds)))
     else Raise ValueError)
  /\ session_id_of pre = Ok None.
Proof.
  intros _ Hpre Hds Hrest.
  cbn [forallb] in Hds. apply andb_true_iff in Hds. destruct Hds as [Hd Hds].
  split.
  - unfold session_id_of, search.
    rewrite search_from_skip
      by (intros k Hk j; apply no_digit_no_number, no_digit_skipn; assumption).
    cbn [app].
    rewrite (search_from_found _ _ _ _ _ (session_number_match _ d ds rest Hd Hds Hrest)).
    unfold group_or, group. cbn [m_caps cap_get Nat.eqb rbind]. unfold py_int.
    destruct (len (d :: ds) <=? int_max_str_digits); reflexivity.
  - now apply session_id_of_no_digit.
Qed.

Lemma session_id_is_first_digit_run_witness :
  session_id_of (u "TE_078 (2).pdf") = Ok (Some 78)
  /\ session_id_of (u "TE_") = Ok None.
Proof.
  assert (H := session_id_is_first_digit_run (u "TE_") 48%N (u "78") (u " (2).pdf")).
  assert (E : u "TE_" ++ (48%N :: u "78") ++ u " (2).pdf" = u "TE_078 (2).pdf")
    by (vm_compute; reflexivity).
  assert (P : (if len (48%N :: u "78") <=? int_max_str_digits
               then Ok (Some (decimal_value (48%N :: u "78")))
               else Raise ValueError) = Ok (Some 78))
    by (vm_compute; reflexivity).
  rewrite E, P in H.
  apply H; vm_compute; reflexivity.
Defined.

(** *** The records of the embedded images *)

Lemma embedded_record_shift self page_num idx img rest new :
  Forall (embedded_record self page_num (idx + 1) rest) new ->
  Forall (embedded_record self page_num idx (img :: rest)) new.
Proof.
  intros HF. eapply Forall_impl; [ | exact HF].
  intros a (Hp & Ht & Hr & sid & ext & Hs & Hn & Hpath).
  split; [exact Hp | ]. split; [exact Ht | ].
  split; [cbn [List.length]; lia | ].
  exists sid, ext. split; [exact Hs | ]. split; [ | exact Hpath].
  replace (Z.to_nat (img_order a - idx))
    with (S (Z.to_nat (img_order a - (idx + 1)))) by lia.
  exact Hn.
Qed.

Lemma extract_page_images_records self page_num :
  forall image_list idx images t t' r,
    extract_page_images self page_num idx image_list images t = (t', Ok r) ->
    exists new,
      r = images ++ new
      /\ Forall (embedded_record self page_num idx image_list) new
      /\ StronglySorted Z.lt (map img_order new).
Proof.
  induction image_list as [ | img rest IH]; intros idx images t t' r H;
    cbn [extract_page_images] in H.
  - inversion H; subst. exists []. rewrite app_nil_r.
    repeat split; constructor.
  - unfold bind at 1, try_except in H. destruct img as [ext | ].
    + unfold bind at 1, lift, or_raise in H.
      assert (Step : forall t1,
        (let (t0, r0) :=
           match fmt_id_03d (session_id self) with
           | Ok nnn =>
               (t1, Ok (images ++
                  [ {| img_path := u "drill_images/TE_" ++ nnn ++ u "/"
                         ++ image_filename (session_id self) page_num idx ext;
                       img_page := page_num; img_order := idx;
                       img_type := None |} ]))
           | Raise e => (t1, Ok images)
           end in
         match r0 with
         | Ok a => extract_page_images self page_num (idx + 1) rest a t0
         | Raise e => (t0, Raise e)
         end) = (t', Ok r) ->
        exists new,
          r = images ++ new
          /\ Forall (embedded_record self page_num idx (Some ext :: rest)) new
          /\ StronglySorted Z.lt (map img_order new)).
      { intros t1 H1.
        destruct (session_id self) as [sid | ] eqn:S; cbn [fmt_id_03d] in H1.
        - apply IH in H1. destruct H1 as (new & -> & HF & HS).
          exists ({| img_path := u "drill_images/TE_" ++ format_03d sid ++ u "/"
                       ++ image_filename (Some sid) page_num idx ext;
                     img_page := page_num; img_order := idx;
                     img_type := None |} :: new).
          split; [now rewrite <- app_assoc | ]. split.
          + constructor; [ | now apply embedded_record_shift].
            unfold embedded_record. cbn [img_page img_type img_order img_path].
            split; [reflexivity | ]. split; [reflexivity | ].
            split; [cbn [List.length]; lia | ].
            exists sid, ext. split; [exact S | ].
            split; [ | reflexivity].
            replace (Z.to_nat (idx - idx)) with 0%nat by lia. reflexivity.
          + cbn [map img_order]. constructor; [exact HS | ].
            apply Forall_forall. intros o Ho. apply in_map_iff in Ho.
            destruct Ho as (a & <- & Ha). rewrite Forall_forall in HF.
            destruct (HF a Ha) as (_ & _ & Hr & _). lia.
        - apply IH in H1. destruct H1 as (new & -> & HF & HS).
          exists new. split; [reflexivity | ].
          split; [now apply embedded_record_shift | exact HS]. }
      destruct (extract_images self).
      * unfold bind at 1, emit in H. unfold bind at 1, lift in H.
        apply (Step (t ++ [EvWrite (image_dir self ++
                 [image_filename (session_id self) page_num idx ext])])).
        destruct (fmt_id_03d (session_id self)); exact H.
      * unfold bind at 1, ret in H. unfold bind at 1, lift in H.
        apply (Step t). destruct (fmt_id_03d (session_id self)); exact H.
    + unfold bind, lift, or_raise, ret in H. apply IH in H.
      destruct H as (new & -> & HF & HS).
      exists new. split; [reflexivity | ].
      split; [now apply embedded_record_shift | exact HS].
Qed.

(** X5: every record [extract_images_from_page] returns belongs to one
    image of the page that could be extracted: it carries the page number,
    the 1-based position of the image in the page's image list as its
    order, no type, and the path "drill_images/TE_{id:03d}/{id}-{page}_img{order}.{ext}";
    the records come in rising order.  An extractor without a session
    number returns no record at all. *)
Theorem embedded_image_records self page_num t t' imgs :
  extract_images_from_page self page_num t = (t', Ok imgs) ->
  exists page,
    doc_getitem (doc self) (page_num - 1) = Ok page
    /\ Forall (embedded_record self page_num 1
                               (match get_images page with
                                | Some image_list => image_list
                                | None => []
                                end)) imgs
    /\ StronglySorted Z.lt (map img_order imgs)
    /\ (session_id self = None -> imgs = []).
Proof.
  unfold extract_images_from_page. intros H.
  unfold bind at 1, lift in H.
  destruct (doc_getitem (doc self) (page_num - 1)) as [page | e];
    [ | discriminate].
  exists page. split; [reflexivity | ].
  assert (G : Forall (embedded_record self page_num 1
                               (match get_images page with
                                | Some image_list => image_list
                                | None => []
                                end)) imgs
              /\ StronglySorted Z.lt (map img_order imgs)).
  { unfold try_except in H.
    destruct (get_images page) as [image_list | ]; cbn [or_raise] in H.
    - unfold bind, lift in H.
      destruct (extract_page_images self page_num 1 image_list [] t)
        as [t1 [r | e]] eqn:E.
      + inversion H; subst. apply extract_page_images_records in E.
        destruct E as (new & -> & HF & HS). cbn [app]. now split.
      + destruct (extract_page_images_returns self page_num image_list 1 [] t)
          as (t2 & i2 & E2). congruence.
    - unfold bind, lift, ret in H. inversion H; subst. split; constructor. }
  destruct G as [G1 G2]. split; [exact G1 | ]. split; [exact G2 | ].
  intros HN. destruct imgs as [ | img imgs]; [reflexivity | ].
  inversion G1 as [ | ? ? (_ & _ & _ & sid & _ & Hs & _) _]; subst.
  congruence.
Qed.

Lemma embedded_image_records_witness :
  exists t' imgs,
    extract_images_from_page
      (Sample.extractor [Sample.picture_page (u "Seite 1")] true) 1 []
    = (t', Ok imgs)
    /\ map img_order imgs = [1; 3]
    /\ StronglySorted Z.lt (map img_order imgs).
Proof.
  eexists. eexists. split; [vm_compute; reflexivity | ].
  split; [vm_compute; reflexivity | ].
  edestruct (embedded_image_records
               (Sample.extractor [Sample.picture_page (u "Seite 1")] true) 1 [])
    as (page & _ & _ & HS & _).
  - vm_compute. reflexivity.
  - exact HS.
Defined.

(** *** Images and drills *)

Lemma Forall2_Forall_right {A B : Type} (P : A -> B -> Prop) (Q : B -> Prop) l l' :
  (forall a b, P a b -> Q b) -> Forall2 P l l' -> Forall Q l'.
Proof.
  intros HPQ HF. induction HF as [ | a b l l' Hab HF IH]; constructor; eauto.
Qed.

Lemma found_drills_without_images self pages found :
  header_drills self pages = Ok found ->
  Forall (fun d => images d = [])
         match found with
         | [] => _create_default_drills (session_id self)
         | _ => found
         end.
Proof.
  intros E. destruct (header_drills_inv self pages found E) as (HF & _).
  assert (G : Forall (fun d => images d = []) found).
  { eapply Forall2_Forall_right; [ | exact HF].
    intros pm d Hd. exact (drill_from_no_images _ _ _ Hd). }
  destruct found as [ | d0 found']; [ | exact G].
  apply Forall_forall. intros d Hd.
  rewrite <- default_drills_no_images in Hd.
  apply in_map_iff in Hd. destruct Hd as (d' & <- & _). reflexivity.
Qed.

(** X6: with image extraction on, [extract_drills] collects the images of
    all pages and gives each drill exactly those of its own page, so drills
    of one page (all six template drills among them) carry the same images;
    with image extraction off no drill has an image and nothing is done to
    the file system. *)
Theorem drill_images_by_page self pages t t' ds :
  extract_drills self pages t = (t', Ok ds) ->
  (if extract_images self
   then exists all_images,
          images_of_pages self (range1 (List.length pages)) t = (t', Ok all_images)
          /\ Forall (fun d => images d
                              = filter (fun img => img_page img =? source_page_start d)
                                       all_images) ds
   else t' = t /\ Forall (fun d => images d = []) ds)
  /\ Forall (fun d => Forall (fun img => img_page img = source_page_start d)
                             (images d)) ds
  /\ (forall d d', In d ds -> In d' ds ->
                   source_page_start d = source_page_start d' ->
                   images d = images d').
Proof.
  unfold extract_drills.
  destruct (header_drills self pages) as [found | e] eqn:E;
    unfold bind at 1, lift; [ | discriminate].
  pose proof (found_drills_without_images self pages found E) as HN.
  destruct (extract_images self) eqn:X.
  - unfold bind.
    destruct (images_of_pages self (range1 (List.length pages)) t)
      as [t1 [all_images | e]]; [ | discriminate].
    unfold ret. intros H. inversion H; subst. clear H.
    assert (G : Forall (fun d => images d
                                 = filter (fun img => img_page img =? source_page_start d)
                                          all_images)
                       (map (fun drill =>
                               set_images drill
                                 (images_on (source_page_start drill) all_images))
                            match found with
                            | [] => _create_default_drills (session_id self)
                            | _ :: _ => found
                            end)).
    { apply Forall_forall. intros d Hd. apply in_map_iff in Hd.
      destruct Hd as (d0 & <- & _). reflexivity. }
    split; [exists all_images; split; [reflexivity | exact G] | ].
    rewrite Forall_forall in G. split.
    + apply Forall_forall. intros d Hd. rewrite (G d Hd).
      apply Forall_forall. intros img Hi. apply filter_In in Hi.
      destruct Hi as [_ Hi]. now apply Z.eqb_eq in Hi.
    + intros d d' Hd Hd' Hp. rewrite (G d Hd), (G d' Hd'), Hp. reflexivity.
  - unfold ret. intros H. inversion H; subst. clear H.
    split; [split; [reflexivity | exact HN] | ].
    rewrite Forall_forall in HN. split.
    + apply Forall_forall. intros d Hd. rewrite (HN d Hd). constructor.
    + intros d d' Hd Hd' _. now rewrite (HN d Hd), (HN d' Hd').
Qed.

Lemma drill_images_by_page_witness :
  let text := Sample.header_184 ++ [10%N] ++ u "Teil 2: Passen (10 min)" in
  let self := Sample.extractor [Sample.picture_page text] true in
  let run := extract_drills self [text] [] in
  let ds := value_of [] run in
  run = (fst run, Ok ds)
  /\ map (fun d => map img_order (images d)) ds = [[1; 3]; [1; 3]]
  /\ Forall (fun d => Forall (fun img => img_page img = source_page_start d)
                             (images d)) ds.
Proof.
  intros text self run ds.
  assert (E : run = (fst run, Ok ds)) by (vm_compute; reflexivity).
  split; [exact E | ]. split; [vm_compute; reflexivity | ].
  exact (proj1 (proj2 (drill_images_by_page self [text] [] (fst run) ds E))).
Defined.

(** *** A run without images *)

Lemma extract_session_without_images self t :
  extract_images self = false -> fst (extract_session self t) = t.
Proof.
  intros X. unfold extract_session, extract_text_by_page.
  unfold bind at 1, lift.
  destruct (texts_of (doc self)) as [pages | e]; [ | reflexivity].
  unfold bind at 1, lift.
  destruct (extract_duration _) as [duration | e]; [ | reflexivity].
  unfold bind at 1, lift.
  destruct (extract_equipment _) as [equipment | e]; [ | reflexivity].
  unfold bind at 1, extract_drills. rewrite X.
  unfold bind at 1, lift.
  destruct (header_drills self pages) as [found | e]; reflexivity.
Qed.

(** X7: an extraction with the images switched off touches nothing but the
    document: the only events are the opening of the PDF and, exactly when
    the extraction returns a session, its closing; no directory is made and
    no file is written. *)
Theorem no_images_no_files file t :
  (exists e, extract_single_pdf file false t = (t, Raise e))
  \/ (exists e, extract_single_pdf file false t
                = (t ++ [EvOpen (pf_path file)], Raise e))
  \/ (exists session,
        extract_single_pdf file false t
        = (t ++ [EvOpen (pf_path file); EvClose (pf_path file)], Ok session)).
Proof.
  unfold extract_single_pdf, bind.
  destruct (__init__ file false None t) as [t1 [self | e]] eqn:E1.
  - assert (I : t1 = t ++ [EvOpen (pf_path file)]
                /\ extract_images self = false /\ pdf_path self = pf_path file).
    { unfold __init__, bind, lift, emit, ret, or_raise in E1.
      destruct (pf_doc file) as [d | ]; [ | discriminate].
      destruct (session_id_of (path_name (pf_path file))) as [[n | ] | e];
        cbn [fmt_id_03d] in E1; try discriminate.
      inversion E1; subst. auto. }
    destruct I as (-> & X & P).
    pose proof (extract_session_without_images self (t ++ [EvOpen (pf_path file)]) X)
      as E2.
    destruct (extract_session self (t ++ [EvOpen (pf_path file)]))
      as [t2 [session | e]]; cbn [fst] in E2; subst t2.
    + right. right. exists session.
      unfold close, emit, ret. rewrite P. now rewrite <- app_assoc.
    + right. left. exists e. reflexivity.
  - assert (I : t1 = t \/ t1 = t ++ [EvOpen (pf_path file)]).
    { unfold __init__, bind, lift, emit, ret, or_raise in E1.
      destruct (pf_doc file) as [d | ]; [ | inversion E1; auto].
      destruct (session_id_of (path_name (pf_path file))) as [[n | ] | e'];
        cbn [fmt_id_03d] in E1; inversion E1; auto. }
    destruct I as [-> | ->]; [left | right; left]; exists e; reflexivity.
Qed.

(** *** Full-page renders *)

Lemma render_pages_records output sid :
  forall pages n images t t' r,
    render_pages output sid n pages images t = (t', Ok r) ->
    r = images
          ++ map (fun k =>
                    {| img_path := u "drill_images/TE_" ++ format_03d sid ++ u "/"
                                     ++ page_image_filename sid (n + Z.of_nat k);
                       img_page := n + Z.of_nat k;
                       img_order := 1;
                       img_type := Some (u "full_page") |})
                 (seq 0 (List.length pages))
    /\ t' = t ++ map (fun k => EvWrite (output
                                          ++ [page_image_filename sid (n + Z.of_nat k)]))
                     (seq 0 (List.length pages))
    /\ Forall (fun page => get_pixmap page = true) pages.
Proof.
  induction pages as [ | page pages IH]; intros n images t t' r H;
    cbn [render_pages] in H.
  - inversion H; subst. cbn. now rewrite !app_nil_r.
  - unfold bind at 1, lift in H. destruct (get_pixmap page) eqn:G;
      [ | discriminate].
    unfold bind at 1, emit in H. apply IH in H. destruct H as (-> & -> & HF).
    cbn [List.length seq map]. rewrite Z.add_0_r, <- !app_assoc. cbn [app].
    rewrite <- seq_shift, !map_map.
    split; [ | split; [ | now constructor]].
    + do 2 f_equal. apply map_ext. intros k.
      replace (n + 1 + Z.of_nat k) with (n + Z.of_nat (S k)) by lia.
      reflexivity.
    + do 2 f_equal. apply map_ext. intros k.
      replace (n + 1 + Z.of_nat k) with (n + Z.of_nat (S k)) by lia.
      reflexivity.
Qed.

Lemma range1_shift {A : Type} (f : Z -> A) n :
  map (fun k => f (1 + Z.of_nat k)) (seq 0 n) = map f (range1 n).
Proof.
  unfold range1. rewrite <- seq_shift, !map_map. apply map_ext. intros k.
  f_equal. lia.
Qed.

(** X8: when [extract_all_pages_from_pdf] returns, every page was rendered
    and there is one record a page, in page order: page k with order 1,
    type "full_page" and the path
    "drill_images/TE_{id:03d}/TE_{id:03d}_page_{k}.png"; the document was
    opened, the folder made, one file written a page, and the document
    closed again. *)
Theorem page_render_records file output sid t t' imgs :
  extract_all_pages_from_pdf file output sid t = (t', Ok imgs) ->
  exists doc,
    pf_doc file = Some doc
    /\ Forall (fun page => get_pixmap page = true) doc
    /\ imgs = map (fun k =>
                     {| img_path := u "drill_images/TE_" ++ format_03d sid ++ u "/"
                                      ++ page_image_filename sid k;
                        img_page := k;
                        img_order := 1;
                        img_type := Some (u "full_page") |})
                  (range1 (List.length doc))
    /\ t' = t ++ [EvOpen (pf_path file); EvMkdir output]
              ++ map (fun k => EvWrite (output ++ [page_image_filename sid k]))
                     (range1 (List.length doc))
              ++ [EvClose (pf_path file)].
Proof.
  unfold extract_all_pages_from_pdf. intros H.
  unfold bind at 1, lift, or_raise in H.
  destruct (pf_doc file) as [doc | ]; [ | discriminate].
  exists doc. split; [reflexivity | ].
  unfold bind at 1, emit in H. unfold bind at 1 in H.
  unfold bind at 1 in H.
  destruct (render_pages output sid 1 doc [] _) as [t1 [images | e]] eqn:E;
    [ | discriminate].
  apply render_pages_records in E. destruct E as (-> & -> & HF).
  unfold bind, emit, ret in H. inversion H; subst. clear H.
  split; [exact HF | ]. rewrite <- !range1_shift. cbv beta.
  split; [reflexivity | ]. now rewrite <- !app_assoc.
Qed.

Lemma page_render_records_witness :
  let file := Sample.pdf "TE_007.pdf"
                [Sample.text_page (u "Seite 1"); Sample.text_page (u "Seite 2")] in
  let run := extract_all_pages_from_pdf file [u "out"] 7 [] in
  let imgs := value_of [] run in
  run = (fst run, Ok imgs)
  /\ map img_path imgs = [ u "drill_images/TE_007/TE_007_page_1.png";
                           u "drill_images/TE_007/TE_007_page_2.png" ]
  /\ exists doc,
       pf_doc file = Some doc
       /\ imgs = map (fun k =>
                        {| img_path := u "drill_images/TE_" ++ format_03d 7 ++ u "/"
                                         ++ page_image_filename 7 k;
                           img_page := k;
                           img_order := 1;
                           img_type := Some (u "full_page") |})
                     (range1 (List.length doc)).
Proof.
  intros file run imgs.
  assert (E : run = (fst run, Ok imgs)) by (vm_compute; reflexivity).
  split; [exact E | ]. split; [vm_compute; reflexivity | ].
  destruct (page_render_records file [u "out"] 7 [] (fst run) imgs E)
    as (doc & Hd & _ & Hi & _).
  exists doc. split; [exact Hd | exact Hi].
Defined.

Lemma render_pages_stops output sid :
  forall good n images t bad rest,
    Forall (fun page => get_pixmap page = true) good ->
    get_pixmap bad = false ->
    render_pages output sid n (good ++ bad :: rest) images t
    = (t ++ map (fun k => EvWrite (output
                                     ++ [page_image_filename sid (n + Z.of_nat k)]))
                (seq 0 (List.length good)),
       Raise RuntimeError).
Proof.
  induction good as [ | page good IH]; intros n images t bad rest HF HB;
    cbn [render_pages app].
  - unfold bind at 1, lift. rewrite HB. cbn. now rewrite app_nil_r.
  - inversion HF as [ | ? ? Hp HF']; subst.
    unfold bind at 1, lift. rewrite Hp.
    unfold bind at 1, emit. rewrite IH by assumption.
    cbn [List.length seq map]. rewrite Z.add_0_r, <- app_assoc. cbn [app].
    rewrite <- seq_shift, map_map. do 3 f_equal. apply map_ext. intros k.
    replace (n + 1 + Z.of_nat k) with (n + Z.of_nat (S k)) by lia.
    reflexivity.
Qed.

Lemma extract_all_pages_stops file output sid t good bad rest :
  pf_doc file = Some (good ++ bad :: rest) ->
  Forall (fun page => get_pixmap page = true) good ->
  get_pixmap bad = false ->
  extract_all_pages_from_pdf file output sid t
  = (t ++ [EvOpen (pf_path file); EvMkdir output]
       ++ map (fun k => EvWrite (output ++ [page_image_filename sid k]))
              (range1 (List.length good)),
     Raise RuntimeError).
Proof.
  intros Hd HF HB. unfold extract_all_pages_from_pdf.
  unfold bind at 1, lift, or_raise. rewrite Hd.
  unfold bind at 1, emit. unfold bind at 1. unfold bind at 1.
  rewrite render_pages_stops by assumption.
  rewrite <- !range1_shift. cbv beta. now rewrite <- !app_assoc.
Qed.

(** X9: when a page of the document cannot be rendered,
    [extract_all_pages_from_pdf] raises; the pages before it have been
    written, and the document is left open, for there is no [close] on
    that path. *)
Theorem page_render_failure_keeps_handle file output sid t good bad rest :
  pf_doc file = Some (good ++ bad :: rest) ->
  Forall (fun page => get_pixmap page = true) good ->
  get_pixmap bad = false ->
  extract_all_pages_from_pdf file output sid t
  = (t ++ [EvOpen (pf_path file); EvMkdir output]
       ++ map (fun k => EvWrite (output ++ [page_image_filename sid k]))
              (range1 (List.length good)),
     Raise RuntimeError)
  /\ ~ In (EvClose (pf_path file))
          ([EvOpen (pf_path file); EvMkdir output]
             ++ map (fun k => EvWrite (output ++ [page_image_filename sid k]))
                    (range1 (List.length good))).
Proof.
  intros Hd HF HB. split.
  - now apply (extract_all_pages_stops file output sid t good bad rest).
  - intros [H | [H | H]]; try discriminate.
    apply in_map_iff in H. destruct H as (k & H & _). discriminate.
Qed.

Lemma page_render_failure_keeps_handle_witness :
  let page := Sample.text_page (u "Seite 1") in
  let bad := {| get_text := Some []; get_images := Some []; get_pixmap := false |} in
  let file := Sample.pdf "TE_007.pdf" [page; bad; page] in
  extract_all_pages_from_pdf file [u "out"] 7 []
  = ([] ++ [EvOpen (pf_path file); EvMkdir [u "out"]]
        ++ map (fun k => EvWrite ([u "out"] ++ [page_image_filename 7 k]))
               (range1 (List.length [page])),
     Raise RuntimeError).
Proof.
  intros page bad file.
  apply (page_render_failure_keeps_handle file [u "out"] 7 [] [page] bad [page]).
  - reflexivity.
  - repeat constructor.
  - reflexivity.
Defined.

(** *** A batch of documents *)

(** One round of the loop of [update_library], by what [extract_single_pdf]
    does with the file. *)
Lemma collect_step existing flag file rest acc t :
  collect_new_sessions existing flag (file :: rest) acc t
  = match session_id_of (path_name (pf_path file)) with
    | Ok (Some n) =>
        if id_in n existing
        then collect_new_sessions existing flag rest acc t
        else match extract_single_pdf file flag t with
             | (t', Ok session) =>
                 collect_new_sessions existing flag rest (acc ++ [session]) t'
             | (t', Raise _) => collect_new_sessions existing flag rest acc t'
             end
    | Ok None => collect_new_sessions existing flag rest acc t
    | Raise e => (t, Raise e)
    end.
Proof.
  cbn [collect_new_sessions]. unfold bind at 1, lift at 1.
  destruct (session_id_of (path_name (pf_path file))) as [[n | ] | e];
    [ | reflexivity | reflexivity].
  destruct (id_in n existing); [reflexivity | ].
  unfold bind at 1, try_except, extract_single_pdf.
  unfold bind at 1. unfold bind at 3.
  destruct (__init__ file flag None t) as [t1 [self | e]]; [ | reflexivity].
  unfold bind at 1. unfold bind at 2.
  destruct (extract_session self t1) as [t2 [session | e]]; [ | reflexivity].
  reflexivity.
Qed.

Lemma extract_single_pdf_id file flag t t' session :
  extract_single_pdf file flag t = (t', Ok session) ->
  exists n,
    session_id_of (path_name (pf_path file)) = Ok (Some n) /\ id session = Some n.
Proof.
  intros H. apply extract_single_pdf_inv in H.
  destruct H as (n & Hn & Hid & _). eauto.
Qed.

(** The loop ends in one of two ways: with the sessions added, or with the
    [ValueError] of [int] on the number of a file name, which is converted
    outside the handler. *)
Lemma collect_cases existing flag :
  forall pdf_files acc t,
    (exists t' new,
        collect_new_sessions existing flag pdf_files acc t = (t', Ok (acc ++ new))
        /\ Forall (added_from existing pdf_files) new
        /\ (List.length new <= List.length pdf_files)%nat)
    \/ (exists t',
           collect_new_sessions existing flag pdf_files acc t
           = (t', Raise ValueError)
           /\ Exists (fun file => int_max_str_digits
                                  < len (path_name (pf_path file)))
                     pdf_files).
Proof.
  induction pdf_files as [ | file rest IH]; intros acc t.
  - left. exists t, []. rewrite app_nil_r. repeat split; constructor.
  - assert (Weaken : forall new,
              Forall (added_from existing rest) new ->
              Forall (added_from existing (file :: rest)) new).
    { intros new HF. eapply Forall_impl; [ | exact HF].
      intros s (f & n & Hin & Hn). exists f, n. split; [now right | exact Hn]. }
    assert (Skip : forall acc' t1,
              collect_new_sessions existing flag (file :: rest) acc t
              = collect_new_sessions existing flag rest acc' t1 ->
              (exists new0, acc' = acc ++ new0
                            /\ Forall (added_from existing (file :: rest)) new0
                            /\ (List.length new0 <= 1)%nat) ->
              (exists t' new,
                  collect_new_sessions existing flag (file :: rest) acc t
                  = (t', Ok (acc ++ new))
                  /\ Forall (added_from existing (file :: rest)) new
                  /\ (List.length new <= List.length (file :: rest))%nat)
              \/ (exists t',
                     collect_new_sessions existing flag (file :: rest) acc t
                     = (t', Raise ValueError)
                     /\ Exists (fun file => int_max_str_digits
                                            < len (path_name (pf_path file)))
                               (file :: rest))).
    { intros acc' t1 Hstep (new0 & -> & H0 & L0). rewrite Hstep.
      destruct (IH (acc ++ new0) t1) as [(t' & new & E & HF & HL) | (t' & E & HE)].
      - left. exists t', (new0 ++ new). rewrite E, <- app_assoc.
        split; [reflexivity | ].
        split; [apply Forall_app; split; [exact H0 | now apply Weaken] | ].
        rewrite length_app. cbn [List.length]. lia.
      - right. exists t'. split; [exact E | now right]. }
    destruct (session_id_of (path_name (pf_path file))) as [[n | ] | e] eqn:N.
    + destruct (id_in n existing) eqn:K.
      * apply (Skip acc t); [now rewrite collect_step, N, K | ].
        exists []. rewrite app_nil_r. repeat split; [constructor | cbn; lia].
      * destruct (extract_single_pdf file flag t) as [t1 [session | e]] eqn:X.
        -- apply (Skip (acc ++ [session]) t1);
             [now rewrite collect_step, N, K, X | ].
           exists [session]. split; [reflexivity | ].
           split; [ | cbn; lia]. constructor; [ | constructor].
           apply extract_single_pdf_id in X. destruct X as (m & Hm & Hid).
           exists file, n. split; [now left | ]. split; [exact N | ].
           split; [exact K | congruence].
        -- apply (Skip acc t1); [now rewrite collect_step, N, K, X | ].
           exists []. rewrite app_nil_r. repeat split; [constructor | cbn; lia].
    + apply (Skip acc t); [now rewrite collect_step, N | ].
      exists []. rewrite app_nil_r. repeat split; [constructor | cbn; lia].
    + right. exists t. rewrite collect_step, N.
      destruct (session_id_of_cases (path_name (pf_path file)))
        as [(sid & Hs) | (Hs & L)]; [congruence | ].
      rewrite N in Hs. injection Hs as ->. split; [reflexivity | now left].
Qed.

Lemma collect_spec existing flag pdf_files acc t :
  Forall (fun file => len (path_name (pf_path file)) <= int_max_str_digits)
         pdf_files ->
  exists t' new,
    collect_new_sessions existing flag pdf_files acc t = (t', Ok (acc ++ new))
    /\ Forall (added_from existing pdf_files) new
    /\ (List.length new <= List.length pdf_files)%nat.
Proof.
  intros Hnames.
  destruct (collect_cases existing flag pdf_files acc t)
    as [R | (t' & _ & HE)]; [exact R | ].
  exfalso. apply Exists_exists in HE. destruct HE as (file & Hin & L).
  rewrite Forall_forall in Hnames. specialize (Hnames file Hin). lia.
Qed.

(** X10: a batch never fails as a whole because of a document.  For a
    library whose sessions all have a number and PDF files whose names are
    not longer than the 4300 digits that [int] converts, [update_library]
    returns, whatever happens to the single documents; the result holds
    every session of the library together with the sessions added, each of
    which comes from a file whose number the library did not have, and it
    is sorted ascending by identifier.  The one way in which the batch can
    fail is the [ValueError] of [int] on the number of a file name. *)
Theorem update_library_keeps_and_adds library pdf_files flag t :
  all_numbered library ->
  (Forall (fun file => len (path_name (pf_path file)) <= int_max_str_digits)
          pdf_files ->
   exists t' new merged,
     update_library library pdf_files flag t = (t', Ok merged)
     /\ Permutation merged (library ++ new)
     /\ sorted_by_id merged
     /\ Forall (added_from (ids_of library) pdf_files) new
     /\ (List.length new <= List.length pdf_files)%nat)
  /\ (forall t' e,
         update_library library pdf_files flag t = (t', Raise e) ->
         e = ValueError
         /\ Exists (fun file => int_max_str_digits
                                < len (path_name (pf_path file)))
                   pdf_files).
Proof.
  intros Hnum.
  assert (Sorts : forall new,
             Forall (added_from (ids_of library) pdf_files) new ->
             sort_sessions (library ++ new)
             = Ok (stable_sort_by_id (library ++ new))
             /\ all_numbered (library ++ new)).
  { intros new HF.
    assert (Hall : all_numbered (library ++ new)).
    { apply all_numbered_app; [exact Hnum | ].
      eapply Forall_impl; [ | exact HF].
      intros s (f & n & _ & _ & _ & Hid). congruence. }
    split; [exact (sort_sessions_numbered _ Hall) | exact Hall]. }
  split.
  - intros Hnames. unfold update_library.
    destruct (collect_spec (map id library) flag pdf_files [] t Hnames)
      as (t' & new & E & HF & HL).
    cbn [app] in E. unfold bind. rewrite E. unfold lift.
    destruct (Sorts new HF) as (-> & Hall).
    destruct (stable_sort_perm_sorted (library ++ new)) as (P & S).
    exists t', new, (stable_sort_by_id (library ++ new)).
    split; [reflexivity | ]. split; [exact P | ].
    split; [ | split; [exact HF | exact HL]].
    split; [ | exact S]. eapply all_numbered_perm; [exact P | exact Hall].
  - intros t' e H. unfold update_library, bind in H.
    destruct (collect_cases (map id library) flag pdf_files [] t)
      as [(t1 & new & E & HF & _) | (t1 & E & HE)]; rewrite E in H.
    + cbn [app] in H. unfold lift in H.
      destruct (Sorts new HF) as (S & _). rewrite S in H. discriminate H.
    + injection H as _ <-. now split.
Qed.

Lemma update_library_keeps_and_adds_witness :
  let library := [Stored.session 100; Stored.session 184] in
  let files := [ Sample.pdf "TE_150.pdf" [Sample.text_page Sample.header_184];
                 Sample.pdf "TE_160.pdf" [Sample.broken_page];
                 Sample.pdf "TE_184.pdf" [Sample.text_page Sample.header_184];
                 Sample.pdf "notes.pdf" [Sample.text_page Sample.header_184] ] in
  let long_name := {| pf_path := [u "pdfs"; repeat 49%N 4301 ++ u ".pdf"];
                      pf_doc := Some [] |} in
  all_numbered library
  /\ Forall (fun file => len (path_name (pf_path file)) <= int_max_str_digits)
            files
  /\ map id (value_of [] (update_library library files true []))
     = [Some 100; Some 150; Some 184]
  /\ snd (update_library library [long_name] true []) = Raise ValueError
  /\ exists t' new merged,
       update_library library files true [] = (t', Ok merged)
       /\ Permutation merged (library ++ new)
       /\ sorted_by_id merged.
Proof.
  intros library files long_name.
  assert (N : all_numbered library) by (repeat constructor; discriminate).
  assert (L : Forall (fun file => len (path_name (pf_path file))
                                  <= int_max_str_digits) files)
    by (repeat constructor; vm_compute; discriminate).
  split; [exact N | ]. split; [exact L | ]. split; [vm_compute; reflexivity | ].
  split; [vm_compute; reflexivity | ].
  destruct (proj1 (update_library_keeps_and_adds library files true [] N) L)
    as (t' & new & merged & E & P & S & _).
  exists t', new, merged. auto.
Defined.




(** X12: the numbers of a batch are compared with the library as it was
    loaded, never with the sessions just added: when two files of one batch
    carry the same new number, both sessions are added and the library
    holds that identifier twice. *)
Theorem same_number_twice_in_batch library f1 f2 flag t t1 t2 s1 s2 :
  all_numbered library ->
  extract_single_pdf f1 flag t = (t1, Ok s1) ->
  extract_single_pdf f2 flag t1 = (t2, Ok s2) ->
  id s1 = id s2 ->
  ~ In (id s1) (ids_of library) ->
  exists merged,
    update_library library [f1; f2] flag t = (t2, Ok merged)
    /\ Permutation merged (library ++ [s1; s2])
    /\ ~ NoDup (ids_of merged).
Proof.
  intros Hnum X1 X2 Hsame Hnew.
  destruct (extract_single_pdf_id _ _ _ _ _ X1) as (n & N1 & I1).
  destruct (extract_single_pdf_id _ _ _ _ _ X2) as (m & N2 & I2).
  assert (m = n) by congruence. subst m.
  assert (K : id_in n (map id library) = false).
  { destruct (id_in n (map id library)) eqn:K; [ | reflexivity].
    apply id_in_spec in K. rewrite I1 in Hnew. destruct (Hnew K). }
  unfold update_library, bind.
  rewrite collect_step, N1, K, X1, collect_step, N2, K, X2.
  cbn [collect_new_sessions ret app]. unfold lift.
  assert (Hall : all_numbered (library ++ [s1; s2])).
  { apply all_numbered_app; [exact Hnum | ].
    repeat constructor; congruence. }
  rewrite (sort_sessions_numbered _ Hall).
  destruct (stable_sort_perm_sorted (library ++ [s1; s2])) as (P & _).
  eexists. split; [reflexivity | ]. split; [exact P | ].
  intros ND. unfold ids_of in ND.
  apply (Permutation_NoDup (Permutation_map id P)) in ND.
  rewrite map_app in ND. apply NoDup_app_remove_l in ND.
  cbn [map] in ND. rewrite I1, I2 in ND.
  inversion ND as [ | ? ? Hin _]; subst. apply Hin. now left.
Qed.

Lemma same_number_twice_in_batch_witness :
  let library := [Stored.session 100] in
  let f1 := Sample.pdf "TE_150.pdf" [Sample.text_page Sample.header_184] in
  let f2 := Sample.pdf "TE_150 (2).pdf" [Sample.text_page (u "Kopie")] in
  let run1 := extract_single_pdf f1 false [] in
  let run2 := extract_single_pdf f2 false (fst run1) in
  map id (value_of [] (update_library library [f1; f2] false []))
  = [Some 100; Some 150; Some 150]
  /\ exists merged,
       update_library library [f1; f2] false [] = (fst run2, Ok merged)
       /\ ~ NoDup (ids_of merged).
Proof.
  intros library f1 f2 run1 run2.
  split; [vm_compute; reflexivity | ].
  assert (E1 : run1 = (fst run1, Ok (value_of (Stored.session 0) run1)))
    by (vm_compute; reflexivity).
  assert (E2 : run2 = (fst run2, Ok (value_of (Stored.session 0) run2)))
    by (vm_compute; reflexivity).
  destruct (same_number_twice_in_batch library f1 f2 false [] (fst run1) (fst run2)
              (value_of (Stored.session 0) run1) (value_of (Stored.session 0) run2))
    as (merged & E & _ & ND).
  - repeat constructor. discriminate.
  - exact E1.
  - exact E2.
  - vm_compute. reflexivity.
  - vm_compute. intros [H | H]; [discriminate | exact H].
  - exists merged. split; [exact E | exact ND].
Defined.

(** *** One document from opening to closing *)

Lemma extract_page_images_events self page_num :
  forall image_list idx images t,
  exists events,
    fst (extract_page_images self page_num idx image_list images t) = t ++ events
    /\ forallb file_event events = true.
Proof.
  induction image_list as [ | img rest IH]; intros idx images t;
    cbn [extract_page_images].
  - exists []. now rewrite app_nil_r.
  - assert (Go : forall a t1 events1,
              t1 = t ++ events1 -> forallb file_event events1 = true ->
              exists events,
                fst (extract_page_images self page_num (idx + 1) rest a t1)
                = t ++ events
                /\ forallb file_event events = true).
    { intros a t1 events1 -> F1.
      destruct (IH (idx + 1) a (t ++ events1)) as (events & E & F).
      exists (events1 ++ events). rewrite E, app_assoc, forallb_app, F1, F.
      now split. }
    unfold bind at 1, try_except. destruct img as [ext | ].
    + unfold bind at 1, lift, or_raise. destruct (extract_images self).
      * unfold bind at 1, emit. unfold bind at 1, lift.
        destruct (fmt_id_03d (session_id self)) as [nnn | e]; unfold ret;
          cbv beta iota; eapply Go; reflexivity.
      * unfold bind at 1, ret. unfold bind at 1, lift.
        destruct (fmt_id_03d (session_id self)) as [nnn | e]; unfold ret;
          cbv beta iota; apply (Go _ t []); rewrite ?app_nil_r; reflexivity.
    + unfold bind, lift, or_raise, ret. cbv beta iota.
      apply (Go _ t []); rewrite ?app_nil_r; reflexivity.
Qed.

Lemma extract_images_from_page_events self page_num t :
  exists events,
    fst (extract_images_from_page self page_num t) = t ++ events
    /\ forallb file_event events = true.
Proof.
  unfold extract_images_from_page. unfold bind at 1, lift.
  destruct (doc_getitem (doc self) (page_num - 1)) as [page | e].
  - unfold try_except. destruct (get_images page) as [image_list | ];
      cbn [or_raise].
    + unfold bind, lift.
      destruct (extract_page_images_events self page_num image_list 1 [] t)
        as (events & E & F).
      destruct (extract_page_images self page_num 1 image_list [] t)
        as [t1 [r | e]]; cbn [fst] in E |- *; subst t1; exists events; now split.
    + unfold bind, lift, ret. exists []. now rewrite app_nil_r.
  - exists []. now rewrite app_nil_r.
Qed.

Lemma images_of_pages_events self :
  forall page_nums t,
  exists events,
    fst (images_of_pages self page_nums t) = t ++ events
    /\ forallb file_event events = true.
Proof.
  induction page_nums as [ | n rest IH]; intros t; cbn [images_of_pages].
  - exists []. now rewrite app_nil_r.
  - unfold bind at 1.
    destruct (extract_images_from_page_events self n t) as (ev1 & E1 & F1).
    destruct (extract_images_from_page self n t) as [t1 [imgs | e]];
      cbn [fst] in E1; subst t1.
    + unfold bind at 1.
      destruct (IH (t ++ ev1)) as (ev2 & E2 & F2).
      destruct (images_of_pages self rest (t ++ ev1)) as [t2 [more | e]];
        cbn [fst] in E2; subst t2; unfold ret; cbn [fst];
          exists (ev1 ++ ev2); rewrite app_assoc, forallb_app, F1, F2; now split.
    + exists ev1. now split.
Qed.

Lemma extract_drills_events self pages t :
  exists events,
    fst (extract_drills self pages t) = t ++ events
    /\ forallb file_event events = true.
Proof.
  unfold extract_drills. unfold bind at 1, lift.
  destruct (header_drills self pages) as [found | e];
    [ | exists []; now rewrite app_nil_r].
  destruct (extract_images self); [ | exists []; now rewrite app_nil_r].
  unfold bind.
  destruct (images_of_pages_events self (range1 (List.length pages)) t)
    as (events & E & F).
  destruct (images_of_pages self (range1 (List.length pages)) t)
    as [t1 [imgs | e]]; cbn [fst] in E |- *; subst t1; exists events; now split.
Qed.

Lemma extract_session_events self t :
  exists events,
    fst (extract_session self t) = t ++ events
    /\ forallb file_event events = true.
Proof.
  unfold extract_session, extract_text_by_page. unfold bind at 1, lift.
  destruct (texts_of (doc self)) as [pages | e];
    [ | exists []; now rewrite app_nil_r].
  unfold bind at 1, lift.
  destruct (extract_duration _) as [duration | e];
    [ | exists []; now rewrite app_nil_r].
  unfold bind at 1, lift.
  destruct (extract_equipment _) as [equipment | e];
    [ | exists []; now rewrite app_nil_r].
  unfold bind, ret.
  destruct (extract_drills_events self pages t) as (events & E & F).
  destruct (extract_drills self pages t) as [t1 [ds | e]];
    cbn [fst] in E |- *; subst t1; exists events; now split.
Qed.

Lemma init_events file flag t t1 self :
  __init__ file flag None t = (t1, Ok self) ->
  pdf_path self = pf_path file
  /\ filename self = path_name (pf_path file)
  /\ extract_images self = flag
  /\ t1 = t ++ EvOpen (pf_path file)
              :: (if flag then [EvMkdir (image_dir self)] else []).
Proof.
  unfold __init__, bind, lift, emit, ret, or_raise. intros H.
  destruct (pf_doc file) as [d | ]; [ | discriminate].
  destruct (session_id_of (path_name (pf_path file))) as [[n | ] | e];
    cbn [fmt_id_03d] in H; try discriminate.
  destruct flag; inversion H; subst; cbn; rewrite <- ?app_assoc; auto.
Qed.

(** X13: when the extraction of a document returns a session, the document
    was opened once, at the start, and closed once, at the end; in between
    nothing happened but the making of the image folder and the writing of
    image files. *)
Theorem extraction_closes_what_it_opens file flag t t' session :
  extract_single_pdf file flag t = (t', Ok session) ->
  exists events,
    t' = t ++ [EvOpen (pf_path file)] ++ events ++ [EvClose (pf_path file)]
    /\ forallb file_event events = true.
Proof.
  unfold extract_single_pdf, bind. intros H.
  destruct (__init__ file flag None t) as [t1 [self | e]] eqn:E1;
    [ | discriminate].
  apply init_events in E1. destruct E1 as (P & _ & _ & ->).
  destruct (extract_session_events self
              (t ++ EvOpen (pf_path file)
                    :: (if flag then [EvMkdir (image_dir self)] else [])))
    as (events & E & F).
  destruct (extract_session self _) as [t2 [s | e]]; [ | discriminate].
  cbn [fst] in E. subst t2.
  unfold close, emit, ret in H. inversion H; subst. rewrite P.
  exists ((if flag then [EvMkdir (image_dir self)] else []) ++ events).
  split.
  - rewrite <- !app_assoc. reflexivity.
  - rewrite forallb_app, F. destruct flag; reflexivity.
Qed.

Lemma extraction_closes_what_it_opens_witness :
  let file := Sample.pdf "TE_184.pdf" [Sample.picture_page Sample.header_184] in
  let run := extract_single_pdf file true [] in
  run = (fst run, Ok (value_of (Stored.session 0) run))
  /\ open_handles (fst run) = []
  /\ exists events,
       fst run = [] ++ [EvOpen (pf_path file)] ++ events ++ [EvClose (pf_path file)]
       /\ forallb file_event events = true.
Proof.
  intros file run.
  assert (E : run = (fst run, Ok (value_of (Stored.session 0) run)))
    by (vm_compute; reflexivity).
  split; [exact E | ]. split; [vm_compute; reflexivity | ].
  exact (extraction_closes_what_it_opens file true [] (fst run) _ E).
Defined.

(** *** The session record *)

(** X14: every session that [extract_single_pdf] returns is complete: it
    names its source file, its identifier is the number in that name, its
    title has more than five characters, its duration is not negative, its
    equipment and drill lists are not empty, and its equipment tags are
    those of its equipment list. *)
Theorem extracted_session_is_complete file flag t t' session :
  extract_single_pdf file flag t = (t', Ok session) ->
  source_file session = path_name (pf_path file)
  /\ session_id_of (source_file session) = Ok (id session)
  /\ id session <> None
  /\ 5 < len (s_title session)
  /\ 0 <= duration_total_min session
  /\ equipment session <> []
  /\ drills session <> []
  /\ equipment_tags (s_tags session) = _extract_equipment_tags (equipment session).
Proof.
  unfold extract_single_pdf, bind. intros H.
  destruct (__init__ file flag None t) as [t1 [self | e]] eqn:E1;
    [ | discriminate].
  destruct (init_session_id _ _ _ _ _ _ E1) as (Hid & Hsome).
  apply init_events in E1. destruct E1 as (_ & Hname & _ & _).
  destruct (extract_session self t1) as [t2 [s | e]] eqn:E2; [ | discriminate].
  unfold close, emit, ret in H. inversion H; subst s t'. clear H.
  unfold extract_session, extract_text_by_page, bind, lift, ret in E2.
  destruct (texts_of (doc self)) as [pages | e]; [ | discriminate].
  destruct (extract_duration _) as [duration | e] eqn:D; [ | discriminate].
  destruct (extract_equipment _) as [items | e] eqn:Q; [ | discriminate].
  destruct (extract_drills self pages t1) as [t3 [ds | e]] eqn:S;
    [ | discriminate].
  inversion E2; subst. clear E2.
  cbn [source_file id s_title duration_total_min equipment drills s_tags
       equipment_tags].
  split; [exact Hname | ]. split; [now rewrite Hname | ].
  split; [now apply Hsome | ].
  split; [apply extract_title_shape | ].
  split; [exact (first_duration_nonneg _ _ _ D) | ].
  split; [exact (extract_equipment_nonempty _ _ Q) | ].
  split; [exact (segmented_nonempty _ _ _ _ _ S) | reflexivity].
Qed.

Lemma extracted_session_is_complete_witness :
  let file := Sample.pdf "TE_184.pdf" [Sample.text_page Sample.header_184] in
  let run := extract_single_pdf file true [] in
  let session := value_of (Stored.session 0) run in
  run = (fst run, Ok session)
  /\ id session = Some 184
  /\ source_file session = path_name (pf_path file)
  /\ session_id_of (source_file session) = Ok (id session).
Proof.
  intros file run session.
  assert (E : run = (fst run, Ok session)) by (vm_compute; reflexivity).
  split; [exact E | ]. split; [vm_compute; reflexivity | ].
  destruct (extracted_session_is_complete file true [] (fst run) session E)
    as (H1 & H2 & _).
  split; [exact H1 | exact H2].
Defined.

(** X15: a PDF whose name holds no digit cannot be extracted on its own:
    the document is opened, then the folder name "TE_{id:03d}" cannot be
    formatted for the missing number, and the call raises a [TypeError]
    with the document still open.  The batch updater never gets there: it
    passes over such a file before opening it. *)
Theorem unnumbered_file_is_not_extracted file flag pages t :
  pf_doc file = Some pages ->
  latin1 (path_name (pf_path file)) = true ->
  no_digit (path_name (pf_path file)) = true ->
  extract_single_pdf file flag t = (t ++ [EvOpen (pf_path file)], Raise TypeError)
  /\ forall library rest,
       update_library library (file :: rest) flag t
       = update_library library rest flag t.
Proof.
  intros Hd _ Hn. apply session_id_of_no_digit in Hn. split.
  - unfold extract_single_pdf, __init__, bind, lift, emit, or_raise.
    rewrite Hd, Hn. reflexivity.
  - intros library rest. unfold update_library, bind.
    now rewrite collect_step, Hn.
Qed.

Lemma unnumbered_file_is_not_extracted_witness :
  let file := Sample.pdf "notes.pdf" [Sample.text_page Sample.header_184] in
  extract_single_pdf file true [] = ([] ++ [EvOpen (pf_path file)], Raise TypeError).
Proof.
  intros file.
  apply (unnumbered_file_is_not_extracted file true
           [Sample.text_page Sample.header_184] []).
  - reflexivity.
  - vm_compute. reflexivity.
  - vm_compute. reflexivity.
Defined.

(** *** Equipment tags *)

Lemma filter_map_fst_NoDup {A B : Type} (f : A * B -> bool) (l : list (A * B)) :
  NoDup (map fst l) -> NoDup (map fst (filter f l)).
Proof.
  induction l as [ | x l IH]; intros H; cbn [filter map]; [constructor | ].
  cbn [map] in H. inversion H as [ | ? ? Hx Hl]; subst.
  destruct (f x); [ | now apply IH].
  cbn [map]. constructor; [ | now apply IH].
  intros Hin. apply Hx. apply in_map_iff in Hin.
  destruct Hin as (y & Hy & Hin). apply filter_In in Hin.
  apply in_map_iff. exists y. tauto.
Qed.

Lemma tag_mapping_NoDup : NoDup (map fst tag_mapping).
Proof.
  assert (E : nodup (list_eq_dec N.eq_dec) (map fst tag_mapping)
              = map fst tag_mapping) by (vm_compute; reflexivity).
  rewrite <- E. apply NoDup_nodup.
Qed.

(** X16: [_extract_equipment_tags] yields each of the six canonical tags at
    most once, and a tag exactly when one of its keywords occurs somewhere
    in the lower-cased equipment text, inside a longer word or not. *)
Theorem equipment_tags_by_keyword equipment :
  NoDup (_extract_equipment_tags equipment)
  /\ forall tag,
       In tag (_extract_equipment_tags equipment)
       <-> exists keywords keyword,
             In (tag, keywords) tag_mapping /\ In keyword keywords
             /\ contains keyword (lower (join (u " ") equipment)).
Proof.
  split.
  - unfold _extract_equipment_tags. apply filter_map_fst_NoDup.
    exact tag_mapping_NoDup.
  - intros tag. unfold _extract_equipment_tags. rewrite in_map_iff. split.
    + intros ((tag' & keywords) & <- & Hin). apply filter_In in Hin.
      destruct Hin as (Hin & Hany). cbn [snd] in Hany.
      apply any_in_spec in Hany. destruct Hany as (keyword & Hk & Hc).
      exists keywords, keyword. auto.
    + intros (keywords & keyword & Hin & Hk & Hc).
      exists (tag, keywords). split; [reflexivity | ].
      apply filter_In. split; [exact Hin | ]. cbn [snd].
      apply any_in_spec. eauto.
Qed.

(** *** Dicts *)

Lemma eqb_eq a b : PyStr.eqb a b = true <-> a = b.
Proof.
  unfold PyStr.eqb. destruct (list_eq_dec N.eq_dec a b); split; intros H;
    auto; discriminate.
Qed.

Lemma eqb_refl a : PyStr.eqb a a = true.
Proof. now apply eqb_eq. Qed.

Lemma eqb_neq a b : PyStr.eqb a b = false <-> a <> b.
Proof.
  unfold PyStr.eqb. destruct (list_eq_dec N.eq_dec a b); split; intros H;
    auto; try discriminate. now destruct H.
Qed.

Lemma dict_get_set_same k v l : dict_get k (dict_set k v l) = Some v.
Proof.
  induction l as [ | [j x] l IH]; cbn [dict_set dict_get].
  - now rewrite eqb_refl.
  - destruct (PyStr.eqb j k) eqn:E; cbn [dict_get]; rewrite E; auto.
Qed.

Lemma dict_get_set_other k j v l :
  j <> k -> dict_get k (dict_set j v l) = dict_get k l.
Proof.
  intros N. apply eqb_neq in N.
  induction l as [ | [i x] l IH]; cbn [dict_set dict_get].
  - now rewrite N.
  - destruct (PyStr.eqb i j) eqn:E; cbn [dict_get].
    + apply eqb_eq in E. subst i. now rewrite N.
    + now rewrite IH.
Qed.

Lemma dict_set_set k v w l : dict_set k v (dict_set k w l) = dict_set k v l.
Proof.
  induction l as [ | [j x] l IH]; cbn [dict_set].
  - now rewrite eqb_refl.
  - destruct (PyStr.eqb j k) eqn:E; cbn [dict_set]; rewrite E;
      [reflexivity | now rewrite IH].
Qed.

(** Two assignments to different keys can change places when one of the
    keys is in the dict already. *)
Lemma dict_set_comm k j v w l :
  j <> k -> dict_get k l <> None \/ dict_get j l <> None ->
  dict_set k v (dict_set j w l) = dict_set j w (dict_set k v l).
Proof.
  intros N. pose proof N as N'. apply eqb_neq in N'.
  assert (M : PyStr.eqb k j = false) by (apply eqb_neq; congruence).
  induction l as [ | [i x] l IH]; intros H; cbn [dict_set dict_get] in *.
  - destruct H as [H | H]; now destruct H.
  - destruct (PyStr.eqb i j) eqn:Ej; destruct (PyStr.eqb i k) eqn:Ek;
      cbn [dict_set]; rewrite ?Ej, ?Ek; try reflexivity.
    + apply eqb_eq in Ej, Ek. congruence.
    + now rewrite IH.
Qed.

Lemma dict_get_set_present k j v l :
  dict_get k l <> None -> dict_get k (dict_set j v l) <> None.
Proof.
  intros H. destruct (list_eq_dec N.eq_dec j k) as [-> | N].
  - rewrite dict_get_set_same. discriminate.
  - now rewrite dict_get_set_other.
Qed.

Lemma has_key_spec k l :
  existsb (fun kv : pystr * json => PyStr.eqb (fst kv) k) l
  = match dict_get k l with
    | Some _ => true
    | None => false
    end.
Proof.
  induction l as [ | [j x] l IH]; cbn [existsb dict_get fst]; [reflexivity | ].
  destruct (PyStr.eqb j k); [reflexivity | exact IH].
Qed.

Lemma dict_set_keys_present k v l :
  dict_get k l <> None -> map fst (dict_set k v l) = map fst l.
Proof.
  induction l as [ | [j x] l IH]; cbn [dict_set dict_get map fst]; intros H.
  - now destruct H.
  - destruct (PyStr.eqb j k); cbn [map fst]; [reflexivity | now rewrite IH].
Qed.

Lemma dict_set_keys_absent k v l :
  dict_get k l = None -> map fst (dict_set k v l) = map fst l ++ [k].
Proof.
  induction l as [ | [j x] l IH]; cbn [dict_set dict_get map fst app]; intros H.
  - reflexivity.
  - destruct (PyStr.eqb j k); [discriminate | ]. cbn [map fst]. now rewrite IH.
Qed.

(** *** The manifest *)

Section Assignments.
Variables k1 k2 k3 k4 k5 : pystr.
Hypothesis D12 : k1 <> k2.
Hypothesis D13 : k1 <> k3.
Hypothesis D14 : k1 <> k4.
Hypothesis D15 : k1 <> k5.
Hypothesis D23 : k2 <> k3.
Hypothesis D24 : k2 <> k4.
Hypothesis D25 : k2 <> k5.
Hypothesis D34 : k3 <> k4.
Hypothesis D35 : k3 <> k5.
Hypothesis D45 : k4 <> k5.

Ltac present :=
  first [ rewrite dict_get_set_same; discriminate
        | apply dict_get_set_present; present ].

Ltac inward k j :=
  rewrite (dict_set_comm k j) by (first [ congruence | left; present ]).

(** Four assignments made a second time, with other values, end where they
    would have ended if made once. *)
Lemma assigned_again (l : list (pystr * json)) v1 v2 v3 v4 w1 w2 w3 w4 :
  dict_set k4 w4 (dict_set k3 w3 (dict_set k2 w2 (dict_set k1 w1
    (dict_set k4 v4 (dict_set k3 v3 (dict_set k2 v2 (dict_set k1 v1 l)))))))
  = dict_set k4 w4 (dict_set k3 w3 (dict_set k2 w2 (dict_set k1 w1 l))).
Proof.
  inward k1 k4. inward k1 k3. inward k1 k2. rewrite (dict_set_set k1).
  inward k2 k4. inward k2 k3. rewrite (dict_set_set k2).
  inward k3 k4. rewrite (dict_set_set k3).
  rewrite (dict_set_set k4). reflexivity.
Qed.

Lemma assigned_again_after (l : list (pystr * json)) v1 v2 v3 v4 w1 w2 w3 w4 c :
  dict_set k4 w4 (dict_set k3 w3 (dict_set k2 w2 (dict_set k1 w1
    (dict_set k5 c
       (dict_set k4 v4 (dict_set k3 v3 (dict_set k2 v2 (dict_set k1 v1 l))))))))
  = dict_set k5 c
      (dict_set k4 w4 (dict_set k3 w3 (dict_set k2 w2 (dict_set k1 w1 l)))).
Proof.
  inward k1 k5. inward k1 k4. inward k1 k3. inward k1 k2.
  rewrite (dict_set_set k1).
  inward k2 k5. inward k2 k4. inward k2 k3. rewrite (dict_set_set k2).
  inward k3 k5. inward k3 k4. rewrite (dict_set_set k3).
  inward k4 k5. rewrite (dict_set_set k4). reflexivity.
Qed.

Lemma assigned_other (l : list (pystr * json)) v1 v2 v3 v4 key :
  key <> k1 -> key <> k2 -> key <> k3 -> key <> k4 ->
  dict_get key (dict_set k4 v4 (dict_set k3 v3 (dict_set k2 v2 (dict_set k1 v1 l))))
  = dict_get key l.
Proof.
  intros N1 N2 N3 N4.
  rewrite !dict_get_set_other by congruence. reflexivity.
Qed.

End Assignments.

Lemma manifest_keys_differ :
  u "version" <> u "created_at" /\ u "version" <> u "package"
  /\ u "version" <> u "stats" /\ u "version" <> u "changelog"
  /\ u "created_at" <> u "package" /\ u "created_at" <> u "stats"
  /\ u "created_at" <> u "changelog" /\ u "package" <> u "stats"
  /\ u "package" <> u "changelog" /\ u "stats" <> u "changelog".
Proof.
  repeat match goal with |- _ /\ _ => split end;
    apply eqb_neq; vm_compute; reflexivity.
Qed.

(** [update_manifest] on a dict, step by step: four assignments, then the
    changelog. *)
Lemma update_manifest_steps items now library_version library_url stats :
  update_manifest (Some (JDict items)) now library_version library_url stats
  = match dict_get (u "changelog") items with
    | None =>
        Returns
          (JDict
             (dict_set (u "changelog")
                (JList [JStr (changelog_entry library_version)])
                (dict_set (u "stats") stats
                   (dict_set (u "package")
                      (JDict [ (u "url", JStr library_url);
                               (u "type", JStr (u "json")) ])
                      (dict_set (u "created_at") (JStr now)
                         (dict_set (u "version") (JStr library_version)
                                   items))))))
    | Some changelog =>
        match str_in (changelog_entry library_version) changelog with
        | Returns true =>
            Returns
              (JDict
                 (dict_set (u "stats") stats
                    (dict_set (u "package")
                       (JDict [ (u "url", JStr library_url);
                                (u "type", JStr (u "json")) ])
                       (dict_set (u "created_at") (JStr now)
                          (dict_set (u "version") (JStr library_version)
                                    items)))))
        | Returns false =>
            match insert_first changelog
                               (JStr (changelog_entry library_version)) with
            | Returns changelog' =>
                Returns
                  (JDict
                     (dict_set (u "changelog") changelog'
                        (dict_set (u "stats") stats
                           (dict_set (u "package")
                              (JDict [ (u "url", JStr library_url);
                                       (u "type", JStr (u "json")) ])
                              (dict_set (u "created_at") (JStr now)
                                 (dict_set (u "version") (JStr library_version)
                                           items))))))
            | Raises e => Raises e
            end
        | Raises e => Raises e
        end
    end.
Proof.
  destruct manifest_keys_differ
    as (N12 & N13 & N14 & N15 & N23 & N24 & N25 & N34 & N35 & N45).
  unfold update_manifest. cbv zeta. cbn [setitem obind str_in].
  rewrite has_key_spec.
  rewrite (assigned_other (u "version") (u "created_at") (u "package")
                          (u "stats")) by congruence.
  destruct (dict_get (u "changelog") items) as [changelog | ] eqn:C;
    cbn [negb setitem obind getitem].
  - rewrite (assigned_other (u "version") (u "created_at") (u "package")
                            (u "stats")) by congruence.
    rewrite C. cbn [obind].
    destruct (str_in (changelog_entry library_version) changelog)
      as [[ | ] | e]; cbn [obind]; try reflexivity.
  - rewrite dict_get_set_same. cbn [str_in existsb obind insert_first setitem].
    now rewrite dict_set_set.
Qed.

(** X17: [update_manifest] on a manifest that is a dict whose changelog, if
    it has one, is a list: the four fields version, created_at, package and
    stats hold the new values, every other key keeps its value, and the
    changelog holds the entry of this version, put in front unless it was
    there already. *)
Theorem manifest_after_update items now library_version library_url stats old :
  dict_get (u "changelog") items = Some (JList old)
  \/ dict_get (u "changelog") items = None /\ old = [] ->
  exists items',
    update_manifest (Some (JDict items)) now library_version library_url stats
    = Returns (JDict items')
    /\ dict_get (u "version") items' = Some (JStr library_version)
    /\ dict_get (u "created_at") items' = Some (JStr now)
    /\ dict_get (u "package") items'
       = Some (JDict [ (u "url", JStr library_url); (u "type", JStr (u "json")) ])
    /\ dict_get (u "stats") items' = Some stats
    /\ dict_get (u "changelog") items'
       = Some (JList (if existsb (str_eq (changelog_entry library_version)) old
                      then old
                      else JStr (changelog_entry library_version) :: old))
    /\ forall key,
         ~ In key [u "version"; u "created_at"; u "package"; u "stats";
                   u "changelog"] ->
         dict_get key items' = dict_get key items.
Proof.
  destruct manifest_keys_differ
    as (N12 & N13 & N14 & N15 & N23 & N24 & N25 & N34 & N35 & N45).
  intros H. rewrite update_manifest_steps.
  assert (Other : forall key (l : list (pystr * json)),
            ~ In key [u "version"; u "created_at"; u "package"; u "stats";
                      u "changelog"] ->
            key <> u "version" /\ key <> u "created_at" /\ key <> u "package"
            /\ key <> u "stats" /\ key <> u "changelog").
  { intros key _ Hk. cbn [In] in Hk. repeat split; intros ->; apply Hk; tauto. }
  destruct H as [C | [C ->]]; rewrite C.
  - cbn [str_in].
    destruct (existsb (str_eq (changelog_entry library_version)) old) eqn:P;
      cbn [insert_first].
    + eexists. split; [reflexivity | ].
      rewrite !dict_get_set_same.
      repeat (rewrite dict_get_set_other by congruence;
              rewrite ?dict_get_set_same).
      repeat split; try reflexivity; try exact C.
      intros key Hk. destruct (Other key items Hk) as (K1 & K2 & K3 & K4 & K5).
      rewrite !dict_get_set_other by congruence. reflexivity.
    + eexists. split; [reflexivity | ].
      rewrite !dict_get_set_same.
      repeat (rewrite dict_get_set_other by congruence;
              rewrite ?dict_get_set_same).
      repeat split; try reflexivity.
      intros key Hk. destruct (Other key items Hk) as (K1 & K2 & K3 & K4 & K5).
      rewrite !dict_get_set_other by congruence. reflexivity.
  - cbn [existsb]. eexists. split; [reflexivity | ].
    rewrite !dict_get_set_same.
    repeat (rewrite dict_get_set_other by congruence;
            rewrite ?dict_get_set_same).
    repeat split; try reflexivity.
    intros key Hk. destruct (Other key items Hk) as (K1 & K2 & K3 & K4 & K5).
    rewrite !dict_get_set_other by congruence. reflexivity.
Qed.

Lemma manifest_after_update_witness :
  let items := [ (u "library_id", JStr (u "handball-training-library"));
                 (u "version", JStr (u "v14"));
                 (u "changelog", JList [JStr (u "v14: Erste Fassung")]) ] in
  exists items',
    update_manifest (Some (JDict items)) (u "2025-01-01T12:00:00") (u "v15")
                    (u "https://example.org/library.json") (JDict [])
    = Returns (JDict items')
    /\ dict_get (u "version") items' = Some (JStr (u "v15"))
    /\ dict_get (u "library_id") items' = dict_get (u "library_id") items.
Proof.
  intros items.
  destruct (manifest_after_update items (u "2025-01-01T12:00:00") (u "v15")
              (u "https://example.org/library.json") (JDict [])
              [JStr (u "v14: Erste Fassung")])
    as (items' & E & V & _ & _ & _ & _ & O).
  - left. vm_compute. reflexivity.
  - exists items'. split; [exact E | ]. split; [exact V | ].
    apply O. vm_compute.
    intros H. repeat (destruct H as [H | H]; [discriminate | ]). exact H.
Defined.

Lemma update_manifest_default now library_version library_url stats :
  update_manifest None now library_version library_url stats
  = update_manifest
      (Some (JDict [ (u "library_id", JStr (u "handball-training-library"));
                     (u "min_app_version", JStr (u "1.0.0")) ]))
      now library_version library_url stats.
Proof. reflexivity. Qed.

Lemma update_manifest_dict_again items now now' library_version library_url
      stats manifest :
  update_manifest (Some (JDict items)) now library_version library_url stats
  = Returns manifest ->
  update_manifest (Some manifest) now' library_version library_url stats
  = update_manifest (Some (JDict items)) now' library_version library_url stats.
Proof.
  destruct manifest_keys_differ
    as (N12 & N13 & N14 & N15 & N23 & N24 & N25 & N34 & N35 & N45).
  intros H. rewrite update_manifest_steps in H.
  rewrite (update_manifest_steps items now').
  destruct (dict_get (u "changelog") items) as [changelog | ] eqn:C.
  - destruct (str_in (changelog_entry library_version) changelog)
      as [[ | ] | e] eqn:P; [ | | discriminate].
    + inversion H; subst manifest. clear H.
      rewrite update_manifest_steps.
      rewrite (assigned_other (u "version") (u "created_at") (u "package")
                              (u "stats")) by congruence.
      rewrite C, P.
      now rewrite (assigned_again (u "version") (u "created_at") (u "package")
                                  (u "stats")) by congruence.
    + destruct changelog as [ | | | | old | ]; cbn [insert_first] in H |- *;
        try discriminate.
      inversion H; subst manifest. clear H.
      rewrite update_manifest_steps, dict_get_set_same.
      cbn [str_in existsb str_eq]. rewrite eqb_refl. cbn [orb].
      now rewrite (assigned_again_after (u "version") (u "created_at")
                     (u "package") (u "stats") (u "changelog")) by congruence.
  - inversion H; subst manifest. clear H.
    rewrite update_manifest_steps, dict_get_set_same.
    cbn [str_in existsb str_eq]. rewrite eqb_refl. cbn [orb].
    now rewrite (assigned_again_after (u "version") (u "created_at")
                   (u "package") (u "stats") (u "changelog")) by congruence.
Qed.

(** X18: updating the manifest a second time for the same version changes
    nothing but the time stamp: the result is what a single update at the
    later time gives, and the changelog does not grow. *)
Theorem manifest_update_again loaded now now' library_version library_url
        stats manifest :
  update_manifest loaded now library_version library_url stats
  = Returns manifest ->
  update_manifest (Some manifest) now' library_version library_url stats
  = update_manifest loaded now' library_version library_url stats.
Proof.
  destruct loaded as [m | ].
  - destruct m as [ | | | | | items];
      try (unfold update_manifest; cbn [setitem obind]; discriminate).
    apply update_manifest_dict_again.
  - rewrite !update_manifest_default. apply update_manifest_dict_again.
Qed.

Lemma manifest_update_again_witness :
  let first := update_manifest None (u "2025-01-01T12:00:00") (u "v15")
                               (u "https://example.org/library.json")
                               (JDict [(u "sessions", JInt 59)]) in
  let manifest := returned JNull first in
  first = Returns manifest
  /\ update_manifest (Some manifest) (u "2025-01-01T12:00:00") (u "v15")
                     (u "https://example.org/library.json")
                     (JDict [(u "sessions", JInt 59)])
     = Returns manifest.
Proof.
  intros first manifest.
  assert (E : first = Returns manifest) by (vm_compute; reflexivity).
  split; [exact E | ].
  rewrite (manifest_update_again None (u "2025-01-01T12:00:00")
             (u "2025-01-01T12:00:00") (u "v15")
             (u "https://example.org/library.json")
             (JDict [(u "sessions", JInt 59)]) manifest E).
  exact E.
Defined.

(** *** The library for the app *)

Lemma dict_get_here k v rest : dict_get k ((k, v) :: rest) = Some v.
Proof. cbn [dict_get]. now rewrite eqb_refl. Qed.

Lemma dict_get_next k j v rest :
  PyStr.eqb j k = false -> dict_get k ((j, v) :: rest) = dict_get k rest.
Proof. intros H. cbn [dict_get]. now rewrite H. Qed.

Ltac lookup :=
  repeat first [ rewrite dict_get_here
               | rewrite dict_get_next by (vm_compute; reflexivity) ].

Ltac returned_steps H :=
  repeat match type of H with
         | obind ?x _ = Returns _ =>
             let E := fresh "E" in
             destruct x eqn:E; cbn [obind] in H; [ | discriminate]
         end.

Lemma for_each_fixed {A : Type} (f : A -> outcome A) :
  forall l l',
    for_each f l = Returns l' ->
    (forall x x', f x = Returns x' -> f x' = Returns x') ->
    for_each f l' = Returns l'.
Proof.
  induction l as [ | x l IH]; intros l' H Hf; cbn [for_each] in H.
  - inversion H. reflexivity.
  - returned_steps H. inversion H; subst. cbn [for_each].
    rewrite (Hf _ _ E). cbn [obind]. rewrite (IH _ eq_refl Hf). reflexivity.
Qed.

Lemma for_each_length {A B : Type} (f : A -> outcome B) :
  forall l l', for_each f l = Returns l' -> List.length l' = List.length l.
Proof.
  induction l as [ | x l IH]; intros l' H; cbn [for_each] in H.
  - inversion H. reflexivity.
  - returned_steps H. inversion H; subst. cbn [List.length]. f_equal.
    exact (IH _ eq_refl).
Qed.

Lemma for_each_Forall2 {A B : Type} (f : A -> outcome B) :
  forall l l',
    for_each f l = Returns l' -> Forall2 (fun x y => f x = Returns y) l l'.
Proof.
  induction l as [ | x l IH]; intros l' H; cbn [for_each] in H.
  - inversion H. constructor.
  - returned_steps H. inversion H; subst. constructor; [exact E | ].
    exact (IH _ eq_refl).
Qed.

Lemma kept_text_shape text text' :
  kept_text text = Returns text' ->
  exists a b c d,
    text' = JDict [ (u "setup", a); (u "execution", b);
                    (u "coaching_points", c); (u "variations", d) ].
Proof.
  unfold kept_text. intros H. returned_steps H. inversion H. eauto.
Qed.

Lemma kept_text_fixed a b c d :
  kept_text (JDict [ (u "setup", a); (u "execution", b);
                     (u "coaching_points", c); (u "variations", d) ])
  = Returns (JDict [ (u "setup", a); (u "execution", b);
                     (u "coaching_points", c); (u "variations", d) ]).
Proof. unfold kept_text. cbn [get obind]. lookup. reflexivity. Qed.

Lemma optimized_drill_fixed drill drill' :
  optimized_drill drill = Returns drill' ->
  optimized_drill drill' = Returns drill'.
Proof.
  unfold optimized_drill at 1. intros H. returned_steps H.
  apply kept_text_shape in E4. destruct E4 as (ts & te & tc & tv & ->).
  inversion H. unfold optimized_drill. cbn [get getitem obind]. lookup.
  cbn [obind]. rewrite kept_text_fixed. reflexivity.
Qed.

Lemma optimized_session_fixed session session' :
  optimized_session optimized_drill session = Returns session' ->
  optimized_session optimized_drill session' = Returns session'.
Proof.
  unfold optimized_session at 1. intros H. returned_steps H.
  inversion H. unfold optimized_session. cbn [get getitem obind]. lookup.
  cbn [obind iterate].
  rewrite (for_each_fixed _ _ _ E5 optimized_drill_fixed). reflexivity.
Qed.

(** X19: [optimize_library_json] changes nothing in a library it has
    already optimized: applied to its own result it returns that result. *)
Theorem optimize_library_json_idempotent library_data optimized :
  optimize_library_json library_data = Returns optimized ->
  optimize_library_json optimized = Returns optimized.
Proof.
  unfold optimize_library_json at 1. intros H. returned_steps H.
  inversion H. unfold optimize_library_json. cbn [get obind]. lookup.
  cbn [obind iterate].
  rewrite (for_each_fixed _ _ _ E2 optimized_session_fixed). reflexivity.
Qed.

Lemma getitem_member d key v : getitem d key = Returns v -> member key d = Some v.
Proof.
  destruct d; cbn [getitem member]; try discriminate.
  destruct (dict_get key items); intros H; inversion H; reflexivity.
Qed.

Lemma items_under_returned key v x l :
  get v key (JList []) = Returns x -> iterate x = Returns l ->
  items_under key v = l.
Proof. intros E1 E2. unfold items_under. now rewrite E1, E2. Qed.

Lemma get_member d key default v :
  get d key default = Returns v ->
  v = match member key d with
      | Some x => x
      | None => default
      end.
Proof.
  destruct d; cbn [get member]; try discriminate. intros H. now inversion H.
Qed.

(** What [optimized_session] keeps of a session, whatever is done to the
    drills. *)
Lemma optimized_session_keeps drill_of session session' :
  optimized_session drill_of session = Returns session' ->
  session_kept session session'
  /\ Forall2 (fun d d' => drill_of d = Returns d')
             (items_under (u "drills") session)
             (items_under (u "drills") session').
Proof.
  unfold optimized_session, session_kept. intros H. returned_steps H.
  inversion H.
  rewrite (getitem_member _ _ _ E), (getitem_member _ _ _ E0),
    (getitem_member _ _ _ E1).
  rewrite (items_under_returned _ _ _ _ E3 E4).
  rewrite (get_member _ _ _ _ E2 : _ = tags_field session).
  unfold items_under. cbn [member get iterate returned keys_of map fst]. lookup.
  cbn [returned iterate].
  repeat split. now apply for_each_Forall2.
Qed.

Lemma kept_text_fields drill text text' :
  get drill (u "text") (JDict []) = Returns text ->
  kept_text text = Returns text' ->
  text' = JDict [ (u "setup", text_field (u "setup") drill);
                  (u "execution", text_field (u "execution") drill);
                  (u "coaching_points", text_field (u "coaching_points") drill);
                  (u "variations", text_field (u "variations") drill) ].
Proof.
  intros G. unfold kept_text. intros H. returned_steps H. inversion H.
  apply get_member in G, E, E0, E1, E2. unfold text_field.
  destruct (member (u "text") drill) as [t | ]; subst text;
    [now rewrite E, E0, E1, E2 | ].
  cbn [member dict_get] in E, E0, E1, E2. now rewrite E, E0, E1, E2.
Qed.

Lemma optimized_drill_keeps drill drill' :
  optimized_drill drill = Returns drill' ->
  drill_kept drill drill'
  /\ items_under (u "images") drill' = items_under (u "images") drill.
Proof.
  unfold optimized_drill, drill_kept. intros H. returned_steps H.
  inversion H.
  rewrite (getitem_member _ _ _ E0), (getitem_member _ _ _ E1),
    (getitem_member _ _ _ E2), (getitem_member _ _ _ E3).
  rewrite (kept_text_fields _ _ _ E E4).
  match goal with
  | G : get drill (u "tags") _ = _ |- _ =>
      rewrite (get_member _ _ _ _ G : _ = tags_field drill)
  end.
  unfold items_under.
  match goal with
  | G : get drill (u "images") _ = _ |- _ => rewrite G
  end.
  cbn [member get keys_of map fst]. lookup. repeat split.
Qed.

(** X20: what [optimize_library_json] keeps and what it drops.  The result
    has the three keys library_version, source and sessions.  The sessions
    stand in their order, each with exactly the keys id, title,
    duration_total_min, tags and drills; under each its drills stand in
    their order, each with exactly the keys drill_id, title, duration_min,
    phase, text, tags and images.  The values are those of the library (an
    empty dict for missing tags), except that of the text of a drill only
    setup, execution, coaching_points and variations are kept (empty where
    missing).  So the page, the running total, the bullets, the equipment,
    the extraction note and the source file are dropped, but not the
    tags. *)
Theorem optimize_library_json_keeps library_data optimized :
  optimize_library_json library_data = Returns optimized ->
  keys_of optimized = [u "library_version"; u "source"; u "sessions"]
  /\ member (u "source") optimized = Some (JStr (u "optimized_for_mobile"))
  /\ Forall2
       (fun session session' =>
          session_kept session session'
          /\ Forall2
               (fun drill drill' =>
                  drill_kept drill drill'
                  /\ items_under (u "images") drill'
                     = items_under (u "images") drill)
               (items_under (u "drills") session)
               (items_under (u "drills") session'))
       (items_under (u "sessions") library_data)
       (items_under (u "sessions") optimized).
Proof.
  unfold optimize_library_json. intros H. returned_steps H. inversion H.
  split; [reflexivity | ]. split; [reflexivity | ].
  rewrite (items_under_returned _ _ _ _ E0 E1).
  unfold items_under at 2. cbn [get]. lookup. cbn [iterate returned].
  apply for_each_Forall2 in E2.
  eapply Forall2_impl; [ | exact E2].
  intros session session' Hs. apply optimized_session_keeps in Hs.
  destruct Hs as [Hk Hd]. split; [exact Hk | ].
  eapply Forall2_impl; [ | exact Hd].
  intros drill drill' Hdr. now apply optimized_drill_keeps.
Qed.

Lemma remote_image_entry py_repr base img img' :
  remote_image py_repr base img = Returns img' ->
  remote_entry py_repr base img img'.
Proof.
  unfold remote_image, remote_entry. intros H. returned_steps H. inversion H.
  exists a. split; [now apply getitem_member | ].
  apply get_member in E0, E1, E2. subst. reflexivity.
Qed.

Lemma remote_drill_keeps py_repr base drill drill' :
  remote_drill py_repr base drill = Returns drill' ->
  drill_kept drill drill'
  /\ Forall2 (remote_entry py_repr base)
             (items_under (u "images") drill)
             (items_under (u "images") drill').
Proof.
  unfold remote_drill, drill_kept. intros H. returned_steps H.
  inversion H.
  rewrite (getitem_member _ _ _ E0), (getitem_member _ _ _ E1),
    (getitem_member _ _ _ E2), (getitem_member _ _ _ E3).
  rewrite (kept_text_fields _ _ _ E E4).
  match goal with
  | G : get drill (u "tags") _ = _ |- _ =>
      rewrite (get_member _ _ _ _ G : _ = tags_field drill)
  end.
  match goal with
  | G : get drill (u "images") _ = Returns ?x, G' : iterate ?x = _ |- _ =>
      rewrite (items_under_returned _ _ _ _ G G')
  end.
  unfold items_under. cbn [member get keys_of map fst]. lookup.
  cbn [iterate returned].
  repeat split.
  match goal with
  | G : for_each _ _ = _ |- _ => apply for_each_Forall2 in G
  end.
  eapply Forall2_impl; [ | eassumption].
  intros img img'. apply remote_image_entry.
Qed.

(** X21: what [create_library_json_for_app] writes: the base address and
    the time stamp, the sessions and their drills as
    [optimize_library_json] keeps them, and for every image record of a
    drill, in order, one entry whose address is the base address followed
    by the path of the record; page and order are carried over, and a
    record without a type (an embedded image) is given the type
    "full_page". *)
Theorem app_library_has_remote_images py_repr library_data now base_image_url
        optimized :
  create_library_json_for_app py_repr library_data now base_image_url
  = Returns optimized ->
  member (u "image_base_url") optimized = Some (JStr base_image_url)
  /\ member (u "created_at") optimized = Some (JStr now)
  /\ Forall2
       (fun session session' =>
          session_kept session session'
          /\ Forall2
               (fun drill drill' =>
                  drill_kept drill drill'
                  /\ Forall2 (remote_entry py_repr base_image_url)
                             (items_under (u "images") drill)
                             (items_under (u "images") drill'))
               (items_under (u "drills") session)
               (items_under (u "drills") session'))
       (items_under (u "sessions") library_data)
       (items_under (u "sessions") optimized).
Proof.
  unfold create_library_json_for_app. intros H. returned_steps H. inversion H.
  rewrite (items_under_returned _ _ _ _ E E0).
  unfold items_under. cbn [member get]. lookup. cbn [iterate returned].
  split; [reflexivity | ]. split; [reflexivity | ].
  apply for_each_Forall2 in E1.
  eapply Forall2_impl; [ | exact E1].
  intros session session' Hs. apply optimized_session_keeps in Hs.
  destruct Hs as [Hk Hd]. split; [exact Hk | ].
  eapply Forall2_impl; [ | exact Hd].
  intros drill drill' Hdr. now apply remote_drill_keeps.
Qed.

(** *** From the extractor to the app *)

Lemma for_each_map {A B C : Type} (f : B -> outcome C) (g : A -> B) (h : A -> C) l :
  (forall x, In x l -> f (g x) = Returns (h x)) ->
  for_each f (map g l) = Returns (map h l).
Proof.
  induction l as [ | x l IH]; intros H; cbn [map for_each]; [reflexivity | ].
  rewrite H by now left. cbn [obind]. rewrite IH; [reflexivity | ].
  intros y Hy. apply H. now right.
Qed.

Lemma remote_image_of_record py_repr base img :
  remote_image py_repr base (json_of_image img)
  = Returns (JDict [ (u "url", JStr (base ++ img_path img));
                     (u "page", JInt (img_page img));
                     (u "order", JInt (img_order img));
                     (u "type", JStr match img_type img with
                                     | Some type => type
                                     | None => u "full_page"
                                     end) ]).
Proof.
  unfold remote_image, json_of_image.
  destruct (img_type img) as [type | ]; cbn [app getitem get obind]; lookup;
    cbn [obind py_str]; lookup; reflexivity.
Qed.

Lemma remote_drill_of_record py_repr base d :
  exists text tags,
    remote_drill py_repr base (json_of_drill d)
    = Returns
        (JDict [ (u "drill_id", JStr (drill_id d));
                 (u "title", JStr (title d));
                 (u "duration_min", JInt (duration_min d));
                 (u "phase", JStr (phase_name (phase d)));
                 (u "text", text);
                 (u "tags", tags);
                 (u "images",
                  JList (map (fun img =>
                                JDict [ (u "url", JStr (base ++ img_path img));
                                        (u "page", JInt (img_page img));
                                        (u "order", JInt (img_order img));
                                        (u "type",
                                         JStr match img_type img with
                                              | Some type => type
                                              | None => u "full_page"
                                              end) ])
                             (images d))) ]).
Proof.
  unfold remote_drill, json_of_drill, kept_text.
  cbn [getitem get obind]. lookup. cbn [obind get]. lookup.
  cbn [obind iterate].
  rewrite (for_each_map _ json_of_image _ (images d)
             (fun img _ => remote_image_of_record py_repr base img)).
  cbn [obind]. eauto.
Qed.

Lemma optimized_drill_of_record d :
  exists drill', optimized_drill (json_of_drill d) = Returns drill'.
Proof.
  unfold optimized_drill, json_of_drill, kept_text.
  cbn [getitem get obind]. lookup. cbn [obind get]. lookup.
  cbn [obind]. eauto.
Qed.

Lemma app_session_of_record py_repr base s :
  exists tags drills',
    optimized_session (remote_drill py_repr base) (json_of_session s)
    = Returns (JDict [ (u "id", json_of_id (id s));
                       (u "title", JStr (s_title s));
                       (u "duration_total_min", JInt (duration_total_min s));
                       (u "tags", tags);
                       (u "drills", JList drills') ])
    /\ map (fun d' => map (member (u "url")) (items_under (u "images") d')) drills'
       = map (fun d => map (fun img => Some (JStr (base ++ img_path img)))
                           (images d))
             (drills s).
Proof.
  unfold optimized_session, json_of_session.
  cbn [getitem get obind]. lookup. cbn [obind iterate].
  assert (G : exists drills',
             for_each (remote_drill py_repr base) (map json_of_drill (drills s))
             = Returns drills'
             /\ map (fun d' => map (member (u "url"))
                                   (items_under (u "images") d')) drills'
                = map (fun d => map (fun img =>
                                       Some (JStr (base ++ img_path img)))
                                    (images d))
                      (drills s)).
  { induction (drills s) as [ | d ds IH]; cbn [map for_each].
    - exists []. split; reflexivity.
    - destruct (remote_drill_of_record py_repr base d) as (text & tags & E).
      destruct IH as (ds' & E' & M). rewrite E, E'. cbn [obind].
      eexists. split; [reflexivity | ]. cbn [map]. rewrite M. f_equal.
      unfold items_under. cbn [get]. lookup. cbn [iterate returned].
      rewrite map_map. apply map_ext. intros img. cbn [member]. lookup.
      reflexivity. }
  destruct G as (drills' & E & M). rewrite E. cbn [obind]. eauto.
Qed.

(** X22: a library file that holds sessions as the extractor builds them
    is accepted by both tools: neither [optimize_library_json] nor
    [create_library_json_for_app] meets a missing key, and in the library
    for the app every image of every drill stands, in order, under the
    base address followed by its path. *)
Theorem extracted_library_is_accepted py_repr sessions now base_image_url :
  (exists optimized, optimize_library_json (library_of sessions) = Returns optimized)
  /\ exists optimized,
       create_library_json_for_app py_repr (library_of sessions) now
                                   base_image_url
       = Returns optimized
       /\ map (fun session' =>
                 map (fun drill' =>
                        map (member (u "url")) (items_under (u "images") drill'))
                     (items_under (u "drills") session'))
              (items_under (u "sessions") optimized)
          = map (fun session =>
                   map (fun drill =>
                          map (fun img =>
                                 Some (JStr (base_image_url ++ img_path img)))
                              (images drill))
                       (drills session))
                sessions.
Proof.
  split.
  - unfold optimize_library_json, library_of. cbn [get obind]. lookup.
    cbn [obind iterate].
    assert (G : exists sessions',
               for_each (optimized_session optimized_drill)
                        (map json_of_session sessions)
               = Returns sessions').
    { induction sessions as [ | s ss IH]; cbn [map for_each]; [eauto | ].
      destruct IH as (ss' & E').
      assert (S : exists s', optimized_session optimized_drill (json_of_session s)
                             = Returns s').
      { unfold optimized_session, json_of_session.
        cbn [getitem get obind]. lookup. cbn [obind iterate].
        assert (D : exists ds', for_each optimized_drill
                                         (map json_of_drill (drills s))
                                = Returns ds').
        { induction (drills s) as [ | d ds IHd]; cbn [map for_each]; [eauto | ].
          destruct (optimized_drill_of_record d) as (d' & Ed).
          destruct IHd as (ds' & Eds). rewrite Ed, Eds. cbn [obind]. eauto. }
        destruct D as (ds' & Ed). rewrite Ed. cbn [obind]. eauto. }
      destruct S as (s' & Es). rewrite Es, E'. cbn [obind]. eauto. }
    destruct G as (sessions' & E). rewrite E. cbn [obind]. eauto.
  - unfold create_library_json_for_app, library_of. cbn [get obind]. lookup.
    cbn [obind iterate].
    assert (G : exists sessions',
               for_each (optimized_session (remote_drill py_repr base_image_url))
                        (map json_of_session sessions)
               = Returns sessions'
               /\ map (fun session' =>
                         map (fun drill' =>
                                map (member (u "url"))
                                    (items_under (u "images") drill'))
                             (items_under (u "drills") session'))
                      sessions'
                  = map (fun session =>
                           map (fun drill =>
                                  map (fun img =>
                                         Some (JStr (base_image_url
                                                       ++ img_path img)))
                                      (images drill))
                               (drills session))
                        sessions).
    { induction sessions as [ | s ss IH]; cbn [map for_each].
      - exists []. split; reflexivity.
      - destruct IH as (ss' & E' & M).
        destruct (app_session_of_record py_repr base_image_url s)
          as (tags & ds' & Es & Md).
        rewrite Es, E'. cbn [obind]. eexists. split; [reflexivity | ].
        cbn [map]. rewrite M. f_equal.
        unfold items_under at 1. cbn [get]. lookup. cbn [iterate returned].
        exact Md. }
    destruct G as (sessions' & E & M). rewrite E. cbn [obind].
    eexists. split; [reflexivity | ].
    unfold items_under at 1. cbn [get]. lookup. cbn [iterate returned].
    exact M.
Qed.

Lemma optimize_library_json_idempotent_witness :
  let session :=
    value_of (Stored.session 0)
             (extract_single_pdf
                (Sample.pdf "TE_184.pdf" [Sample.picture_page Sample.header_184])
                true []) in
  let first := optimize_library_json (library_of [session; Stored.session 185]) in
  let optimized := returned JNull first in
  first = Returns optimized
  /\ optimize_library_json optimized = Returns optimized.
Proof.
  intros session first optimized.
  assert (E : first = Returns optimized) by (vm_compute; reflexivity).
  split; [exact E | ].
  exact (optimize_library_json_idempotent _ optimized E).
Defined.

Lemma optimize_library_json_keeps_witness :
  let session :=
    value_of (Stored.session 0)
             (extract_single_pdf
                (Sample.pdf "TE_184.pdf" [Sample.picture_page Sample.header_184])
                true []) in
  let library_data := library_of [session; Stored.session 185] in
  let first := optimize_library_json library_data in
  let optimized := returned JNull first in
  first = Returns optimized
  /\ map (member (u "id")) (items_under (u "sessions") optimized)
     = [Some (JInt 184); Some (JInt 185)]
  /\ map keys_of (items_under (u "sessions") optimized)
     = [ [u "id"; u "title"; u "duration_total_min"; u "tags"; u "drills"];
         [u "id"; u "title"; u "duration_total_min"; u "tags"; u "drills"] ]
  /\ Forall2 (fun session session' => session_kept session session')
             (items_under (u "sessions") library_data)
             (items_under (u "sessions") optimized).
Proof.
  intros session library_data first optimized.
  assert (E : first = Returns optimized) by (vm_compute; reflexivity).
  split; [exact E | ]. split; [vm_compute; reflexivity | ].
  split; [vm_compute; reflexivity | ].
  eapply Forall2_impl;
    [ | exact (proj2 (proj2 (optimize_library_json_keeps library_data
                                                         optimized E)))].
  intros a b H. exact (proj1 H).
Defined.

Lemma app_library_has_remote_images_witness :
  let session :=
    value_of (Stored.session 0)
             (extract_single_pdf
                (Sample.pdf "TE_184.pdf" [Sample.picture_page Sample.header_184])
                true []) in
  let library_data := library_of [session] in
  let first := create_library_json_for_app (fun _ => []) library_data
                 (u "2025-01-01T12:00:00") (u "https://example.org/") in
  let optimized := returned JNull first in
  first = Returns optimized
  /\ map (fun drill' => map (member (u "url")) (items_under (u "images") drill'))
         (flat_map (items_under (u "drills"))
                   (items_under (u "sessions") optimized))
     = [ [ Some (JStr (u "https://example.org/drill_images/TE_184/184-1_img1.png"));
           Some (JStr (u "https://example.org/drill_images/TE_184/184-1_img3.jpeg")) ] ]
  /\ member (u "image_base_url") optimized
     = Some (JStr (u "https://example.org/")).
Proof.
  intros session library_data first optimized.
  assert (E : first = Returns optimized) by (vm_compute; reflexivity).
  split; [exact E | ]. split; [vm_compute; reflexivity | ].
  exact (proj1 (app_library_has_remote_images _ library_data _ _ optimized E)).
Defined.

(** *** Page renders for the sessions of a library *)

Lemma dict_set_here k v w rest : dict_set k v ((k, w) :: rest) = (k, v) :: rest.
Proof. cbn [dict_set]. now rewrite eqb_refl. Qed.

Lemma dict_set_next k j v w rest :
  PyStr.eqb j k = false ->
  dict_set k v ((j, w) :: rest) = (j, w) :: dict_set k v rest.
Proof. intros H. cbn [dict_set]. now rewrite H. Qed.

Ltac assign :=
  repeat first [ rewrite dict_set_here
               | rewrite dict_set_next by (vm_compute; reflexivity) ].

Lemma int_eq_id n sid : int_eq n (json_of_id sid) = id_in n [sid].
Proof.
  destruct sid as [m | ]; cbn [json_of_id int_eq id_in existsb];
    [ | reflexivity].
  rewrite orb_false_r. apply Z.eqb_sym.
Qed.

Lemma session_id_member s :
  getitem (json_of_session s) (u "id") = Returns (json_of_id (id s)).
Proof. unfold json_of_session. cbn [getitem]. lookup. reflexivity. Qed.

Lemma id_in_cons n sid ids : id_in n (sid :: ids) = id_in n [sid] || id_in n ids.
Proof. unfold id_in. cbn [existsb]. now rewrite orb_false_r. Qed.

Lemma find_session_none n :
  forall sessions i,
    id_in n (map id sessions) = false ->
    find_session n i (map json_of_session sessions) = Returns None.
Proof.
  induction sessions as [ | s ss IH]; intros i H; cbn [map find_session];
    [reflexivity | ].
  cbn [map] in H. rewrite id_in_cons in H. apply orb_false_iff in H.
  destruct H as [Hs Hss].
  rewrite session_id_member. cbn [obind]. rewrite int_eq_id, Hs. now apply IH.
Qed.

Lemma find_session_some n :
  forall sessions i,
    id_in n (map id sessions) = true ->
    exists pre s post,
      sessions = pre ++ s :: post
      /\ id_in n (map id pre) = false /\ id_in n [id s] = true
      /\ find_session n i (map json_of_session sessions)
         = Returns (Some ((i + List.length pre)%nat, json_of_session s)).
Proof.
  induction sessions as [ | s ss IH]; intros i H; [discriminate | ].
  cbn [map] in H. rewrite id_in_cons in H.
  cbn [map find_session]. rewrite session_id_member. cbn [obind].
  rewrite int_eq_id. destruct (id_in n [id s]) eqn:Hs.
  - exists [], s, ss. cbn [app List.length]. rewrite Nat.add_0_r. auto.
  - cbn [orb] in H. destruct (IH (S i) H) as (pre & s' & post & -> & Hp & Hs' & E).
    exists (s :: pre), s', post. cbn [app map List.length].
    rewrite id_in_cons, Hs, Hp.
    replace (i + S (List.length pre))%nat with (S i + List.length pre)%nat by lia.
    auto.
Qed.

Lemma assign_page_images_of_record images d :
  assign_page_images images (json_of_drill d)
  = Returns (json_of_drill
               (set_images d (images_on (source_page_start d) images))).
Proof.
  unfold assign_page_images, json_of_drill. cbn [get obind]. lookup.
  cbn [setitem]. assign. reflexivity.
Qed.

Lemma map_replace_nth {A B : Type} (f : A -> B) x :
  forall l i, replace_nth i (f x) (map f l) = map f (replace_nth i x l).
Proof.
  induction l as [ | y l IH]; intros [ | i]; cbn [map replace_nth];
    try reflexivity. now rewrite IH.
Qed.

Lemma replace_nth_middle {A : Type} (x y : A) pre post :
  replace_nth (List.length pre) x (pre ++ y :: post) = pre ++ x :: post.
Proof.
  induction pre as [ | z pre IH]; cbn [List.length app replace_nth];
    [reflexivity | now rewrite IH].
Qed.

Lemma renders_into_middle n images pre s post :
  id_in n (map id pre) = false -> id_in n [id s] = true ->
  renders_into n images (pre ++ s :: post)
  = pre ++ {| source_file := source_file s;
              id := id s;
              s_title := s_title s;
              duration_total_min := duration_total_min s;
              equipment := equipment s;
              drills := map (fun d => set_images d
                                        (images_on (source_page_start d) images))
                            (drills s);
              extraction_method := extraction_method s;
              s_tags := s_tags s |} :: post.
Proof.
  intros Hp Hs. induction pre as [ | z pre IH]; cbn [app renders_into].
  - now rewrite Hs.
  - cbn [map] in Hp. rewrite id_in_cons in Hp. apply orb_false_iff in Hp.
    destruct Hp as [Hz Hp]. rewrite Hz. now rewrite IH.
Qed.

Lemma renders_into_none n images :
  forall sessions,
    id_in n (map id sessions) = false -> renders_into n images sessions = sessions.
Proof.
  induction sessions as [ | s ss IH]; intros H; cbn [renders_into];
    [reflexivity | ].
  cbn [map] in H. rewrite id_in_cons in H. apply orb_false_iff in H.
  destruct H as [Hs Hss]. rewrite Hs. now rewrite IH.
Qed.

Lemma with_page_images_of_records images pre s post :
  with_page_images (library_of (pre ++ s :: post)) (List.length pre)
                   (json_of_session s) images
  = Returns
      (library_of
         (pre ++ {| source_file := source_file s;
                    id := id s;
                    s_title := s_title s;
                    duration_total_min := duration_total_min s;
                    equipment := equipment s;
                    drills := map (fun d =>
                                     set_images d
                                       (images_on (source_page_start d) images))
                                  (drills s);
                    extraction_method := extraction_method s;
                    s_tags := s_tags s |} :: post)).
Proof.
  unfold with_page_images. unfold json_of_session at 1.
  cbn [getitem obind]. lookup. cbn [obind iterate].
  rewrite (for_each_map _ json_of_drill
             (fun d => json_of_drill
                         (set_images d (images_on (source_page_start d) images)))
             (drills s)
             (fun d _ => assign_page_images_of_record images d)).
  cbn [obind]. f_equal.
  unfold put_drills, library_of. lookup. rewrite dict_set_here.
  rewrite !map_app. cbn [map].
  rewrite <- (length_map json_of_session pre), replace_nth_middle.
  do 5 f_equal.
  unfold json_of_session. assign.
  cbn [source_file id s_title duration_total_min equipment drills
       extraction_method s_tags].
  rewrite map_map. reflexivity.
Qed.

Lemma page_images_round sessions file rest n t :
  session_id_of (path_name (pf_path file)) = Ok (Some n) ->
  update_library_with_page_images (library_of sessions) (file :: rest) t
  = if id_in n (map id sessions)
    then match extract_all_pages_from_pdf
                 file [u "drill_images"; u "TE_" ++ format_03d n] n t with
         | (t', Ok images) =>
             update_library_with_page_images
               (library_of (renders_into n images sessions)) rest t'
         | (t', Raise e) => (t', Raises (Builtin e))
         end
    else update_library_with_page_images (library_of sessions) rest t.
Proof.
  intros Hn. cbn [update_library_with_page_images].
  unfold jbind at 1, of_M at 1, lift. rewrite Hn.
  unfold jbind at 1, of_outcome at 1.
  unfold library_of at 1. cbn [getitem obind]. lookup. cbn [obind iterate].
  destruct (id_in n (map id sessions)) eqn:K.
  - destruct (find_session_some n sessions 0 K)
      as (pre & s & post & -> & Hp & Hs & E).
    rewrite E. cbn [Nat.add].
    unfold jbind at 1, of_M at 1.
    destruct (extract_all_pages_from_pdf file _ n t) as [t' [images | e]];
      [ | reflexivity].
    unfold jbind at 1, of_outcome at 1.
    rewrite with_page_images_of_records.
    now rewrite (renders_into_middle n images pre s post Hp Hs).
  - now rewrite (find_session_none n sessions 0 K).
Qed.

(** One document whose number is that of the first session of a library,
    the drills of which are any dicts. *)
Lemma page_images_first_session library session rest drills file n t t' images :
  session_id_of (path_name (pf_path file)) = Ok (Some n) ->
  dict_get (u "sessions") library = Some (JList (JDict session :: rest)) ->
  dict_get (u "id") session = Some (JInt n) ->
  dict_get (u "drills") session = Some (JList (map JDict drills)) ->
  extract_all_pages_from_pdf
    file [u "drill_images"; u "TE_" ++ format_03d n] n t
  = (t', Ok images) ->
  update_library_with_page_images (JDict library) [file] t
  = (t', Returns
           (JDict (dict_set (u "sessions")
                     (JList (JDict (dict_set (u "drills")
                                      (JList (map (fun drill =>
                                                     JDict (page_renders images drill))
                                                  drills))
                                      session)
                               :: rest))
                     library))).
Proof.
  intros Hn Hs Hid Hd E. cbn [update_library_with_page_images].
  unfold jbind at 1, of_M at 1, lift. rewrite Hn.
  unfold jbind at 1, of_outcome at 1.
  cbn [getitem]. rewrite Hs. cbn [obind iterate find_session getitem].
  rewrite Hid. cbn [obind int_eq]. rewrite Z.eqb_refl.
  unfold jbind at 1, of_M at 1. rewrite E.
  unfold jbind at 1, of_outcome at 1.
  unfold with_page_images. cbn [getitem]. rewrite Hd. cbn [obind iterate].
  rewrite (for_each_map _ JDict (fun drill => JDict (page_renders images drill))
             drills (fun drill _ => eq_refl)).
  cbn [obind]. unfold put_drills. rewrite Hs. reflexivity.
Qed.

(** X23: one PDF and a library that holds sessions as the extractor builds
    them.  When no session has the number of the file, the document is not
    opened and the library stays as it is.  Otherwise all pages are
    rendered into "drill_images/TE_{id:03d}", and in the first session with
    that number every drill gets as its images the renders of its own
    page, in place of the images it had; nothing else changes.  In a
    library whose drills are any dicts, a drill that names no page gets
    the renders of page 2. *)
Theorem page_renders_into_library sessions file n t :
  session_id_of (path_name (pf_path file)) = Ok (Some n) ->
  (~ In (Some n) (ids_of sessions) ->
   update_library_with_page_images (library_of sessions) [file] t
   = (t, Returns (library_of sessions)))
  /\ (In (Some n) (ids_of sessions) ->
      forall t' images,
        extract_all_pages_from_pdf
          file [u "drill_images"; u "TE_" ++ format_03d n] n t
        = (t', Ok images) ->
        update_library_with_page_images (library_of sessions) [file] t
        = (t', Returns (library_of (renders_into n images sessions))))
  /\ (forall library session rest drills t' images,
         dict_get (u "sessions") library = Some (JList (JDict session :: rest)) ->
         dict_get (u "id") session = Some (JInt n) ->
         dict_get (u "drills") session = Some (JList (map JDict drills)) ->
         extract_all_pages_from_pdf
           file [u "drill_images"; u "TE_" ++ format_03d n] n t
         = (t', Ok images) ->
         exists library',
           update_library_with_page_images (JDict library) [file] t
           = (t', Returns library')
           /\ map (items_under (u "images"))
                  (flat_map (items_under (u "drills"))
                            (firstn 1 (items_under (u "sessions") library')))
              = map (fun drill =>
                       map json_of_image
                           (filter (fun img =>
                                      int_eq (img_page img)
                                             match dict_get (u "source_page_start")
                                                            drill with
                                             | Some page => page
                                             | None => JInt 2
                                             end)
                                   images))
                    drills).
Proof.
  intros Hn. rewrite (page_images_round sessions file [] n t Hn).
  split; [ | split].
  - intros H. destruct (id_in n (map id sessions)) eqn:K; [ | reflexivity].
    apply id_in_spec in K. destruct (H K).
  - intros H t' images E. apply id_in_spec in H. unfold ids_of in H.
    rewrite H, E. reflexivity.
  - intros library session rest drills t' images Hs Hid Hd E.
    eexists. split;
      [exact (page_images_first_session library session rest drills file n t t'
                images Hn Hs Hid Hd E) | ].
    unfold items_under at 3. cbn [get]. rewrite dict_get_set_same.
    cbn [iterate returned firstn flat_map]. rewrite app_nil_r.
    unfold items_under at 2. cbn [get]. rewrite dict_get_set_same.
    cbn [iterate returned]. rewrite map_map. apply map_ext. intros drill.
    unfold items_under, page_renders. cbn [get].
    rewrite dict_get_set_same. reflexivity.
Qed.

Lemma page_renders_into_library_witness :
  let session :=
    value_of (Stored.session 0)
             (extract_single_pdf
                (Sample.pdf "TE_184.pdf" [Sample.picture_page Sample.header_184])
                true []) in
  let sessions := [Stored.session 100; session] in
  let file := Sample.pdf "TE_184.pdf" [Sample.picture_page Sample.header_184] in
  let run := extract_all_pages_from_pdf
               file [u "drill_images"; u "TE_" ++ format_03d 184] 184 [] in
  let renders := value_of [] run in
  let two_pages := Sample.pdf "TE_184.pdf" [Sample.text_page (u "Seite 1");
                                           Sample.text_page (u "Seite 2")] in
  let plain_library :=
    [ (u "sessions",
       JList [ JDict [ (u "id", JInt 184);
                       (u "drills",
                        JList [ JDict [ (u "drill_id", JStr (u "184-1")) ] ]) ] ]) ] in
  session_id_of (path_name (pf_path file)) = Ok (Some 184)
  /\ map (fun s => map (fun d => map img_path (images d)) (drills s))
         (renders_into 184 renders sessions)
     = [ [[]; []; []; []; []; []];
         [[u "drill_images/TE_184/TE_184_page_1.png"]] ]
  /\ update_library_with_page_images (library_of sessions) [file] []
     = (fst run, Returns (library_of (renders_into 184 renders sessions)))
  /\ map (map (member (u "page")))
         (map (items_under (u "images"))
              (flat_map (items_under (u "drills"))
                        (items_under (u "sessions")
                           (returned JNull
                              (snd (update_library_with_page_images
                                      (JDict plain_library) [two_pages] []))))))
     = [ [Some (JInt 2)] ].
Proof.
  intros session sessions file run renders two_pages plain_library.
  assert (N : session_id_of (path_name (pf_path file)) = Ok (Some 184))
    by (vm_compute; reflexivity).
  split; [exact N | ]. split; [vm_compute; reflexivity | ].
  split; [ | vm_compute; reflexivity].
  apply (proj1 (proj2 (page_renders_into_library sessions file 184 [] N))).
  - vm_compute. right. left. reflexivity.
  - vm_compute. reflexivity.
Defined.

(** X24: the page renderer of a library has no handler around a document:
    when a page of a document whose number is in the library cannot be
    rendered, the whole update raises at that point.  No library is
    written, the documents after it are not looked at, and the document
    stays open; the pages rendered so far are on disk. *)
Theorem page_render_failure_aborts_update sessions file rest_files n good bad
        rest t :
  session_id_of (path_name (pf_path file)) = Ok (Some n) ->
  In (Some n) (ids_of sessions) ->
  pf_doc file = Some (good ++ bad :: rest) ->
  Forall (fun page => get_pixmap page = true) good ->
  get_pixmap bad = false ->
  update_library_with_page_images (library_of sessions) (file :: rest_files) t
  = (t ++ [ EvOpen (pf_path file);
            EvMkdir [u "drill_images"; u "TE_" ++ format_03d n] ]
       ++ map (fun k => EvWrite ([u "drill_images"; u "TE_" ++ format_03d n]
                                   ++ [page_image_filename n k]))
              (range1 (List.length good)),
     Raises (Builtin RuntimeError)).
Proof.
  intros Hn Hin Hd HF HB.
  rewrite (page_images_round sessions file rest_files n t Hn).
  apply id_in_spec in Hin. unfold ids_of in Hin. rewrite Hin.
  now rewrite (extract_all_pages_stops file _ n t good bad rest Hd HF HB).
Qed.

Lemma page_render_failure_aborts_update_witness :
  let page := Sample.text_page (u "Seite 1") in
  let bad := {| get_text := Some []; get_images := Some []; get_pixmap := false |} in
  let file := Sample.pdf "TE_100.pdf" [page; bad] in
  let later := Sample.pdf "TE_184.pdf" [page] in
  snd (update_library_with_page_images
         (library_of [Stored.session 100; Stored.session 184]) [file; later] [])
  = Raises (Builtin RuntimeError).
Proof.
  intros page bad file later.
  rewrite (page_render_failure_aborts_update
             [Stored.session 100; Stored.session 184] file [later] 100
             [page] bad [] []).
  - reflexivity.
  - vm_compute. reflexivity.
  - vm_compute. left. reflexivity.
  - reflexivity.
  - repeat constructor.
  - reflexivity.
Defined.

(** X25: [extract_single_session] without a session number takes it from
    the file name, and 999 when the name (within Latin-1) has no digit.
    All such documents are rendered into the one folder
    "drill_images/TE_999" under names that depend on the page number
    only, so that each overwrites the pages of the one before. *)
Theorem unnumbered_documents_share_folder file doc t t' renders :
  latin1 (path_name (pf_path file)) = true ->
  no_digit (path_name (pf_path file)) = true ->
  pf_doc file = Some doc ->
  extract_single_session file None t = (t', Ok renders) ->
  files_written t'
  = files_written t
      ++ map (fun k => [ u "drill_images"; u "TE_999";
                         u "TE_999_page_" ++ str_of_int k ++ u ".png" ])
             (range1 (List.length doc)).
Proof.
  intros _ Hn Hd H. unfold extract_single_session in H.
  unfold bind at 1 in H. unfold bind at 1, lift, ret in H.
  rewrite (session_id_of_no_digit _ Hn) in H.
  apply extract_all_pages_writes in H. destruct H as (doc' & Hd' & ->).
  assert (doc' = doc) by congruence. subst doc'.
  reflexivity.
Qed.

Lemma unnumbered_documents_share_folder_witness :
  let first := Sample.pdf "notes.pdf" [Sample.text_page (u "A")] in
  let second := Sample.pdf "plan.pdf" [Sample.text_page (u "B")] in
  files_written (fst (extract_single_session first None []))
  = [[u "drill_images"; u "TE_999"; u "TE_999_page_1.png"]]
  /\ files_written (fst (extract_single_session second None []))
     = files_written []
         ++ map (fun k => [ u "drill_images"; u "TE_999";
                            u "TE_999_page_" ++ str_of_int k ++ u ".png" ])
                (range1 (List.length [Sample.text_page (u "B")])).
Proof.
  intros first second. split; [vm_compute; reflexivity | ].
  apply (unnumbered_documents_share_folder second
           [Sample.text_page (u "B")] []
           (fst (extract_single_session second None []))
           (value_of [] (extract_single_session second None []))).
  - vm_compute. reflexivity.
  - vm_compute. reflexivity.
  - reflexivity.
  - vm_compute. reflexivity.
Defined.

(** *** Packages *)

Lemma str_leb_total a : forall b, str_leb a b = false -> str_leb b a = true.
Proof.
  induction a as [ | x a IH]; intros [ | y b] H; cbn [str_leb] in *;
    try discriminate; try reflexivity.
  destruct (x <? y)%N eqn:Lxy; [discriminate | ].
  destruct (y <? x)%N eqn:Lyx; [reflexivity | ]. now apply IH.
Qed.

Lemma eqb_sym a b : PyStr.eqb a b = PyStr.eqb b a.
Proof.
  destruct (PyStr.eqb a b) eqn:E.
  - apply eqb_eq in E. subst. now rewrite eqb_refl.
  - apply eqb_neq in E. symmetry. apply eqb_neq. congruence.
Qed.

Lemma pair_leb_total p q : pair_leb p q = false -> pair_leb q p = true.
Proof.
  unfold pair_leb. rewrite (eqb_sym (fst q)).
  destruct (PyStr.eqb (fst p) (fst q)); apply str_leb_total.
Qed.

Lemma pair_eqb_eq p q : pair_eqb p q = true <-> p = q.
Proof.
  unfold pair_eqb. destruct p as [a b], q as [c d]. cbn [fst snd].
  rewrite andb_true_iff, !eqb_eq. split; [intros [-> ->] | intros H; inversion H];
    auto.
Qed.

Lemma insert_pair_perm p l : Permutation (insert_pair p l) (p :: l).
Proof.
  induction l as [ | q l IH]; cbn [insert_pair]; [reflexivity | ].
  destruct (pair_leb p q); [reflexivity | ].
  rewrite IH. apply perm_swap.
Qed.

Lemma insert_pair_sorted p l :
  Sorted (fun a b => pair_leb a b = true) l ->
  Sorted (fun a b => pair_leb a b = true) (insert_pair p l).
Proof.
  induction 1 as [ | q l Hs IH Hd]; cbn [insert_pair];
    [repeat constructor | ].
  destruct (pair_leb p q) eqn:L.
  - constructor; [now constructor | now constructor].
  - constructor; [exact IH | ].
    destruct l as [ | r l]; cbn [insert_pair].
    + constructor. now apply pair_leb_total.
    + destruct (pair_leb p r).
      * constructor. now apply pair_leb_total.
      * constructor. now inversion Hd.
Qed.

Lemma sorted_pairs_spec set :
  Permutation (sorted_pairs set) set
  /\ Sorted (fun a b => pair_leb a b = true) (sorted_pairs set).
Proof.
  induction set as [ | p set [IHp IHs]]; cbn [sorted_pairs fold_right].
  - split; constructor.
  - split; [ | now apply insert_pair_sorted].
    rewrite insert_pair_perm. now constructor.
Qed.

Lemma set_add_In p q set : In q (set_add p set) <-> q = p \/ In q set.
Proof.
  unfold set_add. destruct (existsb (pair_eqb p) set) eqn:E.
  - split; [auto | ]. intros [-> | H]; [ | exact H].
    apply existsb_exists in E. destruct E as (r & Hr & Er).
    apply pair_eqb_eq in Er. now subst.
  - rewrite in_app_iff. cbn [In]. intuition congruence.
Qed.

Lemma set_add_NoDup p set : NoDup set -> NoDup (set_add p set).
Proof.
  intros H. unfold set_add. destruct (existsb (pair_eqb p) set) eqn:E;
    [exact H | ].
  apply NoDup_app; [exact H | repeat constructor; intros [] | ].
  intros q Hq [Hp | []]. subst q.
  assert (X : existsb (pair_eqb p) set = true).
  { apply existsb_exists. exists p. split; [exact Hq | now apply pair_eqb_eq]. }
  congruence.
Qed.

Lemma entries_set_distinct key v entries :
  distinct_keys entries -> distinct_keys (entries_set key v entries).
Proof.
  induction entries as [ | [k x] rest IH]; cbn [entries_set distinct_keys].
  - intros _. split; [constructor | trivial].
  - intros [HF HD]. destruct (key_eq k key) eqn:E; cbn [distinct_keys].
    + split; assumption.
    + split; [ | now apply IH].
      clear IH HD. induction rest as [ | [j y] rest IHr];
        cbn [entries_set].
      * repeat constructor. exact E.
      * inversion HF as [ | ? ? Hj Hrest]; subst. cbn [fst] in Hj.
        destruct (key_eq j key); constructor; auto.
Qed.

Section Collecting.
Variable path_exists : pystr -> bool.

Lemma collect_images_keeps :
  forall images paths set found,
    collect_images path_exists images paths set = Returns found ->
    NoDup set -> Forall (packed path_exists) set ->
    NoDup (snd found) /\ Forall (packed path_exists) (snd found).
Proof.
  intros images; induction images as [ | img rest IH]; intros paths set found H ND HF;
    cbn [collect_images] in H.
  - inversion H. now split.
  - destruct (getitem img (u "path")) as [original_path | e];
      cbn [obind] in H; [ | discriminate].
    destruct original_path as [ | | | original | | ]; cbn [str_replace obind] in H;
      try discriminate.
    apply IH in H; [exact H | | ].
    + destruct (path_exists original); [now apply set_add_NoDup | exact ND].
    + destruct (path_exists original) eqn:X; [ | exact HF].
      apply Forall_forall. intros q Hq. apply set_add_In in Hq.
      destruct Hq as [-> | Hq]; [now split | ].
      rewrite Forall_forall in HF. now apply HF.
Qed.

Lemma collect_drill_keeps session_id drill c c' :
  collect_drill path_exists session_id drill c = Returns c' ->
  NoDup (image_files_set c) /\ Forall (packed path_exists) (image_files_set c)
  /\ distinct_keys (manifest_drills c) ->
  NoDup (image_files_set c') /\ Forall (packed path_exists) (image_files_set c')
  /\ distinct_keys (manifest_drills c').
Proof.
  unfold collect_drill. intros H (ND & HF & HK).
  destruct (getitem drill (u "drill_id")) as [drill_id | e];
    cbn [obind] in H; [ | discriminate].
  destruct (str_in (u "images") drill) as [listed | e];
    cbn [obind] in H; [ | discriminate].
  destruct (if listed then getitem drill (u "images") else Returns JNull)
    as [images | e]; cbn [obind] in H; [ | discriminate].
  destruct (listed && truthy images); [ | inversion H; subst; auto].
  destruct (manifest_set drill_id _ (manifest_drills c)) as [entries | e] eqn:M;
    cbn [obind] in H; [ | discriminate].
  destruct (iterate images) as [each | e]; cbn [obind] in H; [ | discriminate].
  destruct (collect_images path_exists each [] (image_files_set c))
    as [found | e] eqn:C; cbn [obind] in H; [ | discriminate].
  inversion H; subst c'. cbn [image_files_set manifest_drills].
  destruct (collect_images_keeps _ _ _ _ C ND HF) as [ND' HF'].
  split; [exact ND' | ]. split; [exact HF' | ].
  apply entries_set_distinct.
  unfold manifest_set in M.
  destruct drill_id; inversion M; now apply entries_set_distinct.
Qed.

Lemma collect_drills_keeps session_id :
  forall drills c c',
    collect_drills path_exists session_id drills c = Returns c' ->
    NoDup (image_files_set c) /\ Forall (packed path_exists) (image_files_set c)
    /\ distinct_keys (manifest_drills c) ->
    NoDup (image_files_set c')
    /\ Forall (packed path_exists) (image_files_set c')
    /\ distinct_keys (manifest_drills c').
Proof.
  intros drills; induction drills as [ | drill rest IH]; intros c c' H Inv;
    cbn [collect_drills] in H.
  - inversion H; subst. exact Inv.
  - destruct (collect_drill path_exists session_id drill c) as [c1 | e] eqn:D;
      cbn [obind] in H; [ | discriminate].
    apply (IH _ _ H). exact (collect_drill_keeps _ _ _ _ D Inv).
Qed.

Lemma collect_sessions_keeps :
  forall sessions c c',
    collect_sessions path_exists sessions c = Returns c' ->
    NoDup (image_files_set c) /\ Forall (packed path_exists) (image_files_set c)
    /\ distinct_keys (manifest_drills c) ->
    NoDup (image_files_set c')
    /\ Forall (packed path_exists) (image_files_set c')
    /\ distinct_keys (manifest_drills c').
Proof.
  induction sessions as [ | session rest IH]; intros c c' H Inv;
    cbn [collect_sessions] in H.
  - inversion H; subst. exact Inv.
  - destruct (getitem session (u "id")) as [session_id | e];
      cbn [obind] in H; [ | discriminate].
    destruct (get session (u "drills") (JList [])) as [drills | e];
      cbn [obind] in H; [ | discriminate].
    destruct (iterate drills) as [each | e]; cbn [obind] in H;
      [ | discriminate].
    destruct (collect_drills path_exists session_id each c) as [c1 | e] eqn:D;
      cbn [obind] in H; [ | discriminate].
    apply (IH _ _ H). exact (collect_drills_keeps _ _ _ _ D Inv).
Qed.

Lemma package_spec library_json0 library_data now pkg :
  package path_exists library_json0 library_data now = Returns pkg ->
  library_json pkg = library_json0
  /\ NoDup (image_files pkg)
  /\ Sorted (fun a b => pair_leb a b = true) (image_files pkg)
  /\ Forall (packed path_exists) (image_files pkg)
  /\ distinct_keys (manifest_of_drills pkg)
  /\ List.length (archive_names pkg) = (2 + List.length (image_files pkg))%nat.
Proof.
  unfold package. intros H.
  destruct (get library_data (u "sessions") (JList [])) as [sessions | e];
    cbn [obind] in H; [ | discriminate].
  destruct (iterate sessions) as [each | e]; cbn [obind] in H; [ | discriminate].
  destruct (collect_sessions path_exists each _) as [c | e] eqn:C;
    cbn [obind] in H; [ | discriminate].
  inversion H; subst pkg. clear H.
  cbn [library_json image_files manifest_of_drills].
  apply collect_sessions_keeps in C;
    [ | cbn; split; [constructor | split; [constructor | trivial]]].
  destruct C as (ND & HF & HK).
  destruct (sorted_pairs_spec (image_files_set c)) as [P S].
  split; [reflexivity | ].
  split; [exact (Permutation_NoDup (Permutation_sym P) ND) | ].
  split; [exact S | ].
  split; [ | split; [exact HK | ]].
  - apply Forall_forall. intros q Hq. rewrite Forall_forall in HF.
    apply HF. exact (Permutation_in _ P Hq).
  - unfold archive_names. cbn [image_files]. rewrite length_app, length_map.
    reflexivity.
Qed.

End Collecting.

(** X26: both packaging scripts put every image file into the archive at
    most once, however many drills refer to it: the list of files is
    sorted, holds no pair twice, and holds only files that exist, each under
    the name that its path gets when "drill_images/" is replaced by
    "drill_images_v2/"; the manifest has no drill id twice.  The archive
    holds the library as loaded, or, for the optimized package, as
    [optimize_library_json] returns it. *)
Theorem package_holds_each_file_once path_exists library_data now pkg :
  (create_hblib path_exists library_data now = Returns pkg ->
   library_json pkg = library_data)
  /\ (create_hblib_optimized path_exists library_data now = Returns pkg ->
      optimize_library_json library_data = Returns (library_json pkg))
  /\ (create_hblib path_exists library_data now = Returns pkg
      \/ create_hblib_optimized path_exists library_data now = Returns pkg ->
      NoDup (image_files pkg)
      /\ Sorted (fun a b => pair_leb a b = true) (image_files pkg)
      /\ Forall (packed path_exists) (image_files pkg)
      /\ distinct_keys (manifest_of_drills pkg)
      /\ List.length (archive_names pkg) = (2 + List.length (image_files pkg))%nat).
Proof.
  split; [ | split].
  - unfold create_hblib. intros H. now apply package_spec in H.
  - unfold create_hblib_optimized. intros H.
    destruct (optimize_library_json library_data) as [optimized | e];
      cbn [obind] in H; [ | discriminate].
    apply package_spec in H. destruct H as [-> _]. reflexivity.
  - intros [H | H].
    + unfold create_hblib in H. apply package_spec in H. tauto.
    + unfold create_hblib_optimized in H.
      destruct (optimize_library_json library_data) as [optimized | e];
        cbn [obind] in H; [ | discriminate].
      apply package_spec in H. tauto.
Qed.

(** *** Packages of extracted sessions *)

Lemma entries_set_set key v w entries :
  key_eq key key = true ->
  entries_set key v (entries_set key w entries) = entries_set key v entries.
Proof.
  intros R. induction entries as [ | [k x] rest IH]; cbn [entries_set].
  - now rewrite R.
  - destruct (key_eq k key) eqn:E; cbn [entries_set]; rewrite E;
      [reflexivity | now rewrite IH].
Qed.

Lemma image_path_member img :
  getitem (json_of_image img) (u "path") = Returns (JStr (img_path img)).
Proof.
  unfold json_of_image. cbn [getitem app]. lookup. reflexivity.
Qed.

Lemma session_drills_member s :
  get (json_of_session s) (u "drills") (JList [])
  = Returns (JList (map json_of_drill (drills s))).
Proof. unfold json_of_session. cbn [get]. lookup. reflexivity. Qed.

Section Records.
Variable path_exists : pystr -> bool.

Lemma collect_images_of_records :
  forall imgs paths set,
    collect_images path_exists (map json_of_image imgs) paths set
    = Returns
        (paths ++ map (fun img => JStr (archive_path img)) imgs,
         fold_left (fun set img =>
                      if path_exists (img_path img)
                      then set_add (img_path img, archive_path img) set
                      else set) imgs set).
Proof.
  induction imgs as [ | img rest IH]; intros paths set;
    cbn [map collect_images fold_left].
  - now rewrite app_nil_r.
  - rewrite image_path_member. cbn [obind str_replace].
    rewrite IH, <- app_assoc. reflexivity.
Qed.

Lemma collect_drill_of_record s d c :
  collect_drill path_exists (json_of_id (id s)) (json_of_drill d) c
  = Returns
      match images d with
      | [] => c
      | _ =>
          {| manifest_drills :=
               entries_set (JStr (drill_id d)) (manifest_entry (s, d))
                           (manifest_drills c);
             image_files_set :=
               fold_left (fun set img =>
                            if path_exists (img_path img)
                            then set_add (img_path img, archive_path img) set
                            else set) (images d) (image_files_set c) |}
      end.
Proof.
  unfold collect_drill, json_of_drill. cbn [getitem obind str_in].
  lookup. cbn [obind]. rewrite has_key_spec. lookup. cbn [obind].
  destruct (images d) as [ | img imgs] eqn:E; cbn [map truthy andb];
    [reflexivity | ].
  cbn [manifest_set obind iterate].
  change (json_of_image img :: map json_of_image imgs)
    with (map json_of_image (img :: imgs)).
  rewrite collect_images_of_records. cbn [obind fst snd app].
  rewrite entries_set_set by (cbn [key_eq]; apply eqb_refl).
  unfold manifest_entry. cbn [fst snd]. rewrite E. reflexivity.
Qed.
Lemma collect_drills_of_records s :
  forall ds c,
  exists c',
    collect_drills path_exists (json_of_id (id s)) (map json_of_drill ds) c
    = Returns c'
    /\ manifest_drills c'
       = fold_left (fun m sd =>
                      entries_set (JStr (drill_id (snd sd))) (manifest_entry sd) m)
                   (map (pair s)
                        (filter (fun d => match images d with
                                          | [] => false
                                          | _ => true
                                          end) ds))
                   (manifest_drills c)
    /\ image_files_set c'
       = fold_left (fun set img =>
                      if path_exists (img_path img)
                      then set_add (img_path img, archive_path img) set
                      else set)
                   (flat_map images ds) (image_files_set c).
Proof.
  induction ds as [ | d ds IH]; intros c; cbn [map collect_drills].
  - exists c. repeat split.
  - rewrite collect_drill_of_record. cbn [obind filter flat_map].
    rewrite fold_left_app.
    destruct (images d) as [ | img imgs] eqn:E.
    + destruct (IH c) as (c' & E' & M & F). exists c'.
      split; [exact E' | ]. split; [exact M | exact F].
    + match goal with
      | |- context [collect_drills _ _ _ ?c1] =>
          destruct (IH c1) as (c' & E' & M & F)
      end.
      exists c'. split; [exact E' | ].
      cbn [manifest_drills image_files_set] in M, F.
      split; [exact M | exact F].
Qed.

Lemma collect_sessions_of_records :
  forall sessions c,
  exists c',
    collect_sessions path_exists (map json_of_session sessions) c = Returns c'
    /\ manifest_drills c'
       = fold_left (fun m sd =>
                      entries_set (JStr (drill_id (snd sd))) (manifest_entry sd) m)
                   (drills_with_images sessions) (manifest_drills c)
    /\ image_files_set c'
       = fold_left (fun set img =>
                      if path_exists (img_path img)
                      then set_add (img_path img, archive_path img) set
                      else set)
                   (flat_map images (flat_map drills sessions))
                   (image_files_set c).
Proof.
  induction sessions as [ | s ss IH]; intros c;
    cbn [map collect_sessions].
  - exists c. repeat split.
  - rewrite session_id_member. cbn [obind].
    rewrite session_drills_member. cbn [obind iterate].
    destruct (collect_drills_of_records s (drills s) c) as (c1 & E1 & M1 & F1).
    rewrite E1. cbn [obind].
    destruct (IH c1) as (c' & E' & M & F). exists c'.
    split; [exact E' | ].
    unfold drills_with_images in *. cbn [flat_map].
    rewrite !flat_map_app, !fold_left_app, <- M1, <- F1.
    split; [exact M | exact F].
Qed.

Lemma fold_set_add_In (p : pystr * pystr) :
  forall imgs set,
    In p (fold_left (fun set img =>
                       if path_exists (img_path img)
                       then set_add (img_path img, archive_path img) set
                       else set) imgs set)
    <-> In p set
        \/ exists img,
             In img imgs /\ path_exists (img_path img) = true
             /\ p = (img_path img, archive_path img).
Proof.
  induction imgs as [ | img rest IH]; intros set; cbn [fold_left].
  - split; [auto | ]. intros [H | (img & [] & _)]. exact H.
  - rewrite IH. destruct (path_exists (img_path img)) eqn:X.
    + rewrite set_add_In. split.
      * intros [[H | H] | (i & Hi & Hx & Hp)].
        -- right. exists img. split; [now left | split; [exact X | exact H]].
        -- now left.
        -- right. exists i. split; [now right | split; assumption].
      * intros [H | (i & [Hi | Hi] & Hx & Hp)].
        -- left. now right.
        -- subst i. left. now left.
        -- right. exists i. split; [exact Hi | split; assumption].
    + split.
      * intros [H | (i & Hi & Hx & Hp)].
        -- now left.
        -- right. exists i. split; [now right | split; assumption].
      * intros [H | (i & [Hi | Hi] & Hx & Hp)].
        -- now left.
        -- subst i. congruence.
        -- right. exists i. split; [exact Hi | split; assumption].
Qed.

End Records.

(** X27: a library that holds sessions as the extractor builds them can
    always be packed, and the archive then holds exactly the images that
    some drill refers to and that exist as files, each under the name that
    its path gets when "drill_images/" is replaced by "drill_images_v2/";
    an image whose file is missing is left out without an error. *)
Theorem every_existing_image_is_packed path_exists sessions now :
  exists pkg,
    create_hblib path_exists (library_of sessions) now = Returns pkg
    /\ forall original name,
         In (original, name) (image_files pkg)
         <-> exists session drill img,
               In session sessions /\ In drill (drills session)
               /\ In img (images drill)
               /\ img_path img = original
               /\ path_exists original = true
               /\ name = archive_path img.
Proof.
  unfold create_hblib, package, library_of. cbn [get obind]. lookup.
  cbn [obind iterate].
  destruct (collect_sessions_of_records path_exists sessions
              {| manifest_drills := []; image_files_set := [] |})
    as (c & E & _ & F).
  rewrite E. cbn [obind]. eexists. split; [reflexivity | ].
  cbn [image_files]. intros original name.
  destruct (sorted_pairs_spec (image_files_set c)) as [P _].
  split.
  - intros H. apply (Permutation_in _ P) in H. rewrite F in H.
    apply fold_set_add_In in H. destruct H as [[] | (img & Hi & Hx & Hp)].
    apply in_flat_map in Hi. destruct Hi as (drill & Hd & Hi).
    apply in_flat_map in Hd. destruct Hd as (session & Hs & Hd).
    inversion Hp; subst. exists session, drill, img. auto 8.
  - intros (session & drill & img & Hs & Hd & Hi & <- & Hx & ->).
    apply (Permutation_in _ (Permutation_sym P)). rewrite F.
    apply fold_set_add_In. right. exists img. split; [ | auto].
    apply in_flat_map. exists drill. split; [ | exact Hi].
    apply in_flat_map. exists session. auto.
Qed.

Lemma find_app {A : Type} (f : A -> bool) l1 l2 :
  find f (l1 ++ l2) = match find f l1 with
                      | Some x => Some x
                      | None => find f l2
                      end.
Proof.
  induction l1 as [ | x l1 IH]; cbn [app find]; [reflexivity | ].
  destruct (f x); [reflexivity | exact IH].
Qed.

Lemma entries_get_set a e b entries :
  entries_get (JStr b) (entries_set (JStr a) e entries)
  = if PyStr.eqb a b then Some e else entries_get (JStr b) entries.
Proof.
  induction entries as [ | [k x] rest IH]; cbn [entries_set entries_get].
  - cbn [key_eq]. reflexivity.
  - destruct (key_eq k (JStr a)) eqn:Ka; cbn [entries_get].
    + destruct k; cbn [key_eq] in Ka |- *; try discriminate.
      apply eqb_eq in Ka. subst s. destruct (PyStr.eqb a b); reflexivity.
    + rewrite IH. destruct (key_eq k (JStr b)) eqn:Kb; [ | reflexivity].
      destruct k; cbn [key_eq] in Ka, Kb; try discriminate.
      apply eqb_eq in Kb. rewrite Kb in Ka. rewrite (eqb_sym a b), Ka.
      reflexivity.
Qed.

Lemma manifest_fold_get drill_id0 :
  forall L m,
    entries_get (JStr drill_id0)
      (fold_left (fun m sd =>
                    entries_set (JStr (drill_id (snd sd))) (manifest_entry sd) m)
                 L m)
    = match find (fun sd : Session * Drill =>
                    PyStr.eqb (drill_id (snd sd)) drill_id0) (rev L) with
      | Some sd => Some (manifest_entry sd)
      | None => entries_get (JStr drill_id0) m
      end.
Proof.
  induction L as [ | x L IH]; intros m; cbn [fold_left rev find];
    [reflexivity | ].
  rewrite IH, find_app, entries_get_set. cbn [find].
  destruct (find _ (rev L)); [reflexivity | ].
  destruct (PyStr.eqb (drill_id (snd x)) drill_id0); reflexivity.
Qed.

(** X28: the manifest of a package is a dict keyed by drill id, so that of
    several drills with the same id only the last one with images is
    listed: what the manifest holds under an id are the session and the
    archive paths of the images of the last such drill of the library, and
    nothing when no drill with images has the id. *)
Theorem manifest_lists_last_drill path_exists sessions now drill_id0 :
  exists pkg,
    create_hblib path_exists (library_of sessions) now = Returns pkg
    /\ entries_get (JStr drill_id0) (manifest_of_drills pkg)
       = option_map manifest_entry
           (find (fun sd : Session * Drill =>
                    PyStr.eqb (drill_id (snd sd)) drill_id0)
                 (rev (drills_with_images sessions))).
Proof.
  unfold create_hblib, package, library_of. cbn [get obind]. lookup.
  cbn [obind iterate].
  destruct (collect_sessions_of_records path_exists sessions
              {| manifest_drills := []; image_files_set := [] |})
    as (c & E & M & _).
  rewrite E. cbn [obind]. eexists. split; [reflexivity | ].
  cbn [manifest_of_drills manifest_drills] in *. rewrite M.
  rewrite manifest_fold_get. cbn [entries_get].
  destruct (find _ (rev (drills_with_images sessions))); reflexivity.
Qed.

(** *** The names of page renders in the archive *)

Lemma replace_from_skip old new p :
  forall rest,
    replace_from old new (List.length p) (p ++ rest)
    = replace_from old new 0 rest.
Proof.
  induction p as [ | c p IH]; intros rest; cbn [List.length app];
    [reflexivity | ].
  cbn [replace_from]. apply IH.
Qed.

Lemma py_replace_prefix c old new rest :
  py_replace (c :: old) new ((c :: old) ++ rest)
  = new ++ py_replace (c :: old) new rest.
Proof.
  unfold py_replace. cbn [app replace_from].
  assert (Pre : startswith (c :: old ++ rest) (c :: old) = true).
  { apply startswith_spec. exists rest. reflexivity. }
  rewrite Pre.
  replace (List.length (c :: old) - 1)%nat with (List.length old)
    by (cbn [List.length]; lia).
  now rewrite replace_from_skip.
Qed.

Lemma py_replace_without c old new :
  forall s, ~ In c s -> py_replace (c :: old) new s = s.
Proof.
  unfold py_replace. induction s as [ | x s IH]; intros H; cbn [replace_from];
    [reflexivity | ].
  assert (N : (c =? x)%N = false).
  { apply N.eqb_neq. intros ->. apply H. now left. }
  cbn [startswith]. rewrite N. cbn [andb]. rewrite IH; [reflexivity | ].
  intros Hin. apply H. now right.
Qed.

Lemma uint_codes_no_letter d : ~ In 100%N (uint_codes d).
Proof.
  intros H. pose proof (uint_codes_digits d) as D.
  rewrite forallb_forall in D. specialize (D _ H). discriminate.
Qed.

Lemma str_of_int_no_letter n : ~ In 100%N (str_of_int n).
Proof.
  unfold str_of_int. destruct (Z.to_int n).
  - apply uint_codes_no_letter.
  - intros [H | H]; [discriminate | now apply uint_codes_no_letter in H].
Qed.

Lemma format_03d_no_letter n : ~ In 100%N (format_03d n).
Proof.
  assert (P : forall w s, ~ In 100%N s -> ~ In 100%N (pad_zeros w s)).
  { intros w s Hs H. unfold pad_zeros in H. apply in_app_or in H.
    destruct H as [H | H]; [ | now apply Hs].
    apply repeat_spec in H. discriminate. }
  unfold format_03d. destruct (n <? 0).
  - intros [H | H]; [discriminate | ].
    revert H. apply P, str_of_int_no_letter.
  - apply P, str_of_int_no_letter.
Qed.

Lemma render_archive_path sid k :
  py_replace (u "drill_images/") (u "drill_images_v2/")
             (u "drill_images/TE_" ++ format_03d sid ++ u "/"
                ++ page_image_filename sid k)
  = u "drill_images_v2/TE_" ++ format_03d sid ++ u "/"
      ++ page_image_filename sid k.
Proof.
  assert (A : forall x : pystr,
            u "drill_images/TE_" ++ x = u "drill_images/" ++ u "TE_" ++ x)
    by (intros x; vm_compute; reflexivity).
  assert (B : forall x : pystr,
            u "drill_images_v2/TE_" ++ x = u "drill_images_v2/" ++ u "TE_" ++ x)
    by (intros x; vm_compute; reflexivity).
  assert (O : u "drill_images/" = 100%N :: u "rill_images/")
    by (vm_compute; reflexivity).
  rewrite A, B, O, py_replace_prefix. f_equal.
  apply py_replace_without. unfold page_image_filename.
  assert (L : forall s, forallb (fun c => negb (c =? 100)%N) s = true ->
                        ~ In 100%N s).
  { intros s Hs H. rewrite forallb_forall in Hs. specialize (Hs _ H).
    discriminate. }
  intros H.
  repeat (apply in_app_or in H; destruct H as [H | H]);
    try (revert H; apply L; vm_compute; reflexivity);
    try (now apply format_03d_no_letter in H);
    try (now apply str_of_int_no_letter in H).
Qed.

(** X29: the page renders of a document that
    [extract_all_pages_from_pdf] returns go into the archive, page by page,
    under the names "drill_images_v2/TE_{id:03d}/TE_{id:03d}_page_{k}.png":
    only the folder at the front of the path is renamed. *)
Theorem page_renders_in_archive file output sid t t' renders :
  extract_all_pages_from_pdf file output sid t = (t', Ok renders) ->
  exists doc,
    pf_doc file = Some doc
    /\ map archive_path renders
       = map (fun k => u "drill_images_v2/TE_" ++ format_03d sid ++ u "/"
                         ++ page_image_filename sid k)
             (range1 (List.length doc)).
Proof.
  unfold extract_all_pages_from_pdf. intros H.
  unfold bind at 1, lift, or_raise in H.
  destruct (pf_doc file) as [doc | ]; [ | discriminate].
  exists doc. split; [reflexivity | ].
  unfold bind at 1, emit in H. unfold bind at 1 in H.
  unfold bind at 1 in H.
  destruct (render_pages output sid 1 doc [] _) as [t1 [images | e]] eqn:E;
    [ | discriminate].
  apply render_pages_records in E. destruct E as (-> & _ & _).
  unfold bind, emit, ret in H. inversion H; subst. clear H.
  cbn [app]. rewrite <- range1_shift, map_map. apply map_ext. intros k.
  unfold archive_path. cbn [img_path]. apply render_archive_path.
Qed.

Lemma page_renders_in_archive_witness :
  let file := Sample.pdf "TE_007.pdf"
                [Sample.text_page (u "Seite 1"); Sample.text_page (u "Seite 2")] in
  let run := extract_all_pages_from_pdf file [u "out"] 7 [] in
  let renders := value_of [] run in
  run = (fst run, Ok renders)
  /\ map archive_path renders
     = [ u "drill_images_v2/TE_007/TE_007_page_1.png";
         u "drill_images_v2/TE_007/TE_007_page_2.png" ]
  /\ exists doc,
       pf_doc file = Some doc
       /\ map archive_path renders
          = map (fun k => u "drill_images_v2/TE_" ++ format_03d 7 ++ u "/"
                            ++ page_image_filename 7 k)
                (range1 (List.length doc)).
Proof.
  intros file run renders.
  assert (E : run = (fst run, Ok renders)) by (vm_compute; reflexivity).
  split; [exact E | ]. split; [vm_compute; reflexivity | ].
  exact (page_renders_in_archive file [u "out"] 7 [] (fst run) renders E).
Defined.

Lemma package_holds_each_file_once_witness :
  let session :=
    value_of (Stored.session 0)
             (extract_single_pdf
                (Sample.pdf "TE_184.pdf"
                   [Sample.picture_page
                      (Sample.header_184 ++ [10%N] ++ u "Teil 2: Passen (10 min)")])
                true []) in
  let there := fun p => negb (PyStr.eqb p (u "drill_images/TE_184/184-1_img3.jpeg")) in
  let first := create_hblib there (library_of [session]) (u "2025-01-01T12:00:00") in
  let pkg := returned {| library_json := JNull; manifest_created_at := [];
                         manifest_of_drills := []; image_files := [] |} first in
  first = Returns pkg
  /\ image_files pkg
     = [ (u "drill_images/TE_184/184-1_img1.png",
          u "drill_images_v2/TE_184/184-1_img1.png") ]
  /\ NoDup (image_files pkg)
  /\ library_json pkg = library_of [session].
Proof.
  intros session there first pkg.
  assert (E : first = Returns pkg) by (vm_compute; reflexivity).
  split; [exact E | ]. split; [vm_compute; reflexivity | ].
  destruct (package_holds_each_file_once there (library_of [session])
              (u "2025-01-01T12:00:00") pkg) as (L & _ & F).
  split; [exact (proj1 (F (or_introl E))) | exact (L E)].
Defined.
